(** * UniShedAI: the greedy timetable generator of [main.py]

    A shallow embedding of [generate_schedule] (the [/generate] endpoint)
    and the properties of the schedule it returns.

    Conventions of the embedding:
    - Python [int] is [Z]; [str] is [string]; [list] is [list];
      [dict] is [gmap]; [set] is [gset].
    - A subscript [d[k]] is the partial lookup [d !! k] in the [option]
      monad: [None] stands for the uncaught [KeyError] (resp. the
      [ValueError] of [list.index]) that aborts the request.
    - [d.get(k, v)] is [default v (d !! k)].
    - [sorted] / [list.sort] are stable; with [reverse=True] the order of
      elements with equal keys is kept as well. They are modelled by a
      stable insertion sort. *)

From stdpp Require Import gmap strings list fin_maps sorting.
From Stdlib Require Import ZArith Lia.

Open Scope string_scope.
Open Scope list_scope.
Open Scope Z_scope.

(** ** The exception monad

    [bind] runs [m] and, unless it raised, continues with [k]. The
    computation comes first so that the type of the bound variable is known
    when the continuation is elaborated. *)

Definition bind {A B} (m : option A) (k : A → option B) : option B :=
  match m with
  | Some a => k a
  | None => None
  end.

Notation "x <- m ;; k" := (bind m (λ x, k))
  (at level 90, m at level 60, right associativity,
   format "'[v' x  <-  m  ;; '/' k ']'").

(** [mapM] for [bind]: apply [f] to every element in list order. *)
Fixpoint map_opt {A B} (f : A → option B) (l : list A) : option (list B) :=
  match l with
  | [] => Some []
  | x :: l' => y <- f x;; ys <- map_opt f l';; Some (y :: ys)
  end.

(** ** Stable sorting by a key *)

Section stable_sort.
Context {A K : Type}.
(** [before k1 k2] holds when an element of key [k1] may stand in front
    of an element of key [k2]: [<=] for an ascending sort, [>=] for a
    sort with [reverse=True]. *)
Variable before : K → K → bool.
Variable key : A → K.

Fixpoint insert_by (x : A) (l : list A) : list A :=
  match l with
  | [] => [x]
  | y :: l' =>
      if before (key x) (key y) then x :: y :: l' else y :: insert_by x l'
  end.

Fixpoint sort_by (l : list A) : list A :=
  match l with
  | [] => []
  | x :: l' => insert_by x (sort_by l')
  end.

(** The order on elements induced by the keys. *)
Definition before_rel (x y : A) : Prop := before (key x) (key y) = true.
End stable_sort.

(** [sorted(l, key=key)] on integer keys. *)
Definition sorted_asc {A} (key : A → Z) (l : list A) : list A :=
  sort_by Z.leb key l.

(** [sorted(l, key=key, reverse=True)] on integer keys. *)
Definition sorted_desc {A} (key : A → Z) (l : list A) : list A :=
  sort_by Z.geb key l.

(** [l.sort(key=f)] where [f] may raise: Python evaluates the key of every
    element once, in list order, then sorts on the stored keys. *)
Definition sort_with_keys {A} (before : Z → Z → bool)
    (f : A → option Z) (l : list A) : option (list A) :=
  keys <- map_opt f l;;
  Some ((sort_by before fst (zip keys l)).*2).

(** ** Data model (the pydantic models) *)

Record GroupItem := { g_name : string; g_size : Z }.
Record RoomItem := { r_name : string; r_capacity : Z }.

Record Assignment := {
  a_teacher : string;
  a_groups : list string;
  a_subject : string;
  a_count : Z;
  a_type : string
}.

Record SessionData := {
  teachers : list string;
  subjects : list string;
  groups : list GroupItem;
  rooms : list RoomItem;
  assignments : list Assignment;
  teacher_prefs : gmap string string;
  teacher_busy : gmap string (list string);
  days : list string;
  times : list string
}.

(** A task dictionary [{"teacher", "groups", "subject", "type"}]. *)
Record Task := {
  t_teacher : string;
  t_groups : list string;
  t_subject : string;
  t_type : string
}.

(** A schedule entry. The source stores the groups joined into the display
    field ["group"]; the entry keeps the task's group list it is rendered
    from, and [e_group] renders it. The display field ["time"] (the slot
    name with the day removed) is not part of the model. *)
Record Entry := {
  e_slot : string;
  e_day : string;
  e_teacher : string;
  e_groups : list string;
  e_subject : string;
  e_room : string;
  e_type : string
}.

Definition e_group (e : Entry) : string := String.concat ", " (e_groups e).

Record Response := {
  status : string;
  message : option string;
  resp_schedule : list Entry;
  resp_errors : list string
}.

(** ** Dictionaries built by comprehension: a later duplicate key wins. *)

Definition dict_of {V} (l : list (string * V)) : gmap string V :=
  fold_left (λ m kv, <[kv.1 := kv.2]> m) l ∅.

(** ** 1. Time slots *)

Record SlotInfo := { day : string; time_idx : Z }.

Definition slot_name (d t : string) : string := d +:+ " " +:+ t.

Definition enumerate {A} (l : list A) : list (Z * A) :=
  imap (λ i x, (Z.of_nat i, x)) l.

Definition build_slots (ds ts : list string)
    : list string * gmap string SlotInfo :=
  fold_left (λ acc d,
    fold_left (λ (acc : list string * gmap string SlotInfo) it,
      let s_name := slot_name d it.2 in
      (acc.1 ++ [s_name],
       <[s_name := {| day := d; time_idx := it.1 |}]> acc.2))
      (enumerate ts) acc)
    ds ([], ∅).


(** ** 2. Task expansion *)

(** [group_sizes.get(g, 0)] *)
Definition group_size (group_sizes : gmap string Z) (g : string) : Z :=
  default 0 (group_sizes !! g).

(** [sum(group_sizes.get(g, 0) for g in gs)] *)
Definition total_size (group_sizes : gmap string Z) (gs : list string) : Z :=
  foldr Z.add 0 (group_size group_sizes <$> gs).

(** [max(r.capacity for r in rooms)], with the guard and the default of
    lines 77-80: the replacement of 0 by 9999 is inside [if data.rooms]. *)
Definition compute_max_cap (rs : list RoomItem) : Z :=
  match rs with
  | [] => 0
  | r :: rs' =>
      let m := foldl Z.max (r_capacity r) (r_capacity <$> rs') in
      if m =? 0 then 9999 else m
  end.

(** [for _ in range(count): tasks.append(x)] *)
Definition append_times {A} (count : Z) (x : A) (tasks : list A) : list A :=
  Nat.iter (Z.to_nat count) (λ l, l ++ [x]) tasks.

(** State of the stream packer: [current_stream], [current_size],
    [streams]. *)
Record Packer := {
  current_stream : list string;
  current_size : Z;
  streams : list (list string)
}.

(** [if current_stream: streams.append(current_stream)] *)
Definition close_stream (p : Packer) : list (list string) :=
  match current_stream p with
  | [] => streams p
  | _ :: _ => streams p ++ [current_stream p]
  end.

(** One iteration of the loop over [sorted_groups] (lines 106-121). *)
Definition pack_step (group_sizes : gmap string Z) (max_cap : Z)
    (p : Packer) (g : string) : Packer :=
  let g_size := group_size group_sizes g in
  if bool_decide (g_size > max_cap) then
    {| current_stream := current_stream p;
       current_size := current_size p;
       streams := streams p ++ [[g]] |}
  else if bool_decide (current_size p + g_size ≤ max_cap) then
    {| current_stream := current_stream p ++ [g];
       current_size := current_size p + g_size;
       streams := streams p |}
  else
    {| current_stream := [g];
       current_size := g_size;
       streams := close_stream p |}.

Definition pack_streams (group_sizes : gmap string Z) (max_cap : Z)
    (gs : list string) : list (list string) :=
  let sorted_groups := sorted_desc (group_size group_sizes) gs in
  close_stream
    (fold_left (pack_step group_sizes max_cap) sorted_groups
       {| current_stream := []; current_size := 0; streams := [] |}).

(** The body of [for assign in data.assignments] (lines 85-133). *)
Definition expand_assignment (group_sizes : gmap string Z) (max_cap : Z)
    (tasks : list Task) (assign : Assignment) : list Task :=
  let count := a_count assign in
  if bool_decide (a_type assign = "seminar") then
    fold_left (λ tasks group_name,
      append_times count
        {| t_teacher := a_teacher assign; t_groups := [group_name];
           t_subject := a_subject assign; t_type := "seminar" |} tasks)
      (a_groups assign) tasks
  else
    fold_left (λ tasks s,
      append_times count
        {| t_teacher := a_teacher assign; t_groups := s;
           t_subject := a_subject assign; t_type := "lecture" |} tasks)
      (pack_streams group_sizes max_cap (a_groups assign)) tasks.

Definition expand_tasks (group_sizes : gmap string Z) (max_cap : Z)
    (assigns : list Assignment) : list Task :=
  fold_left (expand_assignment group_sizes max_cap) assigns [].

(** ** 3. Task priority *)

(** The sort key of line 136, a Python tuple [(bool, int, int)]. *)
Definition task_key (group_sizes : gmap string Z) (x : Task) : bool * Z * Z :=
  (bool_decide (t_type x = "lecture"),
   Z.of_nat (length (t_groups x)),
   total_size group_sizes (t_groups x)).

Definition bool_rank (b : bool) : Z := if b then 1 else 0.

(** Tuple comparison [k1 >= k2]: lexicographic, [True > False]. *)
Definition key_ge (k1 k2 : bool * Z * Z) : bool :=
  let '(b1, n1, s1) := k1 in
  let '(b2, n2, s2) := k2 in
  if bool_rank b1 =? bool_rank b2 then
    if n1 =? n2 then s1 >=? s2 else n1 >? n2
  else bool_rank b1 >? bool_rank b2.

(** [tasks.sort(key=..., reverse=True)] *)
Definition prioritize (group_sizes : gmap string Z) (tasks : list Task)
    : list Task :=
  sort_by key_ge (task_key group_sizes) tasks.

(** ** 4. Placement engine *)

(** The occupancy dictionaries together with the two output lists. *)
Record State := {
  schedule : list Entry;
  errors : list string;
  occ_teachers : gmap string (gset string);
  occ_groups : gmap string (gset string);
  occ_rooms : gmap string (gset string);
  teacher_daily : gmap string (gmap string (gset Z))
}.

Inductive Placement :=
  | Placed (st : State)
  | Unplaced (reason : string).

Definition reason_no_time : string := "Нет общего свободного времени".
Definition reason_no_room : string :=
  "Нет свободных кабинетов нужной вместимости".

(** Truth value of [target], which is [None] or a room name: the empty
    string is false. *)
Definition truthy (target : option string) : bool :=
  match target with
  | Some r => negb (bool_decide (r = ""))
  | None => false
  end.

(** [l.index(x)]: the position of the first occurrence of [x]; the
    [ValueError] for an absent [x] is [None]. *)
Fixpoint index_of (x : string) (l : list string) : option Z :=
  match l with
  | [] => None
  | y :: l' => if bool_decide (y = x) then Some 0
               else Z.succ <$> index_of x l'
  end.

Section solver.
Variable data : SessionData.

Definition slots : list string := (build_slots (days data) (times data)).1.
Definition slot_map : gmap string SlotInfo :=
  (build_slots (days data) (times data)).2.

Definition group_sizes : gmap string Z :=
  dict_of ((λ g, (g_name g, g_size g)) <$> groups data).
Definition room_caps : gmap string Z :=
  dict_of ((λ r, (r_name r, r_capacity r)) <$> rooms data).
Definition room_names : list string := r_name <$> rooms data.
Definition max_cap : Z := compute_max_cap (rooms data).

Definition tasks : list Task :=
  prioritize group_sizes (expand_tasks group_sizes max_cap (assignments data)).

Definition init_state : State :=
  {| schedule := [];
     errors := [];
     occ_teachers := dict_of ((λ s, (s, ∅)) <$> slots);
     occ_groups := dict_of ((λ s, (s, ∅)) <$> slots);
     occ_rooms := dict_of ((λ s, (s, ∅)) <$> slots);
     teacher_daily :=
       dict_of ((λ t, (t, dict_of ((λ d, (d, ∅)) <$> days data)))
                  <$> teachers data) |}.

(** The closure [score] of lines 154-161. *)
Definition score (st : State) (t_name slot : string) : option Z :=
  info <- slot_map !! slot;;
  daily <- teacher_daily st !! t_name;;
  exist <- daily !! day info;;
  match (λ e, Z.abs (time_idx info - e)) <$> elements exist with
  | [] => Some 10
  | d :: ds =>
      let dist := foldl Z.min d ds in
      Some (if dist =? 1 then 100 else if dist =? 2 then -50 else 0)
  end.

(** [any(g in occ_groups[slot] for g in t_groups)] *)
Fixpoint any_group_occupied (st : State) (slot : string)
    (gs : list string) : option bool :=
  match gs with
  | [] => Some false
  | g :: gs' =>
      og <- occ_groups st !! slot;;
      if bool_decide (g ∈ og) then Some true
      else any_group_occupied st slot gs'
  end.

(** [t_name in data.teacher_busy and slot in data.teacher_busy[t_name]] *)
Definition teacher_is_busy (t_name slot : string) : bool :=
  match teacher_busy data !! t_name with
  | Some l => bool_decide (slot ∈ l)
  | None => false
  end.

(** The three [continue] tests of lines 166-168. *)
Definition slot_available (st : State) (task : Task) (slot : string)
    : option bool :=
  ot <- occ_teachers st !! slot;;
  if bool_decide (t_teacher task ∈ ot) then Some false
  else
    busy <- any_group_occupied st slot (t_groups task);;
    if busy then Some false
    else Some (negb (teacher_is_busy (t_teacher task) slot)).

Fixpoint filter_avail (st : State) (task : Task) (sl : list string)
    : option (list string) :=
  match sl with
  | [] => Some []
  | slot :: sl' =>
      ok <- slot_available st task slot;;
      rest <- filter_avail st task sl';;
      Some (if ok then slot :: rest else rest)
  end.

(** [room_caps.get(r, 9999)] *)
Definition room_cap (r : string) : Z := default 9999 (room_caps !! r).

(** [(room_caps.get(r, 9999) or 9999) >= stud_count] *)
Definition fits (stud_count : Z) (r : string) : bool :=
  (if room_cap r =? 0 then 9999 else room_cap r) >=? stud_count.

(** Lines 182-184: the preferred room, for a task that is not a
    lecture. *)
Definition preferred_target (st : State) (task : Task) (stud_count : Z)
    (slot : string) : option (option string) :=
  if bool_decide (t_type task ≠ "lecture") then
    match teacher_prefs data !! t_teacher task with
    | Some pref =>
        oroom <- occ_rooms st !! slot;;
        Some (if bool_decide (pref ∉ oroom) && fits stud_count pref
              then Some pref else None)
    | None => Some None
    end
  else Some None.

(** [[r for r in room_names if r not in occ_rooms[slot]]] *)
Fixpoint free_rooms (st : State) (slot : string) (names : list string)
    : option (list string) :=
  match names with
  | [] => Some []
  | r :: names' =>
      oroom <- occ_rooms st !! slot;;
      rest <- free_rooms st slot names';;
      Some (if bool_decide (r ∈ oroom) then rest else r :: rest)
  end.

(** Lines 178-193: the value of [target] when the slot has been
    examined. *)
Definition choose_room (st : State) (task : Task) (stud_count : Z)
    (slot : string) : option (option string) :=
  target <- preferred_target st task stud_count slot;;
  if truthy target then Some target
  else
    free <- free_rooms st slot room_names;;
    Some (match find (fits stud_count) (sorted_asc room_cap free) with
          | Some r => Some r
          | None => target
          end).

(** [for g in t_groups: occ_groups[slot].add(g)] *)
Fixpoint add_groups (og : gmap string (gset string)) (slot : string)
    (gs : list string) : option (gmap string (gset string)) :=
  match gs with
  | [] => Some og
  | g :: gs' =>
      s <- og !! slot;;
      add_groups (<[slot := {[g]} ∪ s]> og) slot gs'
  end.

(** Lines 196-209: emit the entry and block the resources. *)
Definition commit (st : State) (task : Task) (slot target : string)
    : option State :=
  info <- slot_map !! slot;;
  ot <- occ_teachers st !! slot;;
  oroom <- occ_rooms st !! slot;;
  og' <- add_groups (occ_groups st) slot (t_groups task);;
  daily <- teacher_daily st !! t_teacher task;;
  used <- daily !! day info;;
  Some {| schedule := schedule st ++
            [{| e_slot := slot; e_day := day info;
                e_teacher := t_teacher task; e_groups := t_groups task;
                e_subject := t_subject task; e_room := target;
                e_type := t_type task |}];
          errors := errors st;
          occ_teachers := <[slot := {[t_teacher task]} ∪ ot]> (occ_teachers st);
          occ_groups := og';
          occ_rooms := <[slot := {[target]} ∪ oroom]> (occ_rooms st);
          teacher_daily :=
            <[t_teacher task :=
                <[day info := {[time_idx info]} ∪ used]> daily]>
              (teacher_daily st) |}.

(** The loop [for slot in avail] (lines 177-213); [reason] is the
    current value of the variable [reason]. *)
Fixpoint try_slots (st : State) (task : Task) (stud_count : Z)
    (avail : list string) (reason : string) : option Placement :=
  match avail with
  | [] => Some (Unplaced reason)
  | slot :: avail' =>
      target <- choose_room st task stud_count slot;;
      if truthy target then
        Placed <$> commit st task slot (default "" target)
      else try_slots st task stud_count avail' reason_no_room
  end.

(** [f"{subject} ({type}) для {t_name}. Причина: {reason}"] *)
Definition error_message (task : Task) (reason : string) : string :=
  t_subject task +:+ " (" +:+ t_type task +:+ ") для "
    +:+ t_teacher task +:+ ". Причина: " +:+ reason.

(** The body of [for task in tasks] (lines 148-216). *)
Definition candidates (st : State) (task : Task) : option (list string) :=
  avail <- filter_avail st task slots;;
  sort_with_keys Z.geb (score st (t_teacher task)) avail.

Definition process_task (st : State) (task : Task) : option State :=
  let stud_count := total_size group_sizes (t_groups task) in
  avail <- candidates st task;;
  res <- try_slots st task stud_count avail reason_no_time;;
  Some (match res with
        | Placed st' => st'
        | Unplaced reason =>
            {| schedule := schedule st;
               errors := errors st ++ [error_message task reason];
               occ_teachers := occ_teachers st;
               occ_groups := occ_groups st;
               occ_rooms := occ_rooms st;
               teacher_daily := teacher_daily st |}
        end).

Fixpoint run_tasks (st : State) (ts : list Task) : option State :=
  match ts with
  | [] => Some st
  | task :: ts' => st' <- process_task st task;; run_tasks st' ts'
  end.

(** ** 5. Result *)

Definition error_response : Response :=
  {| status := "error";
     message := Some "Не заданы дни или время звонков!";
     resp_schedule := [];
     resp_errors := [] |}.

Definition generate_schedule : option Response :=
  match slots with
  | [] => Some error_response
  | _ :: _ =>
      st <- run_tasks init_state tasks;;
      sched <- sort_with_keys Z.leb (λ x, index_of (e_slot x) slots)
                 (schedule st);;
      Some {| status := "success"; message := None;
              resp_schedule := sched; resp_errors := errors st |}
  end.
End solver.

(** ** Reference algorithm of the task expander *)

(** The reference algorithm of the specification, for comparison with
    [pack_streams] and [expand_tasks]: a first-fit walk over the groups
    sorted by descending size. [cur] is the running stream and [total] its
    cumulative size. *)
Fixpoint reference_first_fit (gsz : gmap string Z) (mc : Z)
    (cur : list string) (total : Z) (gs : list string)
    : list (list string) :=
  match gs with
  | [] => match cur with [] => [] | _ :: _ => [cur] end
  | g :: gs' =>
      if bool_decide (group_size gsz g > mc) then
        [g] :: reference_first_fit gsz mc cur total gs'
      else if bool_decide (total + group_size gsz g ≤ mc) then
        reference_first_fit gsz mc (cur ++ [g]) (total + group_size gsz g) gs'
      else
        cur :: reference_first_fit gsz mc [g] (group_size gsz g) gs'
  end.

Definition reference_streams (gsz : gmap string Z) (mc : Z)
    (gs : list string) : list (list string) :=
  reference_first_fit gsz mc [] 0 (sorted_desc (group_size gsz) gs).

(** The tasks of one assignment; an assignment that is not a seminar is a
    lecture (the type ranges over the two). *)
Definition reference_tasks (gsz : gmap string Z) (mc : Z)
    (a : Assignment) : list Task :=
  if bool_decide (a_type a = "seminar") then
    g ← a_groups a;
    replicate (Z.to_nat (a_count a))
      {| t_teacher := a_teacher a; t_groups := [g];
         t_subject := a_subject a; t_type := "seminar" |}
  else
    s ← reference_streams gsz mc (a_groups a);
    replicate (Z.to_nat (a_count a))
      {| t_teacher := a_teacher a; t_groups := s;
         t_subject := a_subject a; t_type := "lecture" |}.

Definition reference_expansion (gsz : gmap string Z) (mc : Z)
    (assigns : list Assignment) : list Task :=
  a ← assigns; reference_tasks gsz mc a.

(** ** Sample requests *)

Definition group_G5 : GroupItem := {| g_name := "G"; g_size := 5 |}.
Definition group_H5 : GroupItem := {| g_name := "H"; g_size := 5 |}.
Definition group_H7 : GroupItem := {| g_name := "H"; g_size := 7 |}.
Definition room_R10 : RoomItem := {| r_name := "R"; r_capacity := 10 |}.
Definition room_Q6 : RoomItem := {| r_name := "Q"; r_capacity := 6 |}.

(** One lecture for two groups of five students, and no room at all. *)
Definition no_rooms_data : SessionData :=
  {| teachers := ["T"]; subjects := ["S"];
     groups := [group_G5; group_H5];
     rooms := [];
     assignments :=
       [{| a_teacher := "T"; a_groups := ["G"; "H"]; a_subject := "S";
           a_count := 1; a_type := "lecture" |}];
     teacher_prefs := ∅; teacher_busy := ∅;
     days := ["Mon"]; times := ["9"] |}.

(** Two teachers, two groups, two rooms, a lecture course and a seminar
    course with two sessions each, on a grid of two days by three times. *)
Definition week_data : SessionData :=
  {| teachers := ["T"; "U"]; subjects := ["S"; "L"];
     groups := [group_G5; group_H7];
     rooms := [room_R10; room_Q6];
     assignments :=
       [{| a_teacher := "T"; a_groups := ["G"; "H"]; a_subject := "S";
           a_count := 2; a_type := "seminar" |};
        {| a_teacher := "U"; a_groups := ["G"; "H"]; a_subject := "L";
           a_count := 2; a_type := "lecture" |}];
     teacher_prefs := ∅; teacher_busy := ∅;
     days := ["Mon"; "Tue"]; times := ["9"; "10"; "11"] |}.

(** A seminar whose teacher is missing from [teachers]. *)
Definition absent_teacher_data : SessionData :=
  {| teachers := []; subjects := ["S"];
     groups := [group_G5];
     rooms := [room_R10];
     assignments :=
       [{| a_teacher := "T"; a_groups := ["G"]; a_subject := "S";
           a_count := 1; a_type := "seminar" |}];
     teacher_prefs := ∅; teacher_busy := ∅;
     days := ["Mon"]; times := ["9"] |}.

(** The same request, with the only slot in the teacher's busy list. *)
Definition absent_busy_teacher_data : SessionData :=
  {| teachers := []; subjects := ["S"];
     groups := [group_G5];
     rooms := [room_R10];
     assignments :=
       [{| a_teacher := "T"; a_groups := ["G"]; a_subject := "S";
           a_count := 1; a_type := "seminar" |}];
     teacher_prefs := ∅; teacher_busy := {[ "T" := ["Mon 9"] ]};
     days := ["Mon"]; times := ["9"] |}.

(** A seminar for five students; the smallest sufficient room has the
    empty string as its name. *)
Definition unnamed_room_data : SessionData :=
  {| teachers := ["T"]; subjects := ["S"];
     groups := [group_G5];
     rooms := [{| r_name := ""; r_capacity := 5 |}; room_R10];
     assignments :=
       [{| a_teacher := "T"; a_groups := ["G"]; a_subject := "S";
           a_count := 1; a_type := "seminar" |}];
     teacher_prefs := ∅; teacher_busy := ∅;
     days := ["Mon"]; times := ["9"] |}.

Definition seminar_T_G : Task :=
  {| t_teacher := "T"; t_groups := ["G"]; t_subject := "S";
     t_type := "seminar" |}.

(** Scenario A of the specification: no day configured. *)
Definition empty_grid_data : SessionData :=
  {| teachers := []; subjects := []; groups := []; rooms := [];
     assignments := []; teacher_prefs := ∅; teacher_busy := ∅;
     days := []; times := ["9:00"] |}.

Definition lecture_U_H : Task :=
  {| t_teacher := "U"; t_groups := ["H"]; t_subject := "L";
     t_type := "lecture" |}.

(** The state of the [week_data] request once its first task, the lecture
    of teacher U for group H, has been placed (Monday, first time). *)
Definition week_state1 : State :=
  default (init_state week_data)
    (process_task week_data (init_state week_data) lecture_U_H).

(** Scenarios B, C and D of the specification. *)
Definition scenario_B : SessionData :=
  {| teachers := ["T"]; subjects := ["S"];
     groups := [{| g_name := "G"; g_size := 10 |}];
     rooms := [{| r_name := "R"; r_capacity := 5 |}];
     assignments :=
       [{| a_teacher := "T"; a_groups := ["G"]; a_subject := "S";
           a_count := 1; a_type := "lecture" |}];
     teacher_prefs := ∅; teacher_busy := ∅;
     days := ["Mon"]; times := ["9"] |}.

Definition scenario_C : SessionData :=
  {| teachers := ["T"]; subjects := ["S"];
     groups := [group_G5; group_H5];
     rooms := [room_R10];
     assignments :=
       [{| a_teacher := "T"; a_groups := ["G"; "H"]; a_subject := "S";
           a_count := 1; a_type := "lecture" |}];
     teacher_prefs := ∅; teacher_busy := ∅;
     days := ["Mon"]; times := ["9"] |}.

Definition scenario_D : SessionData :=
  {| teachers := ["T"]; subjects := ["S"];
     groups := [group_G5];
     rooms := [room_R10];
     assignments :=
       [{| a_teacher := "T"; a_groups := ["G"]; a_subject := "S";
           a_count := 1; a_type := "seminar" |}];
     teacher_prefs := ∅; teacher_busy := {[ "T" := ["Mon 9"] ]};
     days := ["Mon"]; times := ["9"] |}.

(** The two entries that the [week_data] request puts in its first slot. *)
Definition week_entry0 : Entry :=
  {| e_slot := "Mon 9"; e_day := "Mon"; e_teacher := "U";
     e_groups := ["H"]; e_subject := "L"; e_room := "R";
     e_type := "lecture" |}.
Definition week_entry1 : Entry :=
  {| e_slot := "Mon 9"; e_day := "Mon"; e_teacher := "T";
     e_groups := ["G"]; e_subject := "S"; e_room := "Q";
     e_type := "seminar" |}.

(** The response to the [week_data] request. *)
Definition week_response : Response :=
  Eval vm_compute in default error_response (generate_schedule week_data).

(** A seminar of a teacher who is busy in the first slot and prefers a
    room, "Lab", that is not among the configured rooms. *)
Definition busy_pref_data : SessionData :=
  {| teachers := ["T"]; subjects := ["S"];
     groups := [group_G5];
     rooms := [room_R10];
     assignments :=
       [{| a_teacher := "T"; a_groups := ["G"]; a_subject := "S";
           a_count := 1; a_type := "seminar" |}];
     teacher_prefs := {[ "T" := "Lab" ]};
     teacher_busy := {[ "T" := ["Mon 9"] ]};
     days := ["Mon"]; times := ["9"; "10"] |}.

Definition busy_pref_entry : Entry :=
  {| e_slot := "Mon 10"; e_day := "Mon"; e_teacher := "T";
     e_groups := ["G"]; e_subject := "S"; e_room := "Lab";
     e_type := "seminar" |}.

Definition busy_pref_response : Response :=
  {| status := "success"; message := None;
     resp_schedule := [busy_pref_entry]; resp_errors := [] |}.

(** A lecture for one group of five students between two groups without
    students, and no room. *)
Definition zero_size_data : SessionData :=
  {| teachers := ["T"]; subjects := ["S"];
     groups := [{| g_name := "Z"; g_size := 0 |}; group_G5;
                {| g_name := "Y"; g_size := 0 |}];
     rooms := [];
     assignments :=
       [{| a_teacher := "T"; a_groups := ["Z"; "G"; "Y"]; a_subject := "S";
           a_count := 1; a_type := "lecture" |}];
     teacher_prefs := ∅; teacher_busy := ∅;
     days := ["Mon"]; times := ["9"] |}.

(** Three groups of sizes 3, 4 and 4 in one lecture, with the bound 7. *)
Definition sizes_344 : gmap string Z :=
  dict_of [("A", 3); ("B", 4); ("C", 4)].

(** A lecture and a seminar that compete for the only room; one slot. *)
Definition one_room_data : SessionData :=
  {| teachers := ["T"; "U"]; subjects := ["S"; "L"];
     groups := [group_G5; group_H5];
     rooms := [room_R10];
     assignments :=
       [{| a_teacher := "T"; a_groups := ["H"]; a_subject := "S";
           a_count := 1; a_type := "seminar" |};
        {| a_teacher := "U"; a_groups := ["G"]; a_subject := "L";
           a_count := 1; a_type := "lecture" |}];
     teacher_prefs := ∅; teacher_busy := ∅;
     days := ["Mon"]; times := ["1"] |}.

Definition lecture_U_G : Task :=
  {| t_teacher := "U"; t_groups := ["G"]; t_subject := "L";
     t_type := "lecture" |}.
Definition seminar_T_H : Task :=
  {| t_teacher := "T"; t_groups := ["H"]; t_subject := "S";
     t_type := "seminar" |}.

Definition one_room_state1 : State :=
  Eval vm_compute in
    default (init_state one_room_data)
      (process_task one_room_data (init_state one_room_data) lecture_U_G).

Definition one_room_state2 : State :=
  Eval vm_compute in
    default one_room_state1
      (process_task one_room_data one_room_state1 seminar_T_H).

Definition one_room_response : Response :=
  Eval vm_compute in
    default error_response (generate_schedule one_room_data).

(** The same request on a grid of two slots. *)
Definition two_slots_data : SessionData :=
  {| teachers := ["T"; "U"]; subjects := ["S"; "L"];
     groups := [group_G5; group_H5];
     rooms := [room_R10];
     assignments :=
       [{| a_teacher := "T"; a_groups := ["H"]; a_subject := "S";
           a_count := 1; a_type := "seminar" |};
        {| a_teacher := "U"; a_groups := ["G"]; a_subject := "L";
           a_count := 1; a_type := "lecture" |}];
     teacher_prefs := ∅; teacher_busy := ∅;
     days := ["Mon"]; times := ["1"; "2"] |}.

Definition two_slots_state1 : State :=
  Eval vm_compute in
    default (init_state two_slots_data)
      (process_task two_slots_data (init_state two_slots_data) lecture_U_G).

Definition two_slots_state2 : State :=
  Eval vm_compute in
    default two_slots_state1
      (process_task two_slots_data two_slots_state1 seminar_T_H).

Definition two_slots_entry1 : Entry :=
  {| e_slot := "Mon 2"; e_day := "Mon"; e_teacher := "T";
     e_groups := ["H"]; e_subject := "S"; e_room := "R";
     e_type := "seminar" |}.

(** ** Invariants of the placement loop *)

(** Two entries of the same slot share no teacher, no group and no
    room. *)
Definition no_conflict (e1 e2 : Entry) : Prop :=
  e_slot e1 = e_slot e2 →
  e_teacher e1 ≠ e_teacher e2
  ∧ (∀ g, g ∈ e_groups e1 → g ∉ e_groups e2)
  ∧ e_room e1 ≠ e_room e2.

(** [R] relates the elements at any two distinct positions of [l]. *)
Definition pairwise {A} (R : A → A → Prop) (l : list A) : Prop :=
  ∀ i j x y, i ≠ j → l !! i = Some x → l !! j = Some y → R x y.

(** The resources of entry [e] are marked occupied in its slot. *)
Definition booked (st : State) (e : Entry) : Prop :=
  (∃ ot, occ_teachers st !! e_slot e = Some ot ∧ e_teacher e ∈ ot)
  ∧ (∀ g, g ∈ e_groups e →
       ∃ og, occ_groups st !! e_slot e = Some og ∧ g ∈ og)
  ∧ (∃ oroom, occ_rooms st !! e_slot e = Some oroom ∧ e_room e ∈ oroom).

(** The entry sits in a slot of the grid, in a room that passed the
    capacity test [fits] for the entry's groups. *)
Definition sound_entry (data : SessionData) (e : Entry) : Prop :=
  e_slot e ∈ slots data
  ∧ fits data (total_size (group_sizes data) (e_groups e)) (e_room e) = true.

Definition schedule_inv (data : SessionData) (st : State) : Prop :=
  Forall (booked st) (schedule st)
  ∧ Forall (sound_entry data) (schedule st)
  ∧ pairwise no_conflict (schedule st).

(** The occupancy dictionaries have a key for every slot, and
    [teacher_daily] has exactly the listed teachers as keys, each with a
    key for every day. *)
Definition well_formed (data : SessionData) (st : State) : Prop :=
  (∀ s, s ∈ slots data →
     is_Some (occ_teachers st !! s) ∧ is_Some (occ_groups st !! s)
     ∧ is_Some (occ_rooms st !! s))
  ∧ (∀ t, t ∈ teachers data →
       ∃ daily, teacher_daily st !! t = Some daily
                ∧ ∀ d, d ∈ days data → is_Some (daily !! d))
  ∧ (∀ t, t ∉ teachers data → teacher_daily st !! t = None).

(** [d] is the least distance from [idx] to an index of [exist]. *)
Definition min_distance (idx : Z) (exist : gset Z) (d : Z) : Prop :=
  (∃ e, e ∈ exist ∧ Z.abs (idx - e) = d)
  ∧ ∀ e, e ∈ exist → d ≤ Z.abs (idx - e).

(** The score of a slot once its lookups are made (lines 157-161). *)
Definition score_value (idx : Z) (exist : gset Z) (v : Z) : Prop :=
  (exist = ∅ ∧ v = 10)
  ∨ (∃ d, min_distance idx exist d
          ∧ v = if d =? 1 then 100 else if d =? 2 then -50 else 0).

(** ** Further notions used in the properties *)

(** A stream respects the bound [mc], or it is a single group that is
    larger than [mc] by itself. *)
Definition stream_within (gsz : gmap string Z) (mc : Z) (s : list string)
    : Prop :=
  total_size gsz s ≤ mc ∨ ∃ g, s = [g] ∧ group_size gsz g > mc.

(** The task an entry was made from (lines 199-203 copy these fields). *)
Definition entry_task (e : Entry) : Task :=
  {| t_teacher := e_teacher e; t_groups := e_groups e;
     t_subject := e_subject e; t_type := e_type e |}.

(** [k] is the position of the first occurrence of [x] in [l]. *)
Definition first_position (x : string) (l : list string) (k : nat) : Prop :=
  l !! k = Some x ∧ ∀ j, (j < k)%nat → l !! j ≠ Some x.

(** Number of tasks that one assignment expands to. *)
Definition assignment_task_count (data : SessionData) (a : Assignment) : nat :=
  (Z.to_nat (a_count a) *
   if bool_decide (a_type a = "seminar") then length (a_groups a)
   else length (pack_streams (group_sizes data) (max_cap data) (a_groups a)))%nat.

(** In state [st] the examined slot has no room for the task: the value of
    [target] after lines 178-193 is false. *)
Definition no_room_in (data : SessionData) (st : State) (task : Task)
    (slot : string) : Prop :=
  ∃ target,
    choose_room data st task (total_size (group_sizes data) (t_groups task))
      slot = Some target
    ∧ truthy target = false.

(** What the fields of an entry are bound to by the code that makes it:
    a slot of the grid with its recorded day, a listed teacher who is not
    busy in that slot, a room with a non-empty name that is a configured
    room or, for a task that is not a lecture, the teacher's preferred
    room. *)
Definition entry_wf (data : SessionData) (e : Entry) : Prop :=
  e_slot e ∈ slots data
  ∧ e_teacher e ∈ teachers data
  ∧ (∃ info, slot_map data !! e_slot e = Some info ∧ e_day e = day info)
  ∧ teacher_is_busy data (e_teacher e) (e_slot e) = false
  ∧ e_room e ≠ ""
  ∧ (e_room e ∈ room_names data
     ∨ (e_type e ≠ "lecture"
        ∧ teacher_prefs data !! e_teacher e = Some (e_room e))).

(** [x] is in the set that the occupancy dictionary [m] holds for slot
    [s]. *)
Definition marked (m : gmap string (gset string)) (s x : string) : Prop :=
  ∃ o, m !! s = Some o ∧ x ∈ o.

(** The occupancy dictionaries say exactly what the schedule built so far
    says: a teacher, group or room is marked in a slot if and only if an
    entry of that slot has it, and a time index is marked for a teacher and
    a day if and only if an entry of that teacher sits in a slot recorded
    with that day and index. *)
Definition marks_exact (data : SessionData) (st : State) : Prop :=
  (∀ s x, marked (occ_teachers st) s x
          ↔ ∃ e, e ∈ schedule st ∧ e_slot e = s ∧ e_teacher e = x)
  ∧ (∀ s x, marked (occ_groups st) s x
            ↔ ∃ e, e ∈ schedule st ∧ e_slot e = s ∧ x ∈ e_groups e)
  ∧ (∀ s x, marked (occ_rooms st) s x
            ↔ ∃ e, e ∈ schedule st ∧ e_slot e = s ∧ e_room e = x)
  ∧ (∀ t d i,
       (∃ daily used, teacher_daily st !! t = Some daily
                      ∧ daily !! d = Some used ∧ i ∈ used)
       ↔ ∃ e info, e ∈ schedule st ∧ e_teacher e = t
                   ∧ slot_map data !! e_slot e = Some info
                   ∧ day info = d ∧ time_idx info = i).
(** * Properties *)

Example build_slots_ex :
  (build_slots ["Mon"; "Tue"] ["9"; "10"]).1
  = ["Mon 9"; "Mon 10"; "Tue 9"; "Tue 10"]
  ∧ (build_slots ["Mon"; "Tue"] ["9"; "10"]).2 !! "Tue 10"
    = Some {| day := "Tue"; time_idx := 1 |}.
Proof. split; vm_compute; reflexivity. Qed.

(** ** The exception monad *)

Lemma bind_Some {A B} (m : option A) (k : A → option B) (b : B) :
  bind m k = Some b ↔ ∃ a, m = Some a ∧ k a = Some b.
Proof.
  destruct m as [a|]; simpl.
  - split; [eauto | intros (a' & [= <-] & ?); done].
  - split; [done | intros (? & ? & ?); done].
Qed.

Lemma bind_None {A B} (m : option A) (k : A → option B) :
  bind m k = None ↔ m = None ∨ ∃ a, m = Some a ∧ k a = None.
Proof.
  destruct m as [a|]; simpl; [|naive_solver].
  split; [eauto | intros [? | (a' & [= <-] & ?)]; done].
Qed.

Lemma map_opt_Some {A B} (f : A → option B) (l : list A) (ys : list B) :
  map_opt f l = Some ys ↔ Forall2 (λ x y, f x = Some y) l ys.
Proof.
  revert ys. induction l as [|x l IH]; intros ys; simpl.
  - split; [intros [= <-]; constructor | by inversion 1].
  - rewrite bind_Some. split.
    + intros (y & Hy & H). apply bind_Some in H as (ys' & H & [= <-]).
      constructor; [done | by apply IH].
    + inversion 1 as [|? y ? ys' Hy Hys]; subst.
      exists y. split; [done|]. apply IH in Hys. by rewrite Hys.
Qed.

Lemma map_opt_total {A B} (f : A → option B) (l : list A) :
  Forall (λ x, is_Some (f x)) l → is_Some (map_opt f l).
Proof.
  induction 1 as [|x l [y Hy] _ [ys Hys]]; simpl; [by eexists|].
  rewrite Hy; simpl. rewrite Hys; simpl. by eexists.
Qed.

Lemma map_opt_None {A B} (f : A → option B) (l : list A) :
  map_opt f l = None ↔ ∃ x, x ∈ l ∧ f x = None.
Proof.
  induction l as [|x l IH]; simpl.
  - split; [done | intros (? & H & _); by apply elem_of_nil in H].
  - destruct (f x) as [y|] eqn:Hy; simpl.
    + destruct (map_opt f l) as [ys|]; simpl.
      * split; [done|]. intros (z & [->|Hz]%elem_of_cons & Hn); [congruence|].
        assert (Some ys = None :> option (list B)) by (apply IH; eauto). done.
      * split; [|done]. intros _.
        destruct IH as [IH _]. destruct (IH eq_refl) as (z & ? & ?).
        exists z. split; [by right | done].
    + split; [|done]. intros _. exists x. split; [by left | done].
Qed.

(** ** Stable sorting *)

Section stable_sort_facts.
Context {A K : Type} (before : K → K → bool) (key : A → K).

Lemma insert_by_perm x l : insert_by before key x l ≡ₚ x :: l.
Proof.
  induction l as [|y l IH]; simpl; [done|].
  destruct (before (key x) (key y)); [done|].
  rewrite IH. apply perm_swap.
Qed.

Lemma sort_by_perm l : sort_by before key l ≡ₚ l.
Proof.
  induction l as [|x l IH]; simpl; [done|].
  by rewrite insert_by_perm, IH.
Qed.

Lemma sort_by_length l : length (sort_by before key l) = length l.
Proof. by rewrite sort_by_perm. Qed.

Lemma sort_by_elem_of x l : x ∈ sort_by before key l ↔ x ∈ l.
Proof. by rewrite sort_by_perm. Qed.

Hypothesis before_total : ∀ a b, before a b = false → before b a = true.
Hypothesis before_trans :
  ∀ a b c, before a b = true → before b c = true → before a c = true.

Lemma before_refl a : before a a = true.
Proof.
  destruct (before a a) eqn:E; [done|].
  by rewrite (before_total _ _ E) in E.
Qed.

Lemma insert_by_sorted x l :
  StronglySorted (before_rel before key) l →
  StronglySorted (before_rel before key) (insert_by before key x l).
Proof.
  induction 1 as [|y l Hl IH Hy]; simpl.
  - repeat constructor.
  - destruct (before (key x) (key y)) eqn:E.
    + constructor; [by constructor|].
      constructor; [done|].
      eapply Forall_impl; [exact Hy|]. intros z Hz.
      unfold before_rel in *. eauto.
    + constructor; [done|].
      rewrite insert_by_perm. constructor; [|done].
      by apply before_total.
Qed.

Lemma sort_by_sorted l : StronglySorted (before_rel before key) (sort_by before key l).
Proof.
  induction l as [|x l IH]; simpl; [constructor|].
  by apply insert_by_sorted.
Qed.

(** Stability: the elements of any given key appear in the result in
    the order they had in the input. *)
Lemma insert_by_stable `{EqDecision K} k x l :
  filter (λ y, key y = k) (insert_by before key x l)
  = filter (λ y, key y = k) (x :: l).
Proof.
  induction l as [|y l IH]; simpl; [done|].
  destruct (before (key x) (key y)) eqn:E; [done|].
  rewrite !filter_cons in *.
  destruct (decide (key y = k)) as [Hy|Hy];
    destruct (decide (key x = k)) as [Hx|Hx]; try congruence.
  - rewrite Hx, Hy, before_refl in E. done.
Qed.

Lemma sort_by_stable `{EqDecision K} k l :
  filter (λ y, key y = k) (sort_by before key l)
  = filter (λ y, key y = k) l.
Proof.
  induction l as [|x l IH]; simpl; [done|].
  rewrite insert_by_stable, !filter_cons, IH. done.
Qed.
End stable_sort_facts.

(** ** The bound of the stream packer *)

Lemma foldl_max_spec (a : Z) (l : list Z) :
  let m := foldl Z.max a l in
  (m = a ∨ m ∈ l) ∧ a ≤ m ∧ ∀ x, x ∈ l → x ≤ m.
Proof.
  revert a. induction l as [|y l IH]; intros a; simpl.
  - split_and!; [by left | lia | by intros x ?%elem_of_nil].
  - destruct (IH (Z.max a y)) as (Hm & Hle & Hall). split_and!.
    + destruct Hm as [Hm|Hm]; [|right; by right].
      rewrite Hm.
      destruct (Z.max_spec a y) as [[_ E]|[_ E]]; rewrite E;
        [right; by left | by left].
    + lia.
    + intros x [->|Hx]%elem_of_cons; [lia | by apply Hall].
Qed.

Lemma fold_pack_oversize gsz mc gs p :
  Forall (λ g, group_size gsz g > mc) gs →
  fold_left (pack_step gsz mc) gs p
  = {| current_stream := current_stream p;
       current_size := current_size p;
       streams := streams p ++ ((λ g, [g]) <$> gs) |}.
Proof.
  intros H. revert p. induction H as [|g gs Hg _ IH]; intros p; simpl.
  - rewrite app_nil_r. by destruct p.
  - rewrite IH. unfold pack_step. rewrite bool_decide_true by done. simpl.
    by rewrite <- app_assoc.
Qed.

(** ** Task expansion against the reference algorithm *)

Lemma append_times_replicate {A} (count : Z) (x : A) (l : list A) :
  append_times count x l = l ++ replicate (Z.to_nat count) x.
Proof.
  unfold append_times. induction (Z.to_nat count) as [|n IH]; simpl.
  - by rewrite app_nil_r.
  - rewrite IH, <- app_assoc. f_equal.
    change (x :: replicate n x) with (replicate (S n) x).
    by rewrite replicate_S_end.
Qed.

Lemma fold_append_times {A B} (count : Z) (mk : B → A) (xs : list B)
    (l : list A) :
  fold_left (λ tasks x, append_times count (mk x) tasks) xs l
  = l ++ (x ← xs; replicate (Z.to_nat count) (mk x)).
Proof.
  revert l. induction xs as [|x xs IH]; intros l; simpl.
  - by rewrite app_nil_r.
  - rewrite IH, append_times_replicate, <- app_assoc. done.
Qed.

Lemma fold_pack_reference gsz mc gs p :
  (current_stream p = [] → current_size p = 0) →
  close_stream (fold_left (pack_step gsz mc) gs p)
  = streams p ++
    reference_first_fit gsz mc (current_stream p) (current_size p) gs.
Proof.
  revert p. induction gs as [|g gs IH]; intros p Hp; simpl.
  - unfold close_stream. destruct (current_stream p); [by rewrite app_nil_r|done].
  - unfold pack_step at 2.
    destruct (bool_decide (group_size gsz g > mc)) eqn:E1.
    + rewrite IH by done. simpl. by rewrite <- app_assoc.
    + destruct (bool_decide (current_size p + group_size gsz g ≤ mc)) eqn:E2.
      * rewrite IH; simpl; [done|]. by intros [_ ?]%app_eq_nil.
      * rewrite IH by done. simpl.
        apply bool_decide_eq_false in E1, E2.
        unfold close_stream.
        destruct (current_stream p) eqn:Ec; [|by rewrite <- app_assoc].
        rewrite Hp in E2 by done. lia.
Qed.

Lemma pack_streams_reference gsz mc gs :
  pack_streams gsz mc gs = reference_streams gsz mc gs.
Proof. unfold pack_streams. by rewrite fold_pack_reference. Qed.

Lemma expand_assignment_reference gsz mc ts a :
  expand_assignment gsz mc ts a = ts ++ reference_tasks gsz mc a.
Proof.
  unfold expand_assignment, reference_tasks.
  destruct (bool_decide (a_type a = "seminar")).
  - by rewrite (fold_append_times _ (λ g, Build_Task _ [g] _ _)).
  - rewrite (fold_append_times _ (λ s, Build_Task _ s _ _)).
    by rewrite pack_streams_reference.
Qed.

(** ** Task priority *)

Lemma key_ge_total k1 k2 : key_ge k1 k2 = false → key_ge k2 k1 = true.
Proof.
  destruct k1 as [[b1 n1] s1], k2 as [[b2 n2] s2]. unfold key_ge.
  destruct b1, b2; simpl;
    repeat (match goal with
            | |- context [?a =? ?b] => destruct (Z.eqb_spec a b)
            end); lia.
Qed.

Lemma key_ge_trans k1 k2 k3 :
  key_ge k1 k2 = true → key_ge k2 k3 = true → key_ge k1 k3 = true.
Proof.
  destruct k1 as [[b1 n1] s1], k2 as [[b2 n2] s2], k3 as [[b3 n3] s3].
  unfold key_ge.
  destruct b1, b2, b3; simpl; try done;
    repeat (match goal with
            | |- context [?a =? ?b] => destruct (Z.eqb_spec a b)
            end); lia.
Qed.

Lemma Zgeb_total (a b : Z) : (a >=? b) = false → (b >=? a) = true.
Proof. lia. Qed.
Lemma Zgeb_trans (a b c : Z) :
  (a >=? b) = true → (b >=? c) = true → (a >=? c) = true.
Proof. lia. Qed.
Lemma Zleb_total (a b : Z) : (a <=? b) = false → (b <=? a) = true.
Proof. lia. Qed.
Lemma Zleb_trans (a b c : Z) :
  (a <=? b) = true → (b <=? c) = true → (a <=? c) = true.
Proof. lia. Qed.

(** ** The scenarios of the specification, run on the model *)

Example scenario_A_result :
  generate_schedule empty_grid_data = Some error_response.
Proof. by vm_compute. Qed.

Example scenario_B_result :
  generate_schedule scenario_B
  = Some {| status := "success"; message := None; resp_schedule := [];
            resp_errors :=
              ["S (lecture) для T. Причина: Нет свободных кабинетов нужной вместимости"] |}.
Proof. by vm_compute. Qed.

Example scenario_C_result :
  generate_schedule scenario_C
  = Some {| status := "success"; message := None;
            resp_schedule :=
              [{| e_slot := "Mon 9"; e_day := "Mon"; e_teacher := "T";
                  e_groups := ["G"; "H"]; e_subject := "S"; e_room := "R";
                  e_type := "lecture" |}];
            resp_errors := [] |}
  ∧ e_group {| e_slot := "Mon 9"; e_day := "Mon"; e_teacher := "T";
               e_groups := ["G"; "H"]; e_subject := "S"; e_room := "R";
               e_type := "lecture" |} = "G, H".
Proof. split; by vm_compute. Qed.

Example scenario_D_result :
  generate_schedule scenario_D
  = Some {| status := "success"; message := None; resp_schedule := [];
            resp_errors :=
              ["S (seminar) для T. Причина: Нет общего свободного времени"] |}.
Proof. by vm_compute. Qed.

Example week_result :
  (λ e, (e_slot e, e_teacher e, e_groups e, e_room e))
    <$> default [] (resp_schedule <$> generate_schedule week_data)
  = [("Mon 9", "U", ["H"], "R"); ("Mon 9", "T", ["G"], "Q");
     ("Mon 10", "U", ["H"], "R"); ("Mon 10", "T", ["G"], "Q");
     ("Mon 11", "U", ["G"], "Q"); ("Mon 11", "T", ["H"], "R");
     ("Tue 9", "U", ["G"], "Q"); ("Tue 9", "T", ["H"], "R")].
Proof. by vm_compute. Qed.

Example week_scores :
  score week_data week_state1 "U" <$> slots week_data
  = [Some 0; Some 100; Some (-50); Some 10; Some 10; Some 10]
  ∧ candidates week_data week_state1 lecture_U_H
    = Some ["Mon 10"; "Tue 9"; "Tue 10"; "Tue 11"; "Mon 11"].
Proof. split; by vm_compute. Qed.

(** ** A stable sort is determined by its specification *)

Lemma filter_all_nil {A K} `{EqDecision K} (key : A → K) (l : list A) :
  (∀ k, filter (λ x, key x = k) l = []) → l = [].
Proof.
  destruct l as [|y l]; [done|]. intros H. specialize (H (key y)).
  by rewrite filter_cons_True in H.
Qed.

(** Two lists that are sorted by the same antisymmetric order on keys and
    hold, for every key, the same elements of that key in the same order,
    are equal. *)
Lemma sorted_stable_unique {A K} `{EqDecision K} (before : K → K → bool)
    (key : A → K) (l1 l2 : list A) :
  (∀ a b, before a b = true → before b a = true → a = b) →
  StronglySorted (before_rel before key) l1 →
  StronglySorted (before_rel before key) l2 →
  (∀ k, filter (λ x, key x = k) l1 = filter (λ x, key x = k) l2) →
  l1 = l2.
Proof.
  intros Hanti Hs1. revert l2.
  induction Hs1 as [|x l1 Hs1 IH Hx]; intros l2 Hs2 Hf.
  - symmetry. apply (filter_all_nil key). intros k. by rewrite <- Hf.
  - destruct Hs2 as [|y l2 Hs2 Hy].
    { exfalso. specialize (Hf (key x)).
      by rewrite filter_cons_True in Hf. }
    rewrite Forall_forall in Hx, Hy.
    assert (key x = key y) as Hk.
    { destruct (decide (key x = key y)) as [|Hne]; [done|].
      pose proof (Hf (key x)) as Hfx. pose proof (Hf (key y)) as Hfy.
      rewrite filter_cons_True, (filter_cons_False _ y) in Hfx by done.
      rewrite (filter_cons_False _ x), filter_cons_True in Hfy by done.
      assert (x ∈ l2) as Hx2.
      { eapply (proj2 (proj1 (list_elem_of_filter (λ z, key z = key x) l2 x)
                        ltac:(rewrite <- Hfx; left))). }
      assert (y ∈ l1) as Hy1.
      { eapply (proj2 (proj1 (list_elem_of_filter (λ z, key z = key y) l1 y)
                        ltac:(rewrite Hfy; left))). }
      apply Hanti; [by apply Hx | by apply Hy]. }
    pose proof (Hf (key x)) as Hfx.
    rewrite filter_cons_True, filter_cons_True in Hfx by done.
    injection Hfx as -> Hfx. f_equal. apply IH; [done|].
    intros k. specialize (Hf k). rewrite !filter_cons in Hf.
    destruct (decide (key y = k)); [by injection Hf | done].
Qed.

Lemma Zgeb_antisym (a b : Z) : (a >=? b) = true → (b >=? a) = true → a = b.
Proof. lia. Qed.

Lemma Zleb_antisym (a b : Z) : (a <=? b) = true → (b <=? a) = true → a = b.
Proof. lia. Qed.

(** [sorted(l, key=key, reverse=True)] is the only list that is sorted by
    descending key and keeps, for every key, the elements of that key in
    their order in [l]. *)
Lemma sorted_desc_unique {A} (key : A → Z) (l walked : list A) :
  StronglySorted (λ a b, key b ≤ key a) walked →
  (∀ k, filter (λ x, key x = k) walked = filter (λ x, key x = k) l) →
  walked = sorted_desc key l.
Proof.
  intros Hs Hf.
  apply (sorted_stable_unique Z.geb key); [apply Zgeb_antisym | | |].
  - clear Hf. induction Hs as [|x w _ IH Hx]; constructor; [done|].
    eapply Forall_impl; [exact Hx|]. unfold before_rel. intros y Hy. lia.
  - apply sort_by_sorted; [apply Zgeb_total | apply Zgeb_trans].
  - intros k. rewrite Hf. symmetry. apply sort_by_stable, Zgeb_total.
Qed.

Lemma sorted_desc_spec {A} (key : A → Z) (l : list A) :
  sorted_desc key l ≡ₚ l
  ∧ StronglySorted (λ a b, key b ≤ key a) (sorted_desc key l)
  ∧ ∀ k, filter (λ x, key x = k) (sorted_desc key l)
         = filter (λ x, key x = k) l.
Proof.
  split_and!.
  - apply sort_by_perm.
  - pose proof (sort_by_sorted Z.geb key Zgeb_total Zgeb_trans l) as Hs.
    unfold sorted_desc.
    induction Hs as [|x w _ IH Hx]; constructor; [done|].
    eapply Forall_impl; [exact Hx|]. unfold before_rel. intros y Hy. lia.
  - intros k. apply sort_by_stable, Zgeb_total.
Qed.

(** ** Expansion and priority of the tasks *)

Lemma fold_expand_reference gsz mc assigns ts :
  fold_left (expand_assignment gsz mc) assigns ts
  = ts ++ reference_expansion gsz mc assigns.
Proof.
  revert ts. induction assigns as [|a assigns IH]; intros ts; simpl.
  - by rewrite app_nil_r.
  - rewrite IH, expand_assignment_reference, <- app_assoc. done.
Qed.

Lemma StronglySorted_lookup {A} (R : relation A) (l : list A) i j x y :
  StronglySorted R l → (i < j)%nat →
  l !! i = Some x → l !! j = Some y → R x y.
Proof.
  intros Hs. revert i j. induction Hs as [|z l Hs IH Hz]; intros i j Hij Hi Hj.
  - done.
  - destruct j as [|j]; [lia|]. simpl in Hj.
    destruct i as [|i]; simpl in Hi.
    + injection Hi as ->. rewrite Forall_forall in Hz.
      apply Hz. by eapply list_elem_of_lookup_2.
    + apply (IH i j); [lia|done..].
Qed.

Lemma StronglySorted_weaken {A} (R1 R2 : relation A) (l : list A) :
  (∀ x y, R1 x y → R2 x y) → StronglySorted R1 l → StronglySorted R2 l.
Proof.
  intros HR. induction 1 as [|x l _ IH Hx]; constructor; [done|].
  eapply Forall_impl; [exact Hx|]. intros y. apply HR.
Qed.

(** C4 (counterexample). With no room configured the bound of the packer
    is 0, not unbounded: the two lecture groups of five students are each
    forced into a singleton stream, whereas a bound that covers them (such
    as the sentinel 9999) merges them into one stream. *)
Lemma no_rooms_bound_is_zero :
  rooms no_rooms_data = []
  ∧ max_cap no_rooms_data = 0
  ∧ t_groups <$> tasks no_rooms_data = [["G"]; ["H"]]
  ∧ pack_streams (group_sizes no_rooms_data) (max_cap no_rooms_data) ["G"; "H"]
    ≠ pack_streams (group_sizes no_rooms_data) 9999 ["G"; "H"].
Proof. split_and!; [done | done | by vm_compute | by vm_compute]. Qed.

(** The packer under the bound 0: a group of positive size is closed as
    a singleton stream at once, and the other groups gather in the running
    stream, whose total never rises above 0. *)
Lemma fold_pack_zero gsz l p :
  current_size p ≤ 0 →
  close_stream (fold_left (pack_step gsz 0) l p)
  = (streams p ++ ((λ g, [g]) <$> filter (λ g, 0 < group_size gsz g) l))
    ++ match current_stream p ++ filter (λ g, group_size gsz g ≤ 0) l with
       | [] => []
       | _ :: _ =>
           [current_stream p ++ filter (λ g, group_size gsz g ≤ 0) l]
       end.
Proof.
  revert p. induction l as [|g l IH]; intros p Hp; simpl.
  - rewrite !app_nil_r. unfold close_stream.
    destruct (current_stream p); [by rewrite app_nil_r | done].
  - unfold pack_step at 2.
    destruct (decide (0 < group_size gsz g)) as [Hpos|Hnpos].
    + rewrite bool_decide_true by lia. rewrite IH by done. simpl.
      rewrite filter_cons_True by done.
      rewrite (filter_cons_False (λ g, group_size gsz g ≤ 0)) by lia.
      by rewrite fmap_cons, <- !app_assoc.
    + rewrite bool_decide_false by lia.
      rewrite bool_decide_true by lia. rewrite IH by (simpl; lia). simpl.
      rewrite filter_cons_False by done.
      rewrite (filter_cons_True (λ g, group_size gsz g ≤ 0)) by lia.
      by rewrite <- !app_assoc.
Qed.

Lemma pack_streams_zero gsz gs :
  let walked := sorted_desc (group_size gsz) gs in
  pack_streams gsz 0 gs
  = ((λ g, [g]) <$> filter (λ g, 0 < group_size gsz g) walked)
    ++ match filter (λ g, group_size gsz g ≤ 0) walked with
       | [] => []
       | _ :: _ => [filter (λ g, group_size gsz g ≤ 0) walked]
       end.
Proof. intros walked. unfold pack_streams. by rewrite fold_pack_zero. Qed.

Lemma pack_streams_zero_positive gsz gs g :
  g ∈ gs → 0 < group_size gsz g →
  [g] ∈ pack_streams gsz 0 gs
  ∧ ∀ s, s ∈ pack_streams gsz 0 gs → g ∈ s → s = [g].
Proof.
  intros Hg Hpos. rewrite pack_streams_zero.
  set (walked := sorted_desc (group_size gsz) gs).
  split.
  - apply elem_of_app. left. apply list_elem_of_fmap. exists g.
    split; [done|]. apply list_elem_of_filter. split; [done|].
    unfold walked, sorted_desc. by rewrite sort_by_elem_of.
  - intros s Hs Hin. apply elem_of_app in Hs as [Hs|Hs].
    + apply list_elem_of_fmap in Hs as (g' & -> & _).
      by apply list_elem_of_singleton in Hin as ->.
    + exfalso.
      destruct (filter (λ g, group_size gsz g ≤ 0) walked) eqn:E;
        [by apply elem_of_nil in Hs|].
      apply list_elem_of_singleton in Hs as ->. rewrite <- E in Hin.
      apply list_elem_of_filter in Hin as [Hin _]. lia.
Qed.

(** C4 (amended). The bound of the stream packer is the largest capacity
    among the configured rooms, replaced by the sentinel 9999 when that
    largest capacity is zero. When no room is configured the bound is 0:
    every lecture group of positive size then becomes its own singleton
    stream (and the groups without students share one stream). *)
Theorem max_cap_spec (data : SessionData) :
  (rooms data = [] →
   max_cap data = 0
   ∧ (∀ gs g,
        g ∈ gs → 0 < group_size (group_sizes data) g →
        [g] ∈ pack_streams (group_sizes data) (max_cap data) gs
        ∧ ∀ s, s ∈ pack_streams (group_sizes data) (max_cap data) gs →
               g ∈ s → s = [g])
   ∧ (∀ gs,
        let walked := sorted_desc (group_size (group_sizes data)) gs in
        pack_streams (group_sizes data) (max_cap data) gs
        = ((λ g, [g])
             <$> filter (λ g, 0 < group_size (group_sizes data) g) walked)
          ++ match filter (λ g, group_size (group_sizes data) g ≤ 0) walked
             with
             | [] => []
             | _ :: _ =>
                 [filter (λ g, group_size (group_sizes data) g ≤ 0) walked]
             end)
   ∧ ∀ gs, Forall (λ g, 0 < group_size (group_sizes data) g) gs →
       pack_streams (group_sizes data) (max_cap data) gs
       = (λ g, [g]) <$> sorted_desc (group_size (group_sizes data)) gs)
  ∧ (rooms data ≠ [] →
     ∃ m, (∃ r, r ∈ rooms data ∧ r_capacity r = m)
          ∧ (∀ r, r ∈ rooms data → r_capacity r ≤ m)
          ∧ max_cap data = if m =? 0 then 9999 else m).
Proof.
  unfold max_cap. split.
  - intros ->. simpl. split_and!; [done| | |].
    + intros gs g. apply pack_streams_zero_positive.
    + intros gs. apply pack_streams_zero.
    + intros gs Hgs.
      unfold pack_streams. rewrite fold_pack_oversize; [done|].
      unfold sorted_desc.
      eapply Forall_impl;
        [by rewrite (sort_by_perm Z.geb (group_size (group_sizes data)) gs)|].
      simpl. intros; lia.
  - destruct (rooms data) as [|r rs]; [done|]. intros _. simpl.
    pose proof (foldl_max_spec (r_capacity r) (r_capacity <$> rs)) as H.
    simpl in H. destruct H as (Hm & Hle & Hall).
    eexists. split_and!; [| |reflexivity].
    + destruct Hm as [Hm|Hm].
      * exists r. split; [by left | done].
      * apply list_elem_of_fmap in Hm as (r' & Hr' & Hin).
        exists r'. split; [by right | done].
    + intros r' [->|Hin]%elem_of_cons; [done|].
      apply Hall. by apply list_elem_of_fmap_2.
Qed.

Lemma max_cap_spec_witness :
  (max_cap zero_size_data = 0
   ∧ ["G"] ∈ pack_streams (group_sizes zero_size_data)
               (max_cap zero_size_data) ["Z"; "G"; "Y"])
  ∧ ∃ m, (∀ r, r ∈ rooms week_data → r_capacity r ≤ m)
         ∧ max_cap week_data = if m =? 0 then 9999 else m.
Proof.
  split.
  - destruct (max_cap_spec zero_size_data) as [H _].
    destruct H as (Hcap & Hgroup & _); [reflexivity|].
    split; [exact Hcap|].
    apply (Hgroup ["Z"; "G"; "Y"] "G"); [right; left | vm_compute; reflexivity].
  - destruct (max_cap_spec week_data) as [_ H].
    destruct H as (m & _ & Hle & Hm); [done|]. by exists m.
Defined.

(** C5. Task expansion is the reference algorithm: a seminar assignment
    gives [count] single-group tasks per group; a lecture assignment gives
    [count] tasks per stream of the first-fit walk over its groups sorted
    by descending size. The walked list is characterised on its own: it is
    a rearrangement of the assignment's groups in which sizes never
    increase and groups of equal size keep their order; the streams of the
    code are the first-fit streams of any list with these properties. *)
Theorem expand_tasks_reference (gsz : gmap string Z) (mc : Z)
    (assigns : list Assignment) :
  expand_tasks gsz mc assigns = reference_expansion gsz mc assigns
  ∧ (∀ gs walked,
       walked ≡ₚ gs →
       StronglySorted (λ a b, group_size gsz b ≤ group_size gsz a) walked →
       (∀ k, filter (λ g, group_size gsz g = k) walked
             = filter (λ g, group_size gsz g = k) gs) →
       pack_streams gsz mc gs = reference_first_fit gsz mc [] 0 walked
       ∧ reference_streams gsz mc gs
         = reference_first_fit gsz mc [] 0 walked)
  ∧ (∀ gs,
       let walked := sorted_desc (group_size gsz) gs in
       walked ≡ₚ gs
       ∧ StronglySorted (λ a b, group_size gsz b ≤ group_size gsz a) walked
       ∧ ∀ k, filter (λ g, group_size gsz g = k) walked
              = filter (λ g, group_size gsz g = k) gs).
Proof.
  split_and!.
  - unfold expand_tasks. by rewrite fold_expand_reference.
  - intros gs walked _ Hs Hf.
    rewrite pack_streams_reference. unfold reference_streams.
    by rewrite (sorted_desc_unique _ _ _ Hs Hf).
  - intros gs. apply sorted_desc_spec.
Qed.

Lemma expand_tasks_reference_witness :
  pack_streams sizes_344 7 ["A"; "B"; "C"] = [["B"]; ["C"; "A"]].
Proof.
  destruct (expand_tasks_reference sizes_344 7 []) as (_ & Hwalk & _).
  destruct (Hwalk ["A"; "B"; "C"] ["B"; "C"; "A"]) as [-> _].
  - change ["A"; "B"; "C"] with (["A"] ++ ["B"; "C"]).
    change ["B"; "C"; "A"] with (["B"; "C"] ++ ["A"]).
    apply Permutation_app_comm.
  - repeat constructor; vm_compute; discriminate.
  - intros k. rewrite !filter_cons, !filter_nil.
    change (group_size sizes_344 "A") with 3.
    change (group_size sizes_344 "B") with 4.
    change (group_size sizes_344 "C") with 4.
    destruct (decide (3 = k)), (decide (4 = k)); (reflexivity || lia).
  - vm_compute; reflexivity.
Defined.

(** C6. The task list handed to the placement loop is the expanded list
    sorted descending by the key (is-lecture, number of groups, total
    enrollment): it is a permutation of it; of two tasks the earlier one
    is a lecture and the later one is not, or both are of the same kind and
    the earlier one has more groups, or as many groups and at least as many
    students; every lecture task stands before every task that is not a
    lecture; and the tasks that agree on all three components keep their
    creation order. *)
Theorem prioritize_spec (data : SessionData) :
  let gsz := group_sizes data in
  let created := expand_tasks gsz (max_cap data) (assignments data) in
  tasks data ≡ₚ created
  ∧ StronglySorted
      (λ x y, key_ge (task_key gsz x) (task_key gsz y) = true) (tasks data)
  ∧ (∀ i j x y,
       tasks data !! i = Some x → tasks data !! j = Some y →
       t_type x = "lecture" → t_type y ≠ "lecture" → (i < j)%nat)
  ∧ (∀ k, filter (λ x, task_key gsz x = k) (tasks data)
          = filter (λ x, task_key gsz x = k) created)
  ∧ StronglySorted
      (λ x y,
         (t_type x = "lecture" ∧ t_type y ≠ "lecture")
         ∨ ((t_type x = "lecture" ↔ t_type y = "lecture")
            ∧ ((length (t_groups y) < length (t_groups x))%nat
               ∨ (length (t_groups x) = length (t_groups y)
                  ∧ total_size gsz (t_groups y)
                    ≤ total_size gsz (t_groups x)))))
      (tasks data)
  ∧ (∀ (lecture : bool) (n : nat) (enrolled : Z),
       filter (λ x, bool_decide (t_type x = "lecture") = lecture
                    ∧ length (t_groups x) = n
                    ∧ total_size gsz (t_groups x) = enrolled) (tasks data)
       = filter (λ x, bool_decide (t_type x = "lecture") = lecture
                      ∧ length (t_groups x) = n
                      ∧ total_size gsz (t_groups x) = enrolled) created).
Proof.
  intros gsz created. unfold tasks, prioritize. fold gsz created.
  pose proof (sort_by_sorted key_ge (task_key gsz) key_ge_total key_ge_trans
                created) as Hs.
  split_and!.
  - apply sort_by_perm.
  - exact Hs.
  - intros i j x y Hi Hj Hx Hy.
    destruct (decide (i < j)%nat) as [|Hge]; [done|]. exfalso.
    destruct (decide (i = j)) as [->|Hne]; [congruence|].
    assert (j < i)%nat as Hlt by lia.
    pose proof (StronglySorted_lookup _ _ _ _ _ _ Hs Hlt Hj Hi) as HR.
    unfold before_rel, task_key, key_ge in HR.
    rewrite (bool_decide_true _ Hx), (bool_decide_false _ Hy) in HR.
    simpl in HR. done.
  - intros k. apply sort_by_stable, key_ge_total.
  - eapply StronglySorted_weaken; [|exact Hs].
    unfold before_rel, task_key, key_ge. intros x y HR.
    destruct (decide (t_type x = "lecture")) as [Hx|Hx];
      destruct (decide (t_type y = "lecture")) as [Hy|Hy];
      rewrite ?(bool_decide_true _ Hx), ?(bool_decide_false _ Hx),
        ?(bool_decide_true _ Hy), ?(bool_decide_false _ Hy) in HR;
      simpl in HR; [right | by left | done | right];
      (split; [tauto|]);
      destruct (Z.eqb_spec (Z.of_nat (length (t_groups x)))
                  (Z.of_nat (length (t_groups y)))); lia.
  - intros lecture n enrolled.
    assert (∀ l : list Task,
              filter (λ x, bool_decide (t_type x = "lecture") = lecture
                           ∧ length (t_groups x) = n
                           ∧ total_size gsz (t_groups x) = enrolled) l
              = filter (λ x, task_key gsz x
                             = (lecture, Z.of_nat n, enrolled)) l) as Heq.
    { intros l. apply list_filter_iff. intros x. unfold task_key. split.
      - intros (<- & <- & <-). done.
      - intros [= <- Hn <-]. split_and!; [done | lia | done]. }
    rewrite !Heq. apply sort_by_stable, key_ge_total.
Qed.

Lemma prioritize_spec_witness :
  (3 < 4)%nat
  ∧ total_size (group_sizes week_data) ["G"]
    ≤ total_size (group_sizes week_data) ["H"].
Proof.
  destruct (prioritize_spec week_data) as (_ & _ & Hlecture & _ & Horder & _).
  split.
  - apply (Hlecture 3%nat 4%nat
             {| t_teacher := "U"; t_groups := ["G"]; t_subject := "L";
                t_type := "lecture" |}
             {| t_teacher := "T"; t_groups := ["H"]; t_subject := "S";
                t_type := "seminar" |});
      [vm_compute; reflexivity | vm_compute; reflexivity | reflexivity
      | discriminate].
  - pose proof (StronglySorted_lookup _ _ 1%nat 2%nat
                  {| t_teacher := "U"; t_groups := ["H"]; t_subject := "L";
                     t_type := "lecture" |}
                  {| t_teacher := "U"; t_groups := ["G"]; t_subject := "L";
                     t_type := "lecture" |}
                  Horder ltac:(lia) ltac:(vm_compute; reflexivity)
                  ltac:(vm_compute; reflexivity)) as H.
    simpl in H. destruct H as [[_ H]|[_ [H|[_ H]]]];
      [by destruct H | lia | exact H].
Defined.

(** ** Loops and comprehensions *)

Lemma fold_left_inv {A B} (P : A → Prop) (f : A → B → A) (l : list B) (a : A) :
  P a → (∀ a x, x ∈ l → P a → P (f a x)) → P (fold_left f l a).
Proof.
  revert a. induction l as [|x l IH]; intros a Ha Hf; simpl; [done|].
  apply IH.
  - apply Hf; [by left | done].
  - intros a' y Hy. apply Hf. by right.
Qed.

Lemma fold_insert_lookup {V} (f : string → V) (l : list string)
    (m : gmap string V) (k : string) :
  fold_left (λ m kv, <[kv.1 := kv.2]> m) ((λ s, (s, f s)) <$> l) m !! k
  = if decide (k ∈ l) then Some (f k) else m !! k.
Proof.
  revert m. induction l as [|s l IH]; intros m; simpl.
  - destruct (decide (k ∈ [])) as [H%elem_of_nil|]; done.
  - rewrite IH. destruct (decide (k ∈ l)) as [Hin|Hnin].
    + rewrite decide_True; [done | by right].
    + destruct (decide (s = k)) as [->|Hne].
      * rewrite lookup_insert_eq. rewrite decide_True; [done | by left].
      * rewrite lookup_insert_ne by done.
        rewrite decide_False; [done|]. by intros [?|?]%elem_of_cons.
Qed.

Lemma dict_of_lookup {V} (f : string → V) (l : list string) (k : string) :
  dict_of ((λ s, (s, f s)) <$> l) !! k
  = if decide (k ∈ l) then Some (f k) else None.
Proof. unfold dict_of. by rewrite fold_insert_lookup, lookup_empty. Qed.

(** ** The slot grid *)

Lemma enumerate_snd {A} (l : list A) : (enumerate l).*2 = l.
Proof.
  unfold enumerate. generalize Z.of_nat as f.
  induction l as [|x l IH]; intros f; simpl; [done|].
  f_equal. apply (IH (f ∘ S)).
Qed.

Lemma build_slots_inner_fst (d : string) (its : list (Z * string))
    (acc : list string * gmap string SlotInfo) :
  (fold_left (λ (acc : list string * gmap string SlotInfo) it,
     (acc.1 ++ [slot_name d it.2],
      <[slot_name d it.2 := {| day := d; time_idx := it.1 |}]> acc.2))
     its acc).1
  = acc.1 ++ (slot_name d <$> its.*2).
Proof.
  revert acc. induction its as [|it its IH]; intros acc; simpl.
  - by rewrite app_nil_r.
  - rewrite IH. simpl. by rewrite <- app_assoc.
Qed.

Lemma build_slots_fst (ds ts : list string) :
  (build_slots ds ts).1 = d ← ds; slot_name d <$> ts.
Proof.
  unfold build_slots.
  enough (∀ acc,
    (fold_left (λ acc d,
       fold_left (λ (acc : list string * gmap string SlotInfo) it,
         let s_name := slot_name d it.2 in
         (acc.1 ++ [s_name],
          <[s_name := {| day := d; time_idx := it.1 |}]> acc.2))
         (enumerate ts) acc) ds acc).1
    = acc.1 ++ (d ← ds; slot_name d <$> ts)) as H by apply (H ([], ∅)).
  induction ds as [|d ds IH]; intros acc; simpl.
  - by rewrite app_nil_r.
  - rewrite IH. simpl. rewrite build_slots_inner_fst, enumerate_snd.
    by rewrite <- app_assoc.
Qed.

Lemma slots_nil (data : SessionData) :
  slots data = [] ↔ days data = [] ∨ times data = [].
Proof.
  unfold slots. rewrite build_slots_fst.
  destruct (days data) as [|d ds]; simpl; [naive_solver|].
  destruct (times data) as [|t ts]; simpl.
  - split; [by right|]. intros _.
    induction ds as [|d' ds IH]; simpl; done.
  - split; [done | by intros [?|?]].
Qed.

(** Every slot of the grid has an entry in [slot_map], and the day it
    records is one of the configured days. *)
Lemma slot_map_lookup (data : SessionData) (s : string) :
  s ∈ slots data →
  ∃ info, slot_map data !! s = Some info ∧ day info ∈ days data.
Proof.
  unfold slots, slot_map, build_slots.
  set (P := λ acc : list string * gmap string SlotInfo,
         ∀ s, s ∈ acc.1 →
              ∃ info, acc.2 !! s = Some info ∧ day info ∈ days data).
  revert s. change (P (fold_left (λ acc d,
       fold_left (λ (acc : list string * gmap string SlotInfo) it,
         let s_name := slot_name d it.2 in
         (acc.1 ++ [s_name],
          <[s_name := {| day := d; time_idx := it.1 |}]> acc.2))
         (enumerate (times data)) acc) (days data) ([], ∅))).
  apply fold_left_inv.
  - intros s Hs. by apply elem_of_nil in Hs.
  - intros acc d Hd Hacc. apply fold_left_inv; [done|].
    intros acc' it _ Hacc' s Hs. simpl in *.
    destruct (decide (slot_name d it.2 = s)) as [<-|Hne].
    + rewrite lookup_insert_eq. eauto.
    + rewrite lookup_insert_ne by done. apply Hacc'.
      apply elem_of_app in Hs as [Hs|Hs]; [done|].
      apply list_elem_of_singleton in Hs. congruence.
Qed.

(** ** The candidate slots *)

Lemma any_group_occupied_false st slot gs :
  any_group_occupied st slot gs = Some false →
  ∀ g, g ∈ gs → ∃ og, occ_groups st !! slot = Some og ∧ g ∉ og.
Proof.
  induction gs as [|g gs IH]; simpl; intros H g' Hg'.
  - by apply elem_of_nil in Hg'.
  - apply bind_Some in H as (og & Hog & H).
    destruct (bool_decide (g ∈ og)) eqn:E; [done|].
    apply bool_decide_eq_false in E.
    apply elem_of_cons in Hg' as [->|Hg']; [eauto | by apply IH].
Qed.

Lemma slot_available_true data st task slot :
  slot_available data st task slot = Some true →
  (∃ ot, occ_teachers st !! slot = Some ot ∧ t_teacher task ∉ ot)
  ∧ (∀ g, g ∈ t_groups task →
       ∃ og, occ_groups st !! slot = Some og ∧ g ∉ og)
  ∧ teacher_is_busy data (t_teacher task) slot = false.
Proof.
  unfold slot_available. intros H.
  apply bind_Some in H as (ot & Hot & H).
  destruct (bool_decide (t_teacher task ∈ ot)) eqn:E; [done|].
  apply bool_decide_eq_false in E.
  apply bind_Some in H as (busy & Hbusy & H).
  destruct busy; [done|]. injection H as H.
  split_and!; [eauto | by apply any_group_occupied_false |].
  by destruct (teacher_is_busy data (t_teacher task) slot).
Qed.

Lemma filter_avail_spec data st task sl avail :
  filter_avail data st task sl = Some avail →
  avail = filter (λ s, slot_available data st task s = Some true) sl.
Proof.
  revert avail. induction sl as [|s sl IH]; simpl; intros avail H.
  - by injection H as <-.
  - apply bind_Some in H as (ok & Hok & H).
    apply bind_Some in H as (rest & Hrest & H). injection H as <-.
    rewrite filter_cons, <- (IH rest Hrest).
    destruct ok.
    + by rewrite decide_True.
    + rewrite decide_False; [done|]. by rewrite Hok.
Qed.

(** ** Sorting on computed keys *)

Lemma sort_by_decorated {A} (before : Z → Z → bool) (g : A → Z) (l : list A) :
  (sort_by before fst ((λ x, (g x, x)) <$> l)).*2 = sort_by before g l.
Proof.
  enough (sort_by before fst ((λ x, (g x, x)) <$> l)
          = (λ x, (g x, x)) <$> sort_by before g l) as ->.
  { rewrite <- list_fmap_compose. apply list_fmap_id. }
  induction l as [|x l IH]; csimpl; [done|].
  rewrite IH. generalize (sort_by before g l) as s. clear.
  induction s as [|y s IH]; csimpl; [done|].
  destruct (before (g x) (g y)); csimpl; [done|]. by rewrite IH.
Qed.

Lemma zip_keys {A} (f : A → option Z) (l : list A) (keys : list Z) :
  map_opt f l = Some keys →
  zip keys l = (λ x, (default 0 (f x), x)) <$> l.
Proof.
  rewrite map_opt_Some. induction 1 as [|x k l keys Hk _ IH]; simpl; [done|].
  by rewrite Hk, IH.
Qed.

Lemma sort_with_keys_Some {A} (before : Z → Z → bool) (f : A → option Z)
    (l l' : list A) :
  sort_with_keys before f l = Some l' →
  Forall (λ x, is_Some (f x)) l
  ∧ l' = sort_by before (λ x, default 0 (f x)) l.
Proof.
  unfold sort_with_keys. intros H.
  apply bind_Some in H as (keys & Hkeys & H). injection H as <-.
  split.
  - apply map_opt_Some in Hkeys.
    induction Hkeys; constructor; [by eexists | done].
  - by rewrite (zip_keys _ _ _ Hkeys), sort_by_decorated.
Qed.

Lemma sort_with_keys_total {A} (before : Z → Z → bool) (f : A → option Z)
    (l : list A) :
  Forall (λ x, is_Some (f x)) l → is_Some (sort_with_keys before f l).
Proof.
  intros H. apply map_opt_total in H as [keys Hkeys].
  unfold sort_with_keys. rewrite Hkeys. simpl. by eexists.
Qed.

Lemma candidates_spec data st task cands :
  candidates data st task = Some cands →
  ∃ avail,
    filter_avail data st task (slots data) = Some avail
    ∧ avail = filter (λ s, slot_available data st task s = Some true)
                (slots data)
    ∧ Forall (λ s, is_Some (score data st (t_teacher task) s)) avail
    ∧ cands = sort_by Z.geb
                (λ s, default 0 (score data st (t_teacher task) s)) avail.
Proof.
  unfold candidates. intros H.
  apply bind_Some in H as (avail & Havail & H).
  apply sort_with_keys_Some in H as [Hall ->].
  exists avail. split_and!; [done | by apply filter_avail_spec | done..].
Qed.

Lemma candidates_elem_of data st task cands s :
  candidates data st task = Some cands → s ∈ cands →
  s ∈ slots data ∧ slot_available data st task s = Some true.
Proof.
  intros (avail & _ & -> & _ & ->)%candidates_spec.
  rewrite sort_by_elem_of, list_elem_of_filter. tauto.
Qed.

(** ** Room choice *)

Lemma free_rooms_filter st slot names oroom :
  occ_rooms st !! slot = Some oroom →
  free_rooms st slot names = Some (filter (λ r, r ∉ oroom) names).
Proof.
  intros Ho. induction names as [|r names IH]; simpl; [done|].
  rewrite Ho, IH. simpl. rewrite filter_cons.
  destruct (decide (r ∈ oroom)) as [Hin|Hnin].
  - by rewrite bool_decide_true, decide_False by auto.
  - by rewrite bool_decide_false, decide_True by auto.
Qed.

Lemma free_rooms_elem_of st slot names free r :
  free_rooms st slot names = Some free → r ∈ free →
  r ∈ names ∧ ∃ oroom, occ_rooms st !! slot = Some oroom ∧ r ∉ oroom.
Proof.
  destruct names as [|r0 names]; [intros [= <-] H; by apply elem_of_nil in H|].
  intros H Hr. pose proof H as H'. simpl in H'.
  apply bind_Some in H' as (oroom & Ho & _).
  rewrite (free_rooms_filter _ _ _ _ Ho) in H. injection H as <-.
  apply list_elem_of_filter in Hr as [Hnin Hin]. eauto.
Qed.

Lemma preferred_target_Some data st task n slot pref :
  preferred_target data st task n slot = Some (Some pref) →
  t_type task ≠ "lecture"
  ∧ teacher_prefs data !! t_teacher task = Some pref
  ∧ fits data n pref = true
  ∧ ∃ oroom, occ_rooms st !! slot = Some oroom ∧ pref ∉ oroom.
Proof.
  unfold preferred_target. case_bool_decide as Hty; [|done].
  destruct (teacher_prefs data !! t_teacher task) as [p|] eqn:Hp; [|done].
  intros H. apply bind_Some in H as (oroom & Ho & H).
  destruct (bool_decide (p ∉ oroom)) eqn:E; simpl in H; [|done].
  destruct (fits data n p) eqn:Hf; [|done].
  injection H as ->. apply bool_decide_eq_true in E. eauto 10.
Qed.

(** A room that is assigned is free in the slot, passes the capacity test
    and has a non-empty name. *)
Lemma choose_room_truthy data st task n slot target :
  choose_room data st task n slot = Some target → truthy target = true →
  ∃ r, target = Some r ∧ r ≠ "" ∧ fits data n r = true
       ∧ ∃ oroom, occ_rooms st !! slot = Some oroom ∧ r ∉ oroom.
Proof.
  unfold choose_room. intros H Ht.
  apply bind_Some in H as (pt & Hpt & H).
  assert (∀ r, target = Some r → r ≠ "") as Hne.
  { intros r ->. simpl in Ht. by case_bool_decide. }
  destruct (truthy pt) eqn:Hpt'.
  - injection H as <-. destruct pt as [pref|]; [|done].
    apply preferred_target_Some in Hpt as (_ & _ & Hf & Ho).
    exists pref. eauto.
  - apply bind_Some in H as (free & Hfree & H). injection H as H.
    destruct (find (fits data n) (sorted_asc (room_cap data) free))
      as [r|] eqn:Hfind.
    + subst target. apply find_some in Hfind as [Hin Hf].
      apply list_elem_of_In in Hin. unfold sorted_asc in Hin.
      rewrite sort_by_elem_of in Hin.
      destruct (free_rooms_elem_of _ _ _ _ _ Hfree Hin) as [_ Ho].
      exists r. eauto.
    + subst target. congruence.
Qed.

(** ** Committing a placement *)

Lemma add_groups_spec og slot gs og' :
  add_groups og slot gs = Some og' →
  (∀ s, s ≠ slot → og' !! s = og !! s)
  ∧ (∀ set, og !! slot = Some set →
       og' !! slot = Some (list_to_set gs ∪ set))
  ∧ (og !! slot = None → og' !! slot = None).
Proof.
  revert og. induction gs as [|g gs IH]; simpl; intros og H.
  - injection H as <-. split_and!; [done| |done].
    intros set ->. by rewrite (left_id_L ∅ (∪)).
  - apply bind_Some in H as (s0 & Hs0 & H).
    destruct (IH _ H) as (Hother & Hslot & _). split_and!.
    + intros s Hs. rewrite Hother by done. by rewrite lookup_insert_ne.
    + intros set Hset. rewrite Hset in Hs0. injection Hs0 as <-.
      rewrite (Hslot ({[g]} ∪ set)) by apply lookup_insert_eq.
      rewrite (comm_L (∪) {[g]} (list_to_set gs)).
      by rewrite <- (assoc_L (∪)).
    + congruence.
Qed.

Lemma add_groups_total og slot gs :
  is_Some (og !! slot) → is_Some (add_groups og slot gs).
Proof.
  revert og. induction gs as [|g gs IH]; simpl; intros og [s Hs]; [by eexists|].
  rewrite Hs. simpl. apply IH. rewrite lookup_insert_eq. by eexists.
Qed.

Lemma commit_spec data st task slot r st' :
  commit data st task slot r = Some st' →
  ∃ info ot oroom og' daily used,
    slot_map data !! slot = Some info
    ∧ occ_teachers st !! slot = Some ot
    ∧ occ_rooms st !! slot = Some oroom
    ∧ add_groups (occ_groups st) slot (t_groups task) = Some og'
    ∧ teacher_daily st !! t_teacher task = Some daily
    ∧ daily !! day info = Some used
    ∧ st' = {| schedule := schedule st ++
                 [{| e_slot := slot; e_day := day info;
                     e_teacher := t_teacher task; e_groups := t_groups task;
                     e_subject := t_subject task; e_room := r;
                     e_type := t_type task |}];
               errors := errors st;
               occ_teachers :=
                 <[slot := {[t_teacher task]} ∪ ot]> (occ_teachers st);
               occ_groups := og';
               occ_rooms := <[slot := {[r]} ∪ oroom]> (occ_rooms st);
               teacher_daily :=
                 <[t_teacher task :=
                     <[day info := {[time_idx info]} ∪ used]> daily]>
                   (teacher_daily st) |}.
Proof.
  unfold commit. intros H.
  apply bind_Some in H as (info & Hinfo & H).
  apply bind_Some in H as (ot & Hot & H).
  apply bind_Some in H as (oroom & Horoom & H).
  apply bind_Some in H as (og' & Hog' & H).
  apply bind_Some in H as (daily & Hdaily & H).
  apply bind_Some in H as (used & Hused & H).
  injection H as <-. eauto 15.
Qed.

Lemma lookup_grow (m : gmap string (gset string)) (slot s : string)
    (old new : gset string) (x : string) :
  m !! slot = Some old → old ⊆ new →
  (∃ o, m !! s = Some o ∧ x ∈ o) →
  ∃ o, <[slot := new]> m !! s = Some o ∧ x ∈ o.
Proof.
  intros Hold Hsub (o & Ho & Hx).
  destruct (decide (slot = s)) as [->|Hne].
  - rewrite lookup_insert_eq. exists new. split; [done|].
    rewrite Hold in Ho. injection Ho as <-. by apply Hsub.
  - rewrite lookup_insert_ne by done. eauto.
Qed.

Lemma add_groups_grow og slot gs og' s x :
  add_groups og slot gs = Some og' →
  (∃ o, og !! s = Some o ∧ x ∈ o) →
  ∃ o, og' !! s = Some o ∧ x ∈ o.
Proof.
  intros (Hother & Hslot & _)%add_groups_spec (o & Ho & Hx).
  destruct (decide (s = slot)) as [->|Hne].
  - rewrite (Hslot o Ho). eexists. split; [done|]. by apply elem_of_union_r.
  - rewrite Hother by done. eauto.
Qed.

Lemma pairwise_snoc {A} (R : A → A → Prop) (l : list A) (e : A) :
  pairwise R l → (∀ x, x ∈ l → R x e ∧ R e x) → pairwise R (l ++ [e]).
Proof.
  intros Hl He i j x y Hij Hi Hj.
  apply lookup_snoc_Some in Hi as [[Hi1 Hi2]|[Hi1 Hi2]];
    apply lookup_snoc_Some in Hj as [[Hj1 Hj2]|[Hj1 Hj2]].
  - by apply (Hl i j).
  - subst y. apply He. by eapply list_elem_of_lookup_2.
  - subst x. apply He. by eapply list_elem_of_lookup_2.
  - lia.
Qed.

Lemma pairwise_perm {A} (R : A → A → Prop) (l l' : list A) :
  l' ≡ₚ l → pairwise R l → pairwise R l'.
Proof.
  intros Hp Hl. apply Permutation_inj in Hp as (_ & f & Hf & Hlook).
  intros i j x y Hij Hi Hj. rewrite Hlook in Hi, Hj.
  apply (Hl (f i) (f j)); [|done..]. intros E. by apply Hf in E.
Qed.

(** ** The placement loop keeps the schedule free of conflicts *)

Lemma commit_inv data st task slot r st' :
  commit data st task slot r = Some st' →
  slot ∈ slots data →
  slot_available data st task slot = Some true →
  fits data (total_size (group_sizes data) (t_groups task)) r = true →
  (∃ oroom, occ_rooms st !! slot = Some oroom ∧ r ∉ oroom) →
  schedule_inv data st → schedule_inv data st'.
Proof.
  intros Hc Hslot Hav Hfits (oroom' & Horoom' & Hr) (Hbooked & Hsound & Hpw).
  apply commit_spec in Hc
    as (info & ot & oroom & og' & daily & used
        & Hinfo & Hot & Horoom & Hog' & Hdaily & Hused & ->).
  rewrite Horoom in Horoom'. injection Horoom' as <-.
  apply slot_available_true in Hav as ((ot' & Hot' & Hteacher) & Hgroups & _).
  rewrite Hot in Hot'. injection Hot' as <-.
  unfold schedule_inv; simpl. split_and!.
  - apply Forall_app. split.
    + eapply Forall_impl; [exact Hbooked|].
      intros e (Ht & Hg & Hro). unfold booked; simpl. split_and!.
      * eapply lookup_grow; [done | apply union_subseteq_r | done].
      * intros g Hin. eapply add_groups_grow; [done | by apply Hg].
      * eapply lookup_grow; [done | apply union_subseteq_r | done].
    + constructor; [|constructor]. unfold booked; simpl. split_and!.
      * rewrite lookup_insert_eq. eexists. split; [done|].
        by apply elem_of_union_l, elem_of_singleton.
      * intros g Hin. destruct (Hgroups g Hin) as (og & Hog & _).
        apply add_groups_spec in Hog' as (_ & Hs & _).
        rewrite (Hs og Hog). eexists. split; [done|].
        apply elem_of_union_l, elem_of_list_to_set. done.
      * rewrite lookup_insert_eq. eexists. split; [done|].
        by apply elem_of_union_l, elem_of_singleton.
  - apply Forall_app. split; [done|].
    constructor; [|constructor]. by split.
  - apply pairwise_snoc; [done|].
    intros e He. rewrite Forall_forall in Hbooked.
    destruct (Hbooked e He)
      as ((ot1 & Hot1 & Ht1) & Hg1 & (or1 & Hor1 & Hr1)).
    split; intros Heq; simpl in Heq.
    + rewrite Heq in Hot1, Hor1, Hg1. simpl.
      rewrite Hot in Hot1. injection Hot1 as <-.
      rewrite Horoom in Hor1. injection Hor1 as <-.
      split_and!; [congruence | | congruence].
      intros g Hg Hg'. destruct (Hg1 g Hg) as (og1 & Hog1 & Hin1).
      destruct (Hgroups g Hg') as (og2 & Hog2 & Hnin). congruence.
    + rewrite <- Heq in Hot1, Hor1, Hg1. simpl.
      rewrite Hot in Hot1. injection Hot1 as <-.
      rewrite Horoom in Hor1. injection Hor1 as <-.
      split_and!; [congruence | | congruence].
      intros g Hg' Hg. destruct (Hg1 g Hg) as (og1 & Hog1 & Hin1).
      destruct (Hgroups g Hg') as (og2 & Hog2 & Hnin). congruence.
Qed.

Lemma try_slots_placed data st task avail reason st' :
  try_slots data st task (total_size (group_sizes data) (t_groups task))
    avail reason = Some (Placed st') →
  (∀ s, s ∈ avail →
     s ∈ slots data ∧ slot_available data st task s = Some true) →
  schedule_inv data st →
  schedule_inv data st'
  ∧ (∃ e, schedule st' = schedule st ++ [e])
  ∧ errors st' = errors st.
Proof.
  revert reason. induction avail as [|s avail IH]; simpl; intros reason H Hav Hinv.
  - done.
  - apply bind_Some in H as (target & Htarget & H).
    destruct (truthy target) eqn:Ht.
    + destruct (choose_room_truthy _ _ _ _ _ _ Htarget Ht)
        as (r & -> & _ & Hfits & Ho).
      simpl in H. destruct (commit data st task s r) as [st1|] eqn:Hc; [|done].
      injection H as <-.
      destruct (Hav s) as [Hs Hsa]; [by left|].
      split; [by eapply commit_inv|].
      apply commit_spec in Hc as (? & ? & ? & ? & ? & ? & _ & _ & _ & _ & _ & _ & ->).
      simpl. eauto.
    + eapply IH; [done | | done]. intros s' Hs'. apply Hav. by right.
Qed.

Lemma try_slots_unplaced data st task n avail reason r :
  try_slots data st task n avail reason = Some (Unplaced r) →
  (avail = [] ∧ r = reason) ∨ (avail ≠ [] ∧ r = reason_no_room).
Proof.
  revert reason. induction avail as [|s avail IH]; simpl; intros reason H.
  - left. by injection H as <-.
  - right. split; [done|].
    apply bind_Some in H as (target & _ & H).
    destruct (truthy target).
    + by destruct (commit data st task s (default "" target)).
    + by destruct (IH _ H) as [[_ ->]|[_ ->]].
Qed.

(** One task gives one schedule entry or one diagnostic, and never
    both. *)
Lemma process_task_step data st task st' :
  process_task data st task = Some st' →
  ∃ cands, candidates data st task = Some cands
  ∧ ((∃ e, schedule st' = schedule st ++ [e] ∧ errors st' = errors st
           ∧ e_teacher e = t_teacher task ∧ e_groups e = t_groups task
           ∧ e_slot e ∈ cands)
     ∨ (schedule st' = schedule st
        ∧ errors st' = errors st ++
            [error_message task
               (match cands with
                | [] => reason_no_time
                | _ :: _ => reason_no_room
                end)])).
Proof.
  unfold process_task. intros H.
  apply bind_Some in H as (cands & Hcands & H).
  apply bind_Some in H as (res & Hres & H). injection H as <-.
  exists cands. split; [done|].
  destruct res as [st1|r].
  - left. clear Hcands.
    revert Hres. generalize reason_no_time as reason.
    induction cands as [|s cands IH]; simpl; intros reason H; [done|].
    apply bind_Some in H as (target & _ & H).
    destruct (truthy target).
    + destruct (commit data st task s (default "" target)) as [st2|] eqn:Hc;
        [|done].
      injection H as <-.
      apply commit_spec in Hc as (? & ? & ? & ? & ? & ? & _ & _ & _ & _ & _ & _ & ->).
      simpl. eexists. split_and!; [done..|by left].
    + destruct (IH _ H) as (e & ? & ? & ? & ? & ?).
      exists e. split_and!; [done..|by right].
  - right. simpl. split; [done|].
    apply try_slots_unplaced in Hres as [[-> ->]|[Hne ->]]; [done|].
    by destruct cands.
Qed.

Lemma process_task_inv data st task st' :
  process_task data st task = Some st' →
  schedule_inv data st → schedule_inv data st'.
Proof.
  unfold process_task. intros H Hinv.
  apply bind_Some in H as (cands & Hcands & H).
  apply bind_Some in H as (res & Hres & H). injection H as <-.
  destruct res as [st1|r]; [|done].
  eapply try_slots_placed; [done | | done].
  intros s Hs. by eapply candidates_elem_of.
Qed.

Lemma run_tasks_inv data st ts st' :
  run_tasks data st ts = Some st' →
  schedule_inv data st → schedule_inv data st'.
Proof.
  revert st. induction ts as [|task ts IH]; simpl; intros st H Hinv.
  - by injection H as <-.
  - apply bind_Some in H as (st1 & H1 & H).
    eapply IH; [done|]. by eapply process_task_inv.
Qed.

Lemma run_tasks_count data st ts st' :
  run_tasks data st ts = Some st' →
  (length (schedule st') + length (errors st')
   = length (schedule st) + length (errors st) + length ts)%nat.
Proof.
  revert st. induction ts as [|task ts IH]; simpl; intros st H.
  - injection H as <-. lia.
  - apply bind_Some in H as (st1 & H1 & H). rewrite (IH _ H).
    apply process_task_step in H1
      as (cands & _ & [(e & -> & -> & _)|[-> ->]]);
      rewrite !length_app; simpl; lia.
Qed.

Lemma init_state_inv data : schedule_inv data (init_state data).
Proof.
  unfold schedule_inv; simpl. split_and!; [constructor..|].
  intros i j x y _ Hi. done.
Qed.

(** The shape of a successful response. *)
Lemma generate_schedule_success data resp :
  generate_schedule data = Some resp → slots data ≠ [] →
  ∃ st, run_tasks data (init_state data) (tasks data) = Some st
        ∧ status resp = "success"
        ∧ resp_schedule resp ≡ₚ schedule st
        ∧ sort_with_keys Z.leb (λ x, index_of (e_slot x) (slots data))
            (schedule st) = Some (resp_schedule resp)
        ∧ resp_errors resp = errors st.
Proof.
  unfold generate_schedule. intros H Hne.
  destruct (slots data) as [|s sl] eqn:Hs; [done|].
  apply bind_Some in H as (st & Hst & H).
  apply bind_Some in H as (sched & Hsched & H). injection H as <-. simpl.
  exists st. split_and!; [done..| |done|done].
  apply sort_with_keys_Some in Hsched as [_ ->]. apply sort_by_perm.
Qed.

Lemma generate_schedule_empty data :
  slots data = [] → generate_schedule data = Some error_response.
Proof. unfold generate_schedule. by intros ->. Qed.

(** ** Scoring and ordering of the candidate slots *)

Lemma foldl_min_spec (a : Z) (l : list Z) :
  let m := foldl Z.min a l in
  (m = a ∨ m ∈ l) ∧ m ≤ a ∧ ∀ x, x ∈ l → m ≤ x.
Proof.
  revert a. induction l as [|y l IH]; intros a; simpl.
  - split_and!; [by left | lia | by intros x ?%elem_of_nil].
  - destruct (IH (Z.min a y)) as (Hm & Hle & Hall). split_and!.
    + destruct Hm as [Hm|Hm]; [|right; by right].
      rewrite Hm.
      destruct (Z.min_spec a y) as [[_ E]|[_ E]]; rewrite E;
        [by left | right; by left].
    + lia.
    + intros x [->|Hx]%elem_of_cons; [lia | by apply Hall].
Qed.

Lemma score_spec data st t_name slot info daily exist :
  slot_map data !! slot = Some info →
  teacher_daily st !! t_name = Some daily →
  daily !! day info = Some exist →
  ∃ v, score data st t_name slot = Some v
       ∧ score_value (time_idx info) exist v.
Proof.
  intros Hinfo Hdaily Hexist. unfold score.
  rewrite Hinfo; simpl. rewrite Hdaily; simpl. rewrite Hexist; simpl.
  destruct ((λ e, Z.abs (time_idx info - e)) <$> elements exist)
    as [|d ds] eqn:E.
  - eexists. split; [done|]. left. split; [|done].
    apply fmap_nil_inv in E. by apply elements_empty_inv, leibniz_equiv in E.
  - eexists. split; [done|]. right. exists (foldl Z.min d ds).
    split; [|done].
    pose proof (foldl_min_spec d ds) as (Hm & Hle & Hall). simpl in *.
    assert (∀ x, x ∈ d :: ds ↔ ∃ e, e ∈ exist ∧ Z.abs (time_idx info - e) = x)
      as Hchar.
    { intros x. rewrite <- E, list_elem_of_fmap.
      setoid_rewrite elem_of_elements.
      split; intros (e & H1 & H2); exists e; by split. }
    split.
    + apply Hchar. destruct Hm as [->|Hm]; [by left | by right].
    + intros e He.
      assert (Z.abs (time_idx info - e) ∈ d :: ds) as Hin
        by (apply Hchar; eauto).
      apply elem_of_cons in Hin as [->|Hin]; [done | by apply Hall].
Qed.

(** ** When the solver returns and when it raises *)

Lemma init_state_wf data : well_formed data (init_state data).
Proof.
  unfold well_formed, init_state; simpl. split_and!.
  - intros s Hs. rewrite !(dict_of_lookup (λ _, ∅)).
    rewrite decide_True by done. by split_and!; eexists.
  - intros t Ht.
    rewrite (dict_of_lookup (λ _, dict_of ((λ d, (d, ∅)) <$> days data))).
    rewrite decide_True by done. eexists. split; [done|].
    intros d Hd. rewrite (dict_of_lookup (λ _, ∅)).
    rewrite decide_True by done. by eexists.
  - intros t Ht.
    rewrite (dict_of_lookup (λ _, dict_of ((λ d, (d, ∅)) <$> days data))).
    by rewrite decide_False.
Qed.

Lemma any_group_occupied_total st slot gs :
  is_Some (occ_groups st !! slot) → is_Some (any_group_occupied st slot gs).
Proof.
  intros [og Hog]. induction gs as [|g gs IH]; simpl; [by eexists|].
  rewrite Hog; simpl. by destruct (bool_decide (g ∈ og)).
Qed.

Lemma slot_available_total data st task s :
  well_formed data st → s ∈ slots data →
  is_Some (slot_available data st task s).
Proof.
  intros (Hocc & _) Hs. destruct (Hocc s Hs) as ([ot Hot] & Hog & _).
  unfold slot_available. rewrite Hot; simpl.
  destruct (bool_decide (t_teacher task ∈ ot)); [by eexists|].
  destruct (any_group_occupied_total st s (t_groups task) Hog) as [b ->].
  simpl. by destruct b.
Qed.

Lemma filter_avail_total data st task sl :
  well_formed data st → (∀ s, s ∈ sl → s ∈ slots data) →
  is_Some (filter_avail data st task sl).
Proof.
  intros Hwf. induction sl as [|s sl IH]; simpl; intros Hsl; [by eexists|].
  destruct (slot_available_total data st task s Hwf) as [ok ->];
    [apply Hsl; by left|].
  simpl. destruct IH as [rest ->]; [intros s' Hs'; apply Hsl; by right|].
  simpl. by eexists.
Qed.

Lemma score_total data st t s :
  well_formed data st → t ∈ teachers data → s ∈ slots data →
  is_Some (score data st t s).
Proof.
  intros (_ & Hdaily & _) Ht Hs.
  destruct (slot_map_lookup data s Hs) as (info & Hinfo & Hday).
  destruct (Hdaily t Ht) as (daily & Hd & Hdays).
  destruct (Hdays _ Hday) as [exist Hexist].
  destruct (score_spec _ _ _ _ _ _ _ Hinfo Hd Hexist) as (v & -> & _).
  by eexists.
Qed.

Lemma score_absent data st t s :
  well_formed data st → t ∉ teachers data → score data st t s = None.
Proof.
  intros (_ & _ & Habs) Ht. unfold score.
  destruct (slot_map data !! s); simpl; [|done].
  by rewrite (Habs t Ht).
Qed.

Lemma choose_room_total data st task n s :
  is_Some (occ_rooms st !! s) → is_Some (choose_room data st task n s).
Proof.
  intros [oroom Ho]. unfold choose_room, preferred_target.
  rewrite (free_rooms_filter _ _ _ _ Ho).
  destruct (bool_decide (t_type task ≠ "lecture")); simpl;
    [destruct (teacher_prefs data !! t_teacher task); simpl;
       [rewrite Ho; simpl|]|];
    repeat match goal with
           | |- context [truthy ?t] => destruct (truthy t) eqn:?; simpl
           end;
    by eexists.
Qed.

Lemma commit_total data st task s r :
  well_formed data st → s ∈ slots data → t_teacher task ∈ teachers data →
  is_Some (commit data st task s r).
Proof.
  intros (Hocc & Hdaily & _) Hs Ht.
  destruct (Hocc s Hs) as ([ot Hot] & Hog & [oroom Horoom]).
  destruct (slot_map_lookup data s Hs) as (info & Hinfo & Hday).
  destruct (Hdaily _ Ht) as (daily & Hd & Hdays).
  destruct (Hdays _ Hday) as [used Hused].
  destruct (add_groups_total _ s (t_groups task) Hog) as [og' Hog'].
  unfold commit. rewrite Hinfo; simpl. rewrite Hot; simpl.
  rewrite Horoom; simpl. rewrite Hog'; simpl. rewrite Hd; simpl.
  rewrite Hused; simpl. by eexists.
Qed.

Lemma commit_wf data st task s r st' :
  commit data st task s r = Some st' →
  well_formed data st → well_formed data st'.
Proof.
  intros Hc (Hocc & Hdaily & Habs).
  apply commit_spec in Hc
    as (info & ot & oroom & og' & daily & used
        & Hinfo & Hot & Horoom & Hog' & Hd & Hused & ->).
  apply add_groups_spec in Hog' as (Hother & Hslot & _).
  unfold well_formed; simpl. split_and!.
  - intros s' Hs'. destruct (Hocc s' Hs') as (H1 & [og Hog] & H3).
    rewrite !lookup_insert_is_Some. split_and!.
    + destruct (decide (s = s')); auto.
    + destruct (decide (s' = s)) as [->|Hne].
      * rewrite (Hslot og Hog). by eexists.
      * rewrite Hother by done. by eexists.
    + destruct (decide (s = s')); auto.
  - intros t Ht. destruct (decide (t_teacher task = t)) as [<-|Hne].
    + rewrite lookup_insert_eq. eexists. split; [done|].
      intros d Hdin. rewrite lookup_insert_is_Some.
      destruct (decide (day info = d)); [by left | right].
      split; [done|]. destruct (Hdaily _ Ht) as (daily' & Hd' & Hdays).
      rewrite Hd in Hd'. injection Hd' as <-. by apply Hdays.
    + rewrite lookup_insert_ne by done. by apply Hdaily.
  - intros t Ht. rewrite lookup_insert_ne; [by apply Habs|].
    intros <-. rewrite (Habs _ Ht) in Hd. done.
Qed.

Lemma try_slots_total data st task n avail reason :
  well_formed data st → t_teacher task ∈ teachers data →
  (∀ s, s ∈ avail → s ∈ slots data) →
  is_Some (try_slots data st task n avail reason).
Proof.
  intros Hwf Ht. revert reason.
  induction avail as [|s avail IH]; simpl; intros reason Hav; [by eexists|].
  assert (s ∈ slots data) as Hs by (apply Hav; by left).
  destruct Hwf as (Hocc & Hrest). destruct (Hocc s Hs) as (_ & _ & Ho).
  destruct (choose_room_total data st task n s Ho) as [target ->]. simpl.
  destruct (truthy target).
  - destruct (commit_total data st task s (default "" target)) as [st' ->];
      [by split | done | done | by eexists].
  - apply IH. intros s' Hs'. apply Hav. by right.
Qed.

Lemma try_slots_wf data st task n avail reason st' :
  try_slots data st task n avail reason = Some (Placed st') →
  well_formed data st → well_formed data st'.
Proof.
  revert reason. induction avail as [|s avail IH]; simpl; intros reason H Hwf.
  - done.
  - apply bind_Some in H as (target & _ & H).
    destruct (truthy target); [|by eapply IH].
    destruct (commit data st task s (default "" target)) as [st1|] eqn:Hc;
      [|done].
    injection H as <-. by eapply commit_wf.
Qed.

Lemma process_task_wf data st task st' :
  process_task data st task = Some st' →
  well_formed data st → well_formed data st'.
Proof.
  unfold process_task. intros H Hwf.
  apply bind_Some in H as (cands & _ & H).
  apply bind_Some in H as (res & Hres & H). injection H as <-.
  destruct res as [st1|r]; [by eapply try_slots_wf | done].
Qed.

(** A task is processed without exception when its teacher is listed. *)
Lemma process_task_total data st task :
  well_formed data st → t_teacher task ∈ teachers data →
  is_Some (process_task data st task).
Proof.
  intros Hwf Ht. unfold process_task, candidates.
  destruct (filter_avail_total data st task (slots data) Hwf) as [avail Hav];
    [done|].
  rewrite Hav; simpl.
  pose proof (filter_avail_spec _ _ _ _ _ Hav) as Havail.
  assert (∀ s, s ∈ avail → s ∈ slots data) as Hsub.
  { intros s. rewrite Havail, list_elem_of_filter. tauto. }
  destruct (sort_with_keys_total Z.geb (score data st (t_teacher task)) avail)
    as [cands Hc].
  { apply Forall_forall. intros s Hs. apply score_total; auto. }
  rewrite Hc; simpl.
  apply sort_with_keys_Some in Hc as [_ Hcands].
  destruct (try_slots_total data st task
              (total_size (group_sizes data) (t_groups task)) cands
              reason_no_time Hwf Ht) as [res ->].
  { intros s. rewrite Hcands, sort_by_elem_of. apply Hsub. }
  simpl. by eexists.
Qed.

(** A task raises exactly when its teacher is not listed and it has a
    candidate slot to score. *)
Lemma process_task_None data st task :
  well_formed data st →
  process_task data st task = None
  ↔ ((t_teacher task ∉ teachers data)
     ∧ (∃ avail, filter_avail data st task (slots data) = Some avail
                 ∧ avail ≠ [])).
Proof.
  intros Hwf.
  destruct (filter_avail_total data st task (slots data) Hwf) as [avail Hav];
    [done|].
  split.
  - intros Hnone.
    destruct (decide (t_teacher task ∈ teachers data)) as [Ht|Ht].
    { destruct (process_task_total data st task Hwf Ht) as [? E]. congruence. }
    split; [done|]. exists avail. split; [done|]. intros ->.
    unfold process_task, candidates in Hnone. rewrite Hav in Hnone. done.
  - intros (Ht & avail' & Hav' & Hne).
    rewrite Hav in Hav'. injection Hav' as <-.
    unfold process_task, candidates, sort_with_keys. rewrite Hav; simpl.
    destruct avail as [|s avail]; [done|]. simpl.
    by rewrite (score_absent data st _ s Hwf Ht).
Qed.

Lemma run_tasks_total data st ts :
  well_formed data st →
  (∀ task, task ∈ ts → t_teacher task ∈ teachers data) →
  is_Some (run_tasks data st ts).
Proof.
  revert st. induction ts as [|task ts IH]; simpl; intros st Hwf Hts;
    [by eexists|].
  destruct (process_task_total data st task Hwf) as [st1 H1];
    [apply Hts; by left|].
  rewrite H1; simpl. apply IH.
  - by eapply process_task_wf.
  - intros task' Hin. apply Hts. by right.
Qed.

Lemma index_of_total (x : string) (l : list string) :
  x ∈ l → is_Some (index_of x l).
Proof.
  induction l as [|y l IH]; simpl; [by intros ?%elem_of_nil|].
  intros Hin. case_bool_decide as E; [by eexists|].
  apply elem_of_cons in Hin as [->|Hin]; [done|].
  destruct (IH Hin) as [i ->]. by eexists.
Qed.

Lemma generate_schedule_total data :
  (∀ task, task ∈ tasks data → t_teacher task ∈ teachers data) →
  is_Some (generate_schedule data).
Proof.
  intros Hts. unfold generate_schedule.
  destruct (slots data) as [|s sl] eqn:Hs; [by eexists|].
  destruct (run_tasks_total data (init_state data) (tasks data)
              (init_state_wf data) Hts) as [st Hrun].
  rewrite Hrun; cbn [bind].
  destruct (run_tasks_inv _ _ _ _ Hrun (init_state_inv data))
    as (_ & Hsound & _).
  destruct (sort_with_keys_total Z.leb
              (λ x, index_of (e_slot x) (slots data)) (schedule st))
    as [sched Hsched].
  { eapply Forall_impl; [exact Hsound|].
    intros e [He _]. by apply index_of_total. }
  rewrite Hs in Hsched. rewrite Hsched; cbn [bind]. by eexists.
Qed.

(** The teacher of every task is the teacher of an assignment. *)
Lemma tasks_teacher data task :
  task ∈ tasks data →
  ∃ a, a ∈ assignments data ∧ t_teacher task = a_teacher a.
Proof.
  unfold tasks, prioritize, expand_tasks.
  rewrite sort_by_elem_of, fold_expand_reference. simpl.
  unfold reference_expansion. rewrite list_elem_of_bind.
  intros (a & Hin & Ha). exists a. split; [done|].
  unfold reference_tasks in Hin.
  destruct (bool_decide (a_type a = "seminar"));
    apply list_elem_of_bind in Hin as (x & Hin & _);
    apply elem_of_replicate in Hin as [-> _]; done.
Qed.

Lemma run_tasks_wf data st ts st' :
  run_tasks data st ts = Some st' →
  well_formed data st → well_formed data st'.
Proof.
  revert st. induction ts as [|task ts IH]; simpl; intros st H Hwf.
  - by injection H as <-.
  - apply bind_Some in H as (st1 & H1 & H).
    eapply IH; [done|]. by eapply process_task_wf.
Qed.

(** The loop raises exactly when it reaches a task that raises. *)
Lemma run_tasks_None data st ts :
  run_tasks data st ts = None
  ↔ ∃ pre task post st1,
      ts = pre ++ task :: post
      ∧ run_tasks data st pre = Some st1
      ∧ process_task data st1 task = None.
Proof.
  revert st. induction ts as [|task ts IH]; intros st; simpl.
  - split; [done|]. intros (pre & t & post & _ & E & _).
    by destruct pre.
  - rewrite bind_None. split.
    + intros [Hnone|(st1 & H1 & Hrest)].
      * by exists [], task, ts, st.
      * apply IH in Hrest as (pre & t & post & st2 & -> & Hpre & Ht).
        exists (task :: pre), t, post, st2. simpl. rewrite H1. done.
    + intros (pre & t & post & st1 & E & Hpre & Ht).
      destruct pre as [|task' pre]; simpl in *.
      * injection E as -> ->. injection Hpre as ->. by left.
      * injection E as -> ->.
        apply bind_Some in Hpre as (st2 & H2 & Hpre).
        right. exists st2. split; [done|]. apply IH. eauto 10.
Qed.

(** The request raises exactly when the loop reaches, in some state, a
    task whose teacher is not listed and that has an available slot. *)
Lemma generate_schedule_None data :
  generate_schedule data = None
  ↔ ∃ pre task post st avail,
      tasks data = pre ++ task :: post
      ∧ run_tasks data (init_state data) pre = Some st
      ∧ (t_teacher task ∉ teachers data)
      ∧ filter_avail data st task (slots data) = Some avail
      ∧ avail ≠ [].
Proof.
  split.
  - intros Hnone.
    destruct (run_tasks data (init_state data) (tasks data)) as [st|] eqn:Hrun.
    { exfalso. unfold generate_schedule in Hnone.
      destruct (slots data) as [|s sl] eqn:Hs; [done|].
      rewrite Hrun in Hnone; cbn [bind] in Hnone.
      destruct (run_tasks_inv _ _ _ _ Hrun (init_state_inv data))
        as (_ & Hsound & _).
      destruct (sort_with_keys_total Z.leb
                  (λ x, index_of (e_slot x) (slots data)) (schedule st))
        as [sched Hsched].
      { eapply Forall_impl; [exact Hsound|].
        intros e [He _]. by apply index_of_total. }
      rewrite Hs in Hsched. by rewrite Hsched in Hnone. }
    apply run_tasks_None in Hrun as (pre & task & post & st & E & Hpre & Ht).
    pose proof (run_tasks_wf _ _ _ _ Hpre (init_state_wf data)) as Hwf.
    apply (process_task_None _ _ _ Hwf) in Ht as (Habs & avail & Hav & Hne).
    exists pre, task, post, st, avail. done.
  - intros (pre & task & post & st & avail & E & Hpre & Habs & Hav & Hne).
    pose proof (run_tasks_wf _ _ _ _ Hpre (init_state_wf data)) as Hwf.
    assert (run_tasks data (init_state data) (tasks data) = None) as Hrun.
    { apply run_tasks_None. exists pre, task, post, st.
      split_and!; [done..|]. apply process_task_None; eauto. }
    unfold generate_schedule. rewrite Hrun.
    destruct (slots data) as [|s sl] eqn:Hs; [|done].
    simpl in Hav. by injection Hav as <-.
Qed.

(** ** The returned schedule *)

Lemma generate_schedule_inv data resp :
  generate_schedule data = Some resp →
  Forall (sound_entry data) (resp_schedule resp)
  ∧ pairwise no_conflict (resp_schedule resp).
Proof.
  intros H. destruct (decide (slots data = [])) as [He|Hne].
  - rewrite (generate_schedule_empty _ He) in H. injection H as <-. simpl.
    split; [constructor|]. by intros i j x y _ Hi.
  - destruct (generate_schedule_success _ _ H Hne)
      as (st & Hrun & _ & Hperm & _ & _).
    destruct (run_tasks_inv _ _ _ _ Hrun (init_state_inv data))
      as (_ & Hsound & Hpw).
    split; [by rewrite Hperm | by eapply pairwise_perm].
Qed.

(** C1. No double-booking: two distinct entries of the returned schedule
    that have the same slot have different teachers, disjoint groups and
    different rooms. *)
Theorem no_double_booking (data : SessionData) (resp : Response) :
  generate_schedule data = Some resp →
  ∀ i j e1 e2,
    i ≠ j →
    resp_schedule resp !! i = Some e1 →
    resp_schedule resp !! j = Some e2 →
    e_slot e1 = e_slot e2 →
    e_teacher e1 ≠ e_teacher e2
    ∧ (∀ g, g ∈ e_groups e1 → g ∉ e_groups e2)
    ∧ e_room e1 ≠ e_room e2.
Proof.
  intros H i j e1 e2 Hij H1 H2.
  destruct (generate_schedule_inv _ _ H) as [_ Hpw].
  exact (Hpw i j e1 e2 Hij H1 H2).
Qed.

Lemma week_response_eq : generate_schedule week_data = Some week_response.
Proof. vm_compute; reflexivity. Qed.

Lemma no_double_booking_witness :
  e_teacher week_entry0 ≠ e_teacher week_entry1
  ∧ (∀ g, g ∈ e_groups week_entry0 → g ∉ e_groups week_entry1)
  ∧ e_room week_entry0 ≠ e_room week_entry1.
Proof.
  apply (no_double_booking week_data week_response week_response_eq
           0%nat 1%nat week_entry0 week_entry1);
    [lia | reflexivity..].
Defined.

(** C2. Capacity safety: the room of every entry passed the capacity test
    for the entry's groups; hence its configured capacity, unless it is
    missing or zero (unbounded), is at least the sum of the sizes of the
    entry's groups. *)
Theorem capacity_safety (data : SessionData) (resp : Response) :
  generate_schedule data = Some resp →
  ∀ e, e ∈ resp_schedule resp →
    let enrolled := total_size (group_sizes data) (e_groups e) in
    fits data enrolled (e_room e) = true
    ∧ match room_caps data !! e_room e with
      | None => True
      | Some c => c = 0 ∨ enrolled ≤ c
      end.
Proof.
  intros H e He enrolled.
  destruct (generate_schedule_inv _ _ H) as [Hsound _].
  rewrite Forall_forall in Hsound. destruct (Hsound e He) as [_ Hfits].
  split; [done|]. fold enrolled in Hfits.
  unfold fits, room_cap in Hfits.
  destruct (room_caps data !! e_room e) as [c|]; [|done]. simpl in Hfits.
  destruct (Z.eqb_spec c 0); [by left | right; lia].
Qed.

Lemma capacity_safety_witness :
  fits week_data (total_size (group_sizes week_data) (e_groups week_entry0))
    (e_room week_entry0) = true.
Proof.
  apply (capacity_safety week_data week_response week_response_eq
           week_entry0).
  left.
Defined.

Lemma one_room_response_eq :
  generate_schedule one_room_data = Some one_room_response.
Proof. vm_compute; reflexivity. Qed.

(** C9. Conservation: when the grid is not empty and the solver returns,
    the entries and the diagnostics together are as many as the expanded
    tasks; they are the entries and the diagnostics of the state in which
    the loop over the tasks ends. Each task adds one entry, or else one
    diagnostic: the text "<subject> (<type>) для <teacher>. Причина: "
    followed by "Нет общего свободного времени" (no common free time) when
    the task had no candidate slot and by "Нет свободных кабинетов нужной
    вместимости" (no room of sufficient capacity) otherwise; the loop then
    goes on with the remaining tasks. *)
Theorem conservation (data : SessionData) (resp : Response) :
  generate_schedule data = Some resp → slots data ≠ [] →
  (length (resp_schedule resp) + length (resp_errors resp))%nat
  = length (expand_tasks (group_sizes data) (max_cap data)
              (assignments data))
  ∧ (∃ st, run_tasks data (init_state data) (tasks data) = Some st
           ∧ resp_schedule resp ≡ₚ schedule st
           ∧ resp_errors resp = errors st)
  ∧ (∀ st task ts st',
       run_tasks data st (task :: ts) = Some st' →
       ∃ st1 cands,
         candidates data st task = Some cands
         ∧ process_task data st task = Some st1
         ∧ run_tasks data st1 ts = Some st'
         ∧ ((∃ e, schedule st1 = schedule st ++ [e]
                  ∧ errors st1 = errors st)
            ∨ (schedule st1 = schedule st
               ∧ errors st1 = errors st ++
                   [t_subject task +:+ " (" +:+ t_type task +:+ ") для "
                      +:+ t_teacher task +:+ ". Причина: "
                      +:+ match cands with
                          | [] => "Нет общего свободного времени"
                          | _ :: _ =>
                              "Нет свободных кабинетов нужной вместимости"
                          end]))).
Proof.
  intros H Hne.
  destruct (generate_schedule_success _ _ H Hne)
    as (st & Hrun & _ & Hperm & _ & Herr).
  split_and!.
  - rewrite Herr, Hperm. apply run_tasks_count in Hrun. simpl in Hrun.
    rewrite Hrun. unfold tasks, prioritize. by rewrite sort_by_length.
  - by exists st.
  - intros st0 task ts st' Hrun'. simpl in Hrun'.
    apply bind_Some in Hrun' as (st1 & H1 & Hrun').
    pose proof H1 as Hstep.
    apply process_task_step in Hstep as (cands & Hcands & Hstep).
    exists st1, cands. split_and!; [done..|].
    destruct Hstep as [(e & ? & ? & _)|[Hsch Herrs]]; [left; eauto|].
    right. split; [done|]. rewrite Herrs.
    unfold error_message, reason_no_time, reason_no_room.
    by destruct cands.
Qed.

Lemma conservation_witness :
  (length (resp_schedule one_room_response)
   + length (resp_errors one_room_response))%nat = 2%nat
  ∧ errors one_room_state2
    = errors one_room_state1
      ++ ["S (seminar) для T. Причина: "
          +:+ "Нет свободных кабинетов нужной вместимости"].
Proof.
  destruct (conservation one_room_data one_room_response
              one_room_response_eq) as (Hcount & _ & Hstep);
    [vm_compute; discriminate|].
  split; [exact Hcount|].
  destruct (Hstep one_room_state1 seminar_T_H [] one_room_state2)
    as (st1 & cands & Hcands & _ & Hrun & Hcase);
    [vm_compute; reflexivity|].
  injection Hrun as ->.
  destruct Hcase as [(e & Hsch & _)|[_ Herrs]].
  - apply (f_equal length) in Hsch. rewrite length_app in Hsch.
    vm_compute in Hsch. discriminate.
  - vm_compute in Hcands. injection Hcands as <-. exact Herrs.
Defined.

(** C7. A candidate slot scores 10 when the teacher has no used index on
    the slot's day, 100 when the least distance to a used index is 1, -50
    when it is 2 and 0 otherwise; the candidates are the available slots
    in order of descending score, slots of equal score staying in the
    chronological order of the grid. *)
Theorem candidate_order (data : SessionData) (st : State) (task : Task) :
  (∀ slot info daily exist,
     slot_map data !! slot = Some info →
     teacher_daily st !! t_teacher task = Some daily →
     daily !! day info = Some exist →
     ∃ v, score data st (t_teacher task) slot = Some v
          ∧ ((exist = ∅ ∧ v = 10)
             ∨ (∃ d, min_distance (time_idx info) exist d
                     ∧ v = if d =? 1 then 100
                           else if d =? 2 then -50 else 0)))
  ∧ (∀ cands,
       candidates data st task = Some cands →
       let avail := filter (λ s, slot_available data st task s = Some true)
                      (slots data) in
       let key := λ s, default 0 (score data st (t_teacher task) s) in
       Forall (λ s, is_Some (score data st (t_teacher task) s)) avail
       ∧ cands ≡ₚ avail
       ∧ StronglySorted (λ s1 s2, key s2 ≤ key s1) cands
       ∧ ∀ k, filter (λ s, key s = k) cands = filter (λ s, key s = k) avail).
Proof.
  split.
  - intros slot info daily exist H1 H2 H3.
    exact (score_spec _ _ _ _ _ _ _ H1 H2 H3).
  - intros cands (avail' & _ & -> & Hall & ->)%candidates_spec avail key.
    fold avail in Hall |- *. fold key. split_and!.
    + done.
    + apply sort_by_perm.
    + eapply StronglySorted_weaken;
        [|exact (sort_by_sorted Z.geb key Zgeb_total Zgeb_trans avail)].
      unfold before_rel. intros s1 s2 H. lia.
    + intros k. apply sort_by_stable, Zgeb_total.
Qed.

Lemma candidate_order_witness :
  (∃ v, score week_data week_state1 "U" "Mon 11" = Some v
        ∧ ((({[0]} : gset Z) = ∅ ∧ v = 10)
           ∨ (∃ d, min_distance 2 {[0]} d
                   ∧ v = if d =? 1 then 100
                         else if d =? 2 then -50 else 0)))
  ∧ ["Mon 10"; "Tue 9"; "Tue 10"; "Tue 11"; "Mon 11"]
    ≡ₚ filter (λ s, slot_available week_data week_state1 lecture_U_H s
                    = Some true) (slots week_data).
Proof.
  destruct (candidate_order week_data week_state1 lecture_U_H)
    as [Hscore Hcands].
  split.
  - apply (Hscore "Mon 11" {| day := "Mon"; time_idx := 2 |}
             {[ "Mon" := {[0]}; "Tue" := ∅ ]} {[0]});
      vm_compute; reflexivity.
  - destruct (Hcands ["Mon 10"; "Tue 9"; "Tue 10"; "Tue 11"; "Mon 11"])
      as (_ & Hperm & _); [vm_compute; reflexivity|].
    exact Hperm.
Defined.

(** ** Status of the response and the missing-teacher exception *)

(** C3. With an empty day list or an empty time list the operation
    returns the error response: status "error", a message, no entry, no
    diagnostic. In every other case a response that is returned has status
    "success", and one is returned whenever the teacher of every task is
    listed in [teachers]. *)
Theorem status_flag (data : SessionData) :
  (days data = [] ∨ times data = [] →
   generate_schedule data
   = Some {| status := "error";
             message := Some "Не заданы дни или время звонков!";
             resp_schedule := []; resp_errors := [] |})
  ∧ (¬ (days data = [] ∨ times data = []) →
     (∀ resp, generate_schedule data = Some resp → status resp = "success")
     ∧ ((∀ task, task ∈ tasks data → t_teacher task ∈ teachers data) →
        ∃ resp, generate_schedule data = Some resp
                ∧ status resp = "success")).
Proof.
  rewrite <- slots_nil. split.
  - apply generate_schedule_empty.
  - intros Hne.
    assert (∀ resp, generate_schedule data = Some resp →
                    status resp = "success") as Hstatus.
    { intros resp H.
      by destruct (generate_schedule_success _ _ H Hne) as (_ & _ & ? & _). }
    split; [done|]. intros Hts.
    destruct (generate_schedule_total data Hts) as [resp H].
    exists resp. split; [done | by apply Hstatus].
Qed.

Lemma status_flag_witness :
  generate_schedule empty_grid_data
  = Some {| status := "error";
            message := Some "Не заданы дни или время звонков!";
            resp_schedule := []; resp_errors := [] |}
  ∧ ∃ resp, generate_schedule no_rooms_data = Some resp
            ∧ status resp = "success"
            ∧ resp_schedule resp = [].
Proof.
  split.
  - destruct (status_flag empty_grid_data) as [H _].
    apply H. left. reflexivity.
  - destruct (status_flag no_rooms_data) as [_ H].
    destruct H as [_ H]; [intros [E|E]; discriminate E|].
    destruct H as (resp & Hresp & Hstatus).
    { intros task Htask. vm_compute in Htask.
      apply elem_of_cons in Htask as [->|Htask];
        [|apply elem_of_cons in Htask as [->|Htask]];
        [by left | by left | by apply elem_of_nil in Htask]. }
    exists resp. split_and!; [done..|].
    vm_compute in Hresp. by injection Hresp as <-.
Defined.

(** C10 (counterexample). A task whose teacher is not listed does not
    always prevent a result: here the only slot is in the teacher's busy
    list, the task has no candidate slot, nothing is scored, and the solver
    returns with a diagnostic. *)
Lemma absent_teacher_may_return :
  slots absent_busy_teacher_data ≠ []
  ∧ (∃ task, task ∈ tasks absent_busy_teacher_data
             ∧ t_teacher task ∉ teachers absent_busy_teacher_data)
  ∧ generate_schedule absent_busy_teacher_data
    = Some {| status := "success"; message := None;
              resp_schedule := [];
              resp_errors :=
                ["S (seminar) для T. Причина: Нет общего свободного времени"] |}.
Proof.
  split_and!.
  - by vm_compute.
  - exists seminar_T_G. split; [vm_compute; by left|].
    simpl. by intros ?%elem_of_nil.
  - by vm_compute.
Qed.

(** C10 (amended). The solver returns a result whenever the teacher of
    every expanded task appears in [teachers]. It raises [KeyError] exactly
    when the placement loop reaches a task whose teacher is absent from
    [teachers] and that has at least one available slot to score; an absent
    teacher without an available slot yields a diagnostic instead. There is
    a request with a non-empty grid on which the exception is raised. *)
Theorem missing_teacher (data : SessionData) :
  ((∀ task, task ∈ tasks data → t_teacher task ∈ teachers data) →
   is_Some (generate_schedule data))
  ∧ (generate_schedule data = None
     ↔ ∃ pre task post st avail,
         tasks data = pre ++ task :: post
         ∧ run_tasks data (init_state data) pre = Some st
         ∧ (t_teacher task ∉ teachers data)
         ∧ filter_avail data st task (slots data) = Some avail
         ∧ avail ≠ [])
  ∧ slots absent_teacher_data ≠ []
  ∧ generate_schedule absent_teacher_data = None.
Proof.
  split_and!.
  - apply generate_schedule_total.
  - apply generate_schedule_None.
  - by vm_compute.
  - by vm_compute.
Qed.

Lemma missing_teacher_witness :
  is_Some (generate_schedule week_data)
  ∧ generate_schedule absent_teacher_data = None.
Proof.
  split.
  - destruct (missing_teacher week_data) as [H _]. apply H.
    intros task Htask. vm_compute in Htask.
    repeat (apply elem_of_cons in Htask as [->|Htask];
            [vm_compute; repeat constructor|]).
    by apply elem_of_nil in Htask.
  - destruct (missing_teacher absent_teacher_data) as (_ & H & _).
    apply H. exists [], seminar_T_G, [], (init_state absent_teacher_data).
    eexists. split_and!.
    + vm_compute; reflexivity.
    + reflexivity.
    + simpl. by intros ?%elem_of_nil.
    + vm_compute; reflexivity.
    + done.
Defined.

(** ** Room choice within a candidate slot *)

(** With room names that are not empty, the choice is the one described:
    the preferred room of a task that is not a lecture when it is free and
    sufficient, otherwise the first sufficient room among the free rooms in
    ascending order of capacity; the chosen room is committed. *)
Lemma room_choice_named data st task n slot oroom :
  occ_rooms st !! slot = Some oroom →
  let free := filter (λ r, r ∉ oroom) (room_names data) in
  let scanned := sorted_asc (room_cap data) free in
  (∀ pref,
     t_type task ≠ "lecture" →
     teacher_prefs data !! t_teacher task = Some pref →
     pref ∉ oroom → fits data n pref = true → pref ≠ "" →
     choose_room data st task n slot = Some (Some pref))
  ∧ (¬ (t_type task ≠ "lecture"
        ∧ ∃ pref, teacher_prefs data !! t_teacher task = Some pref
                  ∧ (pref ∉ oroom) ∧ fits data n pref = true) →
     choose_room data st task n slot = Some (find (fits data n) scanned))
  ∧ scanned ≡ₚ free
  ∧ StronglySorted (λ r1 r2, room_cap data r1 ≤ room_cap data r2) scanned
  ∧ (∀ r rest reason,
       choose_room data st task n slot = Some (Some r) → r ≠ "" →
       try_slots data st task n (slot :: rest) reason
       = Placed <$> commit data st task slot r).
Proof.
  intros Ho free scanned. split_and!.
  - intros pref Hty Hpref Hfree Hfits Hne.
    unfold choose_room, preferred_target.
    rewrite bool_decide_true by done. rewrite Hpref, Ho. simpl.
    rewrite bool_decide_true by done. rewrite Hfits. simpl.
    by rewrite bool_decide_false.
  - intros Hnot. unfold choose_room.
    assert (preferred_target data st task n slot = Some None) as ->.
    { unfold preferred_target. case_bool_decide as Hty; [|done].
      destruct (teacher_prefs data !! t_teacher task) as [pref|] eqn:Hp;
        [|done].
      rewrite Ho. simpl. case_bool_decide as Hfree; simpl; [|done].
      destruct (fits data n pref) eqn:Hf; [|done].
      exfalso. apply Hnot. eauto. }
    simpl. rewrite (free_rooms_filter _ _ _ _ Ho). simpl.
    fold free scanned. by destruct (find (fits data n) scanned).
  - apply sort_by_perm.
  - eapply StronglySorted_weaken;
      [|exact (sort_by_sorted Z.leb (room_cap data) Zleb_total Zleb_trans
                 free)].
    unfold before_rel. intros r1 r2 H. lia.
  - intros r rest reason Hc Hne. simpl. rewrite Hc. simpl.
    by rewrite bool_decide_false.
Qed.

(** C8 (the code on a room with an empty name). The free rooms in
    ascending order of capacity are [""] (capacity 5) and ["R"] (capacity
    10); the first one covers the five students and is chosen, but the test
    [if target] takes the empty name for "no room": the slot is given up,
    room ["R"] is never tried and the task is reported as unplaced. *)
Theorem unnamed_room_skipped :
  sorted_asc (room_cap unnamed_room_data) (room_names unnamed_room_data)
  = [""; "R"]
  ∧ fits unnamed_room_data 5 "" = true
  ∧ fits unnamed_room_data 5 "R" = true
  ∧ candidates unnamed_room_data (init_state unnamed_room_data) seminar_T_G
    = Some ["Mon 9"]
  ∧ choose_room unnamed_room_data (init_state unnamed_room_data)
      seminar_T_G 5 "Mon 9" = Some (Some "")
  ∧ generate_schedule unnamed_room_data
    = Some {| status := "success"; message := None;
              resp_schedule := [];
              resp_errors :=
                ["S (seminar) для T. Причина: Нет свободных кабинетов нужной вместимости"] |}.
Proof. split_and!; by vm_compute. Qed.

(** * Further properties of the code *)

(** ** The stream packer *)

Lemma total_size_app gsz l1 l2 :
  total_size gsz (l1 ++ l2) = total_size gsz l1 + total_size gsz l2.
Proof.
  unfold total_size. induction l1 as [|x l1 IH]; csimpl; [done|].
  rewrite IH. lia.
Qed.

Lemma total_size_singleton gsz g : total_size gsz [g] = group_size gsz g.
Proof. unfold total_size. simpl. lia. Qed.

(** What one step of the packing loop keeps true of its three
    variables. *)
Lemma pack_step_inv gsz mc p g :
  Forall (λ s, s ≠ [] ∧ stream_within gsz mc s) (streams p) →
  total_size gsz (current_stream p) = current_size p →
  current_size p ≤ mc ∨ current_stream p = [] →
  let p' := pack_step gsz mc p g in
  Forall (λ s, s ≠ [] ∧ stream_within gsz mc s) (streams p')
  ∧ total_size gsz (current_stream p') = current_size p'
  ∧ (current_size p' ≤ mc ∨ current_stream p' = [])
  ∧ mjoin (streams p') ++ current_stream p'
    ≡ₚ mjoin (streams p) ++ current_stream p ++ [g].
Proof.
  intros Hs Hsz Hcur. unfold pack_step.
  case_bool_decide as E1; [|case_bool_decide as E2]; simpl.
  - split_and!; [|done|done|].
    + apply Forall_app. split; [done|]. constructor; [|constructor].
      split; [done|]. right. eauto.
    + rewrite join_app. simpl. rewrite <- !app_assoc. simpl.
      apply Permutation_app_head. apply Permutation_cons_append.
  - split_and!; [done| |by left|done].
    rewrite total_size_app, total_size_singleton. lia.
  - split_and!; [|apply total_size_singleton|left; lia|].
    + unfold close_stream. destruct (current_stream p) eqn:Ec; [done|].
      apply Forall_app. split; [done|]. constructor; [|constructor].
      split; [done|]. left. destruct Hcur as [?|?]; [lia | done].
    + unfold close_stream. destruct (current_stream p) eqn:Ec; [done|].
      rewrite join_app. simpl. rewrite app_nil_r. by rewrite <- !app_assoc.
Qed.

Lemma fold_pack_inv gsz mc gs p :
  Forall (λ s, s ≠ [] ∧ stream_within gsz mc s) (streams p) →
  total_size gsz (current_stream p) = current_size p →
  current_size p ≤ mc ∨ current_stream p = [] →
  let out := close_stream (fold_left (pack_step gsz mc) gs p) in
  Forall (λ s, s ≠ [] ∧ stream_within gsz mc s) out
  ∧ mjoin out ≡ₚ mjoin (streams p) ++ current_stream p ++ gs.
Proof.
  revert p. induction gs as [|g gs IH]; intros p Hs Hsz Hcur; simpl.
  - unfold close_stream. rewrite app_nil_r.
    destruct (current_stream p) as [|x cur] eqn:Ec.
    + by rewrite app_nil_r.
    + split.
      * apply Forall_app. split; [done|]. constructor; [|constructor].
        split; [done|]. left. destruct Hcur as [?|?]; [lia | done].
      * rewrite join_app. simpl. by rewrite app_nil_r.
  - destruct (pack_step_inv gsz mc p g Hs Hsz Hcur) as (H1 & H2 & H3 & H4).
    destruct (IH _ H1 H2 H3) as [H5 H6]. split; [done|].
    rewrite H6, app_assoc, H4, <- !app_assoc. done.
Qed.

Lemma pack_streams_inv gsz mc gs :
  Forall (λ s, s ≠ [] ∧ stream_within gsz mc s) (pack_streams gsz mc gs)
  ∧ mjoin (pack_streams gsz mc gs) ≡ₚ gs.
Proof.
  unfold pack_streams.
  destruct (fold_pack_inv gsz mc (sorted_desc (group_size gsz) gs)
              {| current_stream := []; current_size := 0; streams := [] |})
    as [H1 H2]; simpl; [constructor | done | by right |].
  split; [done|]. rewrite H2. simpl. apply sort_by_perm.
Qed.

(** X1. The streams of a lecture assignment partition its groups: joined
    together they are a rearrangement of the assignment's group list (each
    occurrence of a group lands in exactly one stream), and no stream is
    empty. *)
Theorem streams_partition (gsz : gmap string Z) (mc : Z) (gs : list string) :
  mjoin (pack_streams gsz mc gs) ≡ₚ gs
  ∧ Forall (λ s, s ≠ []) (pack_streams gsz mc gs).
Proof.
  destruct (pack_streams_inv gsz mc gs) as [H1 H2]. split; [done|].
  eapply Forall_impl; [exact H1|]. by intros s [? _].
Qed.

(** X2. Every stream respects the bound: the sizes of its groups sum to at
    most [max_cap], unless the stream is one single group that alone is
    larger than [max_cap]. *)
Theorem streams_bounded (gsz : gmap string Z) (mc : Z) (gs : list string) :
  Forall (λ s, total_size gsz s ≤ mc
               ∨ ∃ g, s = [g] ∧ group_size gsz g > mc)
    (pack_streams gsz mc gs).
Proof.
  destruct (pack_streams_inv gsz mc gs) as [H1 _].
  eapply Forall_impl; [exact H1|]. by intros s [_ ?].
Qed.

(** ** The shape and the number of the tasks *)

Lemma length_bind_replicate {A B} (l : list A) (n : nat) (f : A → B) :
  length (x ← l; replicate n (f x)) = (n * length l)%nat.
Proof.
  induction l as [|x l IH]; csimpl; [lia|].
  rewrite length_app, length_replicate, IH. lia.
Qed.

Lemma reference_tasks_length data a :
  length (reference_tasks (group_sizes data) (max_cap data) a)
  = assignment_task_count data a.
Proof.
  unfold reference_tasks, assignment_task_count.
  rewrite <- pack_streams_reference.
  case_bool_decide;
    [apply (length_bind_replicate _ _ (λ g, Build_Task _ [g] _ _))
    |apply (length_bind_replicate _ _ (λ s, Build_Task _ s _ _))].
Qed.

Lemma reference_tasks_elem data a task :
  task ∈ reference_tasks (group_sizes data) (max_cap data) a →
  t_teacher task = a_teacher a
  ∧ t_subject task = a_subject a
  ∧ 0 < a_count a
  ∧ t_groups task ≠ []
  ∧ (∀ g, g ∈ t_groups task → g ∈ a_groups a)
  ∧ ((a_type a = "seminar" ∧ t_type task = "seminar"
      ∧ ∃ g, t_groups task = [g])
     ∨ (a_type a ≠ "seminar" ∧ t_type task = "lecture"
        ∧ t_groups task
          ∈ pack_streams (group_sizes data) (max_cap data) (a_groups a))).
Proof.
  unfold reference_tasks. rewrite <- pack_streams_reference.
  case_bool_decide as Hty; intros Hin;
    apply list_elem_of_bind in Hin as (x & Hin & Hx);
    apply elem_of_replicate in Hin as [-> Hn]; simpl.
  - split_and!; [done | done | lia | done | | left; eauto].
    intros g ->%list_elem_of_singleton. done.
  - destruct (pack_streams_inv (group_sizes data) (max_cap data) (a_groups a))
      as [Hne Hperm].
    rewrite Forall_forall in Hne. destruct (Hne x Hx) as [Hx1 _].
    split_and!; [done | done | lia | done | | right; done].
    intros g Hg. rewrite <- Hperm. apply list_elem_of_join. eauto.
Qed.

(** X3. Every task of the prioritized list comes from an assignment with
    a positive [count], has that assignment's teacher and subject, and has
    a non-empty group list drawn from the assignment's groups. A seminar
    assignment gives tasks of type "seminar" with exactly one group; any
    other assignment gives tasks of type "lecture" whose groups are one of
    its streams. *)
Theorem task_shape (data : SessionData) (task : Task) :
  task ∈ tasks data →
  ∃ a, a ∈ assignments data
       ∧ t_teacher task = a_teacher a
       ∧ t_subject task = a_subject a
       ∧ 0 < a_count a
       ∧ t_groups task ≠ []
       ∧ (∀ g, g ∈ t_groups task → g ∈ a_groups a)
       ∧ ((a_type a = "seminar" ∧ t_type task = "seminar"
           ∧ ∃ g, t_groups task = [g])
          ∨ (a_type a ≠ "seminar" ∧ t_type task = "lecture"
             ∧ t_groups task
               ∈ pack_streams (group_sizes data) (max_cap data)
                   (a_groups a))).
Proof.
  unfold tasks, prioritize, expand_tasks.
  rewrite sort_by_elem_of, fold_expand_reference. simpl.
  unfold reference_expansion. rewrite list_elem_of_bind.
  intros (a & Hin & Ha). exists a. split; [done|].
  by apply reference_tasks_elem.
Qed.

Lemma task_shape_witness :
  ∃ a, a ∈ assignments week_data
       ∧ t_teacher lecture_U_H = a_teacher a
       ∧ 0 < a_count a
       ∧ a_type a ≠ "seminar".
Proof.
  destruct (task_shape week_data lecture_U_H)
    as (a & Ha & Ht & _ & Hc & _ & _ & [(_ & Hty & _)|(Hty & _)]).
  - vm_compute. left.
  - discriminate Hty.
  - exists a. done.
Defined.

Lemma tasks_length data :
  length (tasks data)
  = sum_list (assignment_task_count data <$> assignments data).
Proof.
  unfold tasks, prioritize, expand_tasks.
  rewrite sort_by_length, fold_expand_reference. simpl.
  unfold reference_expansion.
  induction (assignments data) as [|a l IH]; csimpl; [done|].
  by rewrite length_app, IH, reference_tasks_length.
Qed.

(** X4. The number of tasks is the sum over the assignments of [count]
    (a negative [count] counts as zero) times the number of groups of a
    seminar assignment, or times the number of streams of any other
    assignment. *)
Theorem task_count (data : SessionData) :
  length (tasks data)
  = sum_list (assignment_task_count data <$> assignments data).
Proof. apply tasks_length. Qed.

(** ** The slot grid *)

Lemma enumerate_elem {A} (l : list A) (i : Z) (x : A) :
  (i, x) ∈ enumerate l → 0 ≤ i ∧ l !! Z.to_nat i = Some x.
Proof.
  unfold enumerate. intros (n & y & [= -> ->] & Hn)%elem_of_lookup_imap_1.
  split; [lia|]. by rewrite Nat2Z.id.
Qed.

Lemma slots_length data :
  length (slots data) = (length (days data) * length (times data))%nat.
Proof.
  unfold slots. rewrite build_slots_fst.
  induction (days data) as [|d ds IH]; csimpl; [done|].
  rewrite length_app, length_fmap, IH. lia.
Qed.

Lemma slots_lookup data i j d t :
  days data !! i = Some d → times data !! j = Some t →
  slots data !! (i * length (times data) + j)%nat = Some (slot_name d t).
Proof.
  unfold slots. rewrite build_slots_fst. intros Hd Ht.
  revert i Hd. induction (days data) as [|d' ds IH]; intros i Hd; [done|].
  csimpl. destruct i as [|i]; simpl in Hd.
  - injection Hd as ->. simpl. rewrite lookup_app_l.
    + by rewrite list_lookup_fmap, Ht.
    + rewrite length_fmap. by eapply lookup_lt_Some.
  - rewrite lookup_app_r; rewrite length_fmap; [|lia].
    replace (S i * length (times data) + j - length (times data))%nat
      with (i * length (times data) + j)%nat by lia.
    by apply IH.
Qed.

(** What [slot_map] records: its keys are the slots of the grid, and the
    entry of a slot holds a configured day and the index of a time label
    that, joined by a space, make up the slot's name. *)
Lemma slot_map_spec data :
  (∀ s, s ∈ slots data ↔ is_Some (slot_map data !! s))
  ∧ (∀ s info,
       slot_map data !! s = Some info →
       day info ∈ days data
       ∧ 0 ≤ time_idx info
       ∧ ∃ t, times data !! Z.to_nat (time_idx info) = Some t
              ∧ s = slot_name (day info) t).
Proof.
  unfold slots, slot_map, build_slots.
  set (P := λ acc : list string * gmap string SlotInfo,
         (∀ s, s ∈ acc.1 ↔ is_Some (acc.2 !! s))
         ∧ (∀ s info,
              acc.2 !! s = Some info →
              day info ∈ days data
              ∧ 0 ≤ time_idx info
              ∧ ∃ t, times data !! Z.to_nat (time_idx info) = Some t
                     ∧ s = slot_name (day info) t)).
  change (P (fold_left (λ acc d,
       fold_left (λ (acc : list string * gmap string SlotInfo) it,
         let s_name := slot_name d it.2 in
         (acc.1 ++ [s_name],
          <[s_name := {| day := d; time_idx := it.1 |}]> acc.2))
         (enumerate (times data)) acc) (days data) ([], ∅))).
  apply fold_left_inv.
  - split.
    + intros s. simpl. rewrite lookup_empty. split.
      * by intros ?%elem_of_nil.
      * by intros [? ?].
    + intros s info. simpl. by rewrite lookup_empty.
  - intros acc d Hd Hacc. apply fold_left_inv; [done|].
    intros acc' [idx t] Hit [Hdom Hinfo]. simpl in *.
    apply enumerate_elem in Hit as [Hidx Ht].
    split; simpl.
    + intros s. rewrite elem_of_app, list_elem_of_singleton,
        lookup_insert_is_Some, Hdom.
      destruct (decide (slot_name d t = s)) as [<-|Hne]; [tauto|].
      split; [intros [?|?]; [by right | congruence]|].
      intros [?|[_ ?]]; [congruence | by left].
    + intros s info.
      destruct (decide (slot_name d t = s)) as [<-|Hne].
      * rewrite lookup_insert_eq. intros [= <-]. simpl. eauto.
      * rewrite lookup_insert_ne by done. apply Hinfo.
Qed.

(** X5. The grid has one slot per pair of a day and a time label, in the
    order "all times of the first day, then all times of the second day":
    the slot of the [i]-th day and [j]-th time stands at position
    [i * len(times) + j] under the name ["<day> <time>"]. The keys of
    [slot_map] are exactly these slots, and the day and time index stored
    for a key spell the key. *)
Theorem slot_grid (data : SessionData) :
  length (slots data) = (length (days data) * length (times data))%nat
  ∧ (∀ i j d t,
       days data !! i = Some d → times data !! j = Some t →
       slots data !! (i * length (times data) + j)%nat
       = Some (slot_name d t))
  ∧ (∀ s, s ∈ slots data ↔ is_Some (slot_map data !! s))
  ∧ (∀ s info,
       slot_map data !! s = Some info →
       day info ∈ days data
       ∧ 0 ≤ time_idx info
       ∧ ∃ t, times data !! Z.to_nat (time_idx info) = Some t
              ∧ s = slot_name (day info) t).
Proof.
  split_and!.
  - apply slots_length.
  - apply slots_lookup.
  - apply slot_map_spec.
  - apply slot_map_spec.
Qed.

Lemma slot_grid_witness :
  slots week_data !! 4%nat = Some "Tue 10"
  ∧ ∃ t, times week_data !! 1%nat = Some t ∧ "Tue 10" = slot_name "Tue" t.
Proof.
  destruct (slot_grid week_data) as (_ & Hpos & _ & Hmap). split.
  - apply (Hpos 1%nat 1%nat "Tue" "10"); reflexivity.
  - destruct (Hmap "Tue 10" {| day := "Tue"; time_idx := 1 |})
      as (_ & _ & t & Ht & Hname); [vm_compute; reflexivity|].
    exists t. split; [exact Ht | exact Hname].
Defined.

(** ** One iteration of the placement loop *)

Lemma try_slots_Placed data st task avail reason st' :
  try_slots data st task (total_size (group_sizes data) (t_groups task))
    avail reason = Some (Placed st') →
  ∃ pre s post r,
    avail = pre ++ s :: post
    ∧ Forall (no_room_in data st task) pre
    ∧ choose_room data st task
        (total_size (group_sizes data) (t_groups task)) s = Some (Some r)
    ∧ r ≠ ""
    ∧ commit data st task s r = Some st'.
Proof.
  revert reason. induction avail as [|s avail IH]; simpl; intros reason H.
  - done.
  - apply bind_Some in H as (target & Htarget & H).
    destruct (truthy target) eqn:Ht.
    + destruct (choose_room_truthy _ _ _ _ _ _ Htarget Ht)
        as (r & -> & Hne & _).
      simpl in H. destruct (commit data st task s r) as [st1|] eqn:Hc; [|done].
      injection H as <-. exists [], s, avail, r. by split_and!.
    + destruct (IH _ H) as (pre & s' & post & r & -> & Hpre & Hrest).
      exists (s :: pre), s', post, r. split_and!; [done| |apply Hrest..].
      constructor; [|done]. by exists target.
Qed.

Lemma try_slots_Unplaced data st task avail reason r :
  try_slots data st task (total_size (group_sizes data) (t_groups task))
    avail reason = Some (Unplaced r) →
  Forall (no_room_in data st task) avail.
Proof.
  revert reason. induction avail as [|s avail IH]; simpl; intros reason H.
  - constructor.
  - apply bind_Some in H as (target & Htarget & H).
    destruct (truthy target) eqn:Ht.
    + by destruct (commit data st task s (default "" target)).
    + constructor; [by exists target | by eapply IH].
Qed.

(** The two ways a task can leave the loop body. *)
Lemma process_task_cases data st task st' :
  process_task data st task = Some st' →
  ∃ cands,
    candidates data st task = Some cands
    ∧ ((∃ pre s post r,
          cands = pre ++ s :: post
          ∧ Forall (no_room_in data st task) pre
          ∧ choose_room data st task
              (total_size (group_sizes data) (t_groups task)) s
            = Some (Some r)
          ∧ r ≠ ""
          ∧ commit data st task s r = Some st')
       ∨ (Forall (no_room_in data st task) cands
          ∧ st' = {| schedule := schedule st;
                     errors := errors st ++
                       [error_message task
                          (match cands with
                           | [] => reason_no_time
                           | _ :: _ => reason_no_room
                           end)];
                     occ_teachers := occ_teachers st;
                     occ_groups := occ_groups st;
                     occ_rooms := occ_rooms st;
                     teacher_daily := teacher_daily st |})).
Proof.
  unfold process_task. intros H.
  apply bind_Some in H as (cands & Hcands & H).
  apply bind_Some in H as (res & Hres & H). injection H as <-.
  exists cands. split; [done|]. destruct res as [st1|r].
  - left. by apply try_slots_Placed in Hres.
  - right. split; [by eapply try_slots_Unplaced|].
    apply try_slots_unplaced in Hres as [[-> ->]|[Hne ->]]; [done|].
    by destruct cands.
Qed.

(** Where an assigned room comes from. *)
Lemma choose_room_provenance data st task n slot r :
  choose_room data st task n slot = Some (Some r) → r ≠ "" →
  r ∈ room_names data
  ∨ (t_type task ≠ "lecture"
     ∧ teacher_prefs data !! t_teacher task = Some r).
Proof.
  unfold choose_room. intros H Hne.
  apply bind_Some in H as (pt & Hpt & H).
  destruct (truthy pt) eqn:Hpt'.
  - injection H as ->.
    apply preferred_target_Some in Hpt as (Hty & Hpref & _). by right.
  - apply bind_Some in H as (free & Hfree & H). injection H as H.
    destruct (find (fits data n) (sorted_asc (room_cap data) free))
      as [r'|] eqn:Hfind.
    + injection H as ->. left.
      apply find_some in Hfind as [Hin _].
      apply list_elem_of_In in Hin. unfold sorted_asc in Hin.
      rewrite sort_by_elem_of in Hin.
      by destruct (free_rooms_elem_of _ _ _ _ _ Hfree Hin).
    + subst pt. simpl in Hpt'. by case_bool_decide.
Qed.

(** ** What every entry is made of *)

Lemma commit_entry_wf data st task s r st' cands :
  commit data st task s r = Some st' →
  candidates data st task = Some cands → s ∈ cands →
  choose_room data st task
    (total_size (group_sizes data) (t_groups task)) s = Some (Some r) →
  r ≠ "" →
  well_formed data st →
  Forall (entry_wf data) (schedule st) →
  Forall (entry_wf data) (schedule st').
Proof.
  intros Hc Hcands Hs Hroom Hne (_ & _ & Habs) Hall.
  destruct (candidates_elem_of _ _ _ _ _ Hcands Hs) as [Hslot Hav].
  apply slot_available_true in Hav as (_ & _ & Hbusy).
  pose proof (choose_room_provenance _ _ _ _ _ _ Hroom Hne) as Hprov.
  apply commit_spec in Hc
    as (info & ot & oroom & og' & daily & used
        & Hinfo & Hot & Horoom & Hog' & Hdaily & Hused & ->).
  simpl. apply Forall_app. split; [done|].
  constructor; [|constructor]. unfold entry_wf; simpl. split_and!; try done.
  - destruct (decide (t_teacher task ∈ teachers data)) as [|Hn]; [done|].
    rewrite (Habs _ Hn) in Hdaily. done.
  - eauto.
Qed.

Lemma process_task_entry_wf data st task st' :
  process_task data st task = Some st' →
  well_formed data st →
  Forall (entry_wf data) (schedule st) →
  Forall (entry_wf data) (schedule st').
Proof.
  intros H Hwf Hall.
  apply process_task_cases in H
    as (cands & Hcands
        & [(pre & s & post & r & -> & _ & Hroom & Hne & Hc)|[_ ->]]);
    [|done].
  eapply commit_entry_wf; try done.
  apply elem_of_app. right. by left.
Qed.

Lemma run_tasks_entry_wf data st ts st' :
  run_tasks data st ts = Some st' →
  well_formed data st →
  Forall (entry_wf data) (schedule st) →
  Forall (entry_wf data) (schedule st').
Proof.
  revert st. induction ts as [|task ts IH]; simpl; intros st H Hwf Hall.
  - by injection H as <-.
  - apply bind_Some in H as (st1 & H1 & H).
    eapply IH; [done | by eapply process_task_wf
               | by eapply process_task_entry_wf].
Qed.

Lemma generate_schedule_entry_wf data resp :
  generate_schedule data = Some resp →
  Forall (entry_wf data) (resp_schedule resp).
Proof.
  intros H. destruct (decide (slots data = [])) as [He|Hne].
  - rewrite (generate_schedule_empty _ He) in H. injection H as <-. constructor.
  - destruct (generate_schedule_success _ _ H Hne)
      as (st & Hrun & _ & Hperm & _ & _).
    rewrite Hperm.
    eapply run_tasks_entry_wf; [done | apply init_state_wf | constructor].
Qed.

(** X6. Availability respected: the slot of an entry is never in the busy
    list configured for the entry's teacher. *)
Theorem availability_respected (data : SessionData) (resp : Response) :
  generate_schedule data = Some resp →
  ∀ e busy,
    e ∈ resp_schedule resp →
    teacher_busy data !! e_teacher e = Some busy →
    e_slot e ∉ busy.
Proof.
  intros H e busy He Hbusy.
  pose proof (generate_schedule_entry_wf _ _ H) as Hall.
  rewrite Forall_forall in Hall.
  destruct (Hall e He) as (_ & _ & _ & Hb & _).
  unfold teacher_is_busy in Hb. rewrite Hbusy in Hb.
  by apply bool_decide_eq_false in Hb.
Qed.

(** X7. Every entry is in a slot of the grid whose name is the entry's
    day, a space and one of the time labels; the day is a configured day
    and the teacher is one of the listed teachers. *)
Theorem entry_fields (data : SessionData) (resp : Response) :
  generate_schedule data = Some resp →
  ∀ e, e ∈ resp_schedule resp →
    e_slot e ∈ slots data
    ∧ e_teacher e ∈ teachers data
    ∧ e_day e ∈ days data
    ∧ ∃ t, t ∈ times data ∧ e_slot e = slot_name (e_day e) t.
Proof.
  intros H e He.
  pose proof (generate_schedule_entry_wf _ _ H) as Hall.
  rewrite Forall_forall in Hall.
  destruct (Hall e He) as (Hslot & Ht & (info & Hinfo & Hday) & _).
  destruct (slot_map_spec data) as [_ Hmap].
  destruct (Hmap _ _ Hinfo) as (Hd & _ & t & Htime & Hname).
  rewrite Hday. split_and!; [done..|].
  exists t. split; [by eapply list_elem_of_lookup_2 | done].
Qed.

(** X8. The room of an entry has a non-empty name and is one of the
    configured rooms, or else it is the preferred room of the entry's
    teacher and the entry is not a lecture. A lecture is therefore only
    ever placed in a configured room. *)
Theorem room_provenance (data : SessionData) (resp : Response) :
  generate_schedule data = Some resp →
  ∀ e, e ∈ resp_schedule resp →
    e_room e ≠ ""
    ∧ (e_room e ∈ room_names data
       ∨ (e_type e ≠ "lecture"
          ∧ teacher_prefs data !! e_teacher e = Some (e_room e)))
    ∧ (e_type e = "lecture" → e_room e ∈ room_names data).
Proof.
  intros H e He.
  pose proof (generate_schedule_entry_wf _ _ H) as Hall.
  rewrite Forall_forall in Hall.
  destruct (Hall e He) as (_ & _ & _ & _ & Hne & Hprov).
  split_and!; [done..|]. intros Hty. by destruct Hprov as [?|[? _]].
Qed.

Lemma busy_pref_response_eq :
  generate_schedule busy_pref_data = Some busy_pref_response.
Proof. vm_compute; reflexivity. Qed.

Lemma availability_respected_witness : "Mon 10" ∉ ["Mon 9"].
Proof.
  apply (availability_respected busy_pref_data busy_pref_response
           busy_pref_response_eq busy_pref_entry ["Mon 9"]).
  - left.
  - vm_compute; reflexivity.
Defined.

Lemma entry_fields_witness :
  e_slot busy_pref_entry ∈ slots busy_pref_data
  ∧ e_teacher busy_pref_entry ∈ teachers busy_pref_data
  ∧ e_day busy_pref_entry ∈ days busy_pref_data
  ∧ ∃ t, t ∈ times busy_pref_data
         ∧ e_slot busy_pref_entry = slot_name (e_day busy_pref_entry) t.
Proof.
  apply (entry_fields busy_pref_data busy_pref_response
           busy_pref_response_eq busy_pref_entry).
  left.
Defined.

Lemma room_provenance_witness :
  e_room busy_pref_entry ≠ ""
  ∧ (e_room busy_pref_entry ∈ room_names busy_pref_data
     ∨ (e_type busy_pref_entry ≠ "lecture"
        ∧ teacher_prefs busy_pref_data !! e_teacher busy_pref_entry
          = Some (e_room busy_pref_entry)))
  ∧ (e_type busy_pref_entry = "lecture"
     → e_room busy_pref_entry ∈ room_names busy_pref_data).
Proof.
  apply (room_provenance busy_pref_data busy_pref_response
           busy_pref_response_eq busy_pref_entry).
  left.
Defined.

(** ** Accounting of the tasks *)

Lemma run_tasks_account data st ts st' :
  run_tasks data st ts = Some st' →
  ∃ (es : list Entry) (unplaced : list (Task * string)),
    schedule st' = schedule st ++ es
    ∧ errors st' = errors st ++ ((λ p, error_message p.1 p.2) <$> unplaced)
    ∧ (entry_task <$> es) ++ unplaced.*1 ≡ₚ ts
    ∧ (entry_task <$> es) `sublist_of` ts
    ∧ unplaced.*1 `sublist_of` ts
    ∧ Forall (λ p, p.2 = reason_no_time ∨ p.2 = reason_no_room) unplaced.
Proof.
  revert st. induction ts as [|task ts IH]; simpl; intros st H.
  - injection H as <-. exists [], []. simpl. rewrite !app_nil_r.
    split_and!; [done..|constructor].
  - apply bind_Some in H as (st1 & H1 & H).
    destruct (IH _ H) as (es & un & Hs & He & Hperm & Hsub1 & Hsub2 & Hr).
    apply process_task_cases in H1
      as (cands & _ & [(pre & s & post & r & _ & _ & _ & _ & Hc)|[_ ->]]).
    + apply commit_spec in Hc
        as (info & ? & ? & ? & ? & ? & _ & _ & _ & _ & _ & _ & ->).
      simpl in Hs, He.
      exists ({| e_slot := s; e_day := day info;
                 e_teacher := t_teacher task; e_groups := t_groups task;
                 e_subject := t_subject task; e_room := r;
                 e_type := t_type task |} :: es), un.
      rewrite Hs, He, <- app_assoc. csimpl.
      assert (entry_task
                {| e_slot := s; e_day := day info;
                   e_teacher := t_teacher task; e_groups := t_groups task;
                   e_subject := t_subject task; e_room := r;
                   e_type := t_type task |} = task) as -> by by destruct task.
      split_and!; [done | done | by rewrite Hperm | by apply sublist_skip
                  | by apply sublist_cons | done].
    + simpl in Hs, He.
      exists es,
        ((task, match cands with
                | [] => reason_no_time
                | _ :: _ => reason_no_room
                end) :: un).
      rewrite Hs, He, <- app_assoc. csimpl.
      split_and!; [done | done | | by apply sublist_cons
                  | by apply sublist_skip | ].
      * rewrite <- Hperm. symmetry. apply Permutation_middle.
      * constructor; [|done]. simpl. destruct cands; [by left | by right].
Qed.

(** The loop, task by task: each task has one outcome, the entry made
    from it or the reason reported for it, decided in the state that the
    tasks before it have left. *)
Lemma run_tasks_outcomes data st0 ts st' :
  run_tasks data st0 ts = Some st' →
  ∃ outcomes : list (Entry + string),
    length outcomes = length ts
    ∧ schedule st'
      = schedule st0
        ++ omap (λ o, match o with inl e => Some e | inr _ => None end)
             outcomes
    ∧ errors st'
      = errors st0
        ++ omap (λ p : Task * (Entry + string),
                   match p.2 with
                   | inl _ => None
                   | inr reason =>
                       Some (t_subject p.1 +:+ " (" +:+ t_type p.1
                               +:+ ") для " +:+ t_teacher p.1
                               +:+ ". Причина: " +:+ reason)
                   end) (zip ts outcomes)
    ∧ (entry_task
         <$> omap (λ o, match o with inl e => Some e | inr _ => None end)
               outcomes)
      ++ omap (λ p : Task * (Entry + string),
                 match p.2 with inl _ => None | inr _ => Some p.1 end)
           (zip ts outcomes)
      ≡ₚ ts
    ∧ ∀ i task o,
        ts !! i = Some task → outcomes !! i = Some o →
        ∃ st cands,
          run_tasks data st0 (take i ts) = Some st
          ∧ candidates data st task = Some cands
          ∧ match o with
            | inl e =>
                entry_task e = task ∧ e_slot e ∈ cands
                ∧ ¬ no_room_in data st task (e_slot e)
            | inr reason =>
                Forall (no_room_in data st task) cands
                ∧ reason = match cands with
                           | [] => "Нет общего свободного времени"
                           | _ :: _ =>
                               "Нет свободных кабинетов нужной вместимости"
                           end
            end.
Proof.
  revert st0. induction ts as [|task ts IH]; simpl; intros st0 H.
  - injection H as <-. exists []. simpl. rewrite !app_nil_r.
    split_and!; [done..|]. intros i task o Hi. done.
  - apply bind_Some in H as (st1 & H1 & H).
    destruct (IH _ H) as (os & Hlen & Hs & He & Hperm & Hat).
    assert (∀ i t o, ts !! i = Some t → os !! i = Some o →
              ∃ st cands,
                (st0' <- process_task data st0 task;;
                 run_tasks data st0' (take i ts)) = Some st
                ∧ candidates data st t = Some cands
                ∧ match o with
                  | inl e =>
                      entry_task e = t ∧ e_slot e ∈ cands
                      ∧ ¬ no_room_in data st t (e_slot e)
                  | inr reason =>
                      Forall (no_room_in data st t) cands
                      ∧ reason
                        = match cands with
                          | [] => "Нет общего свободного времени"
                          | _ :: _ =>
                              "Нет свободных кабинетов нужной вместимости"
                          end
                  end) as Hlater.
    { intros i t o Hi Ho. rewrite H1. simpl. by apply Hat. }
    apply process_task_cases in H1
      as (cands & Hcands
          & [(pre & s & post & r & -> & _ & Hroom & Hr & Hc)|[Hall ->]]).
    + apply commit_spec in Hc
        as (info & ? & ? & ? & ? & ? & _ & _ & _ & _ & _ & _ & ->).
      simpl in Hs, He.
      exists (inl {| e_slot := s; e_day := day info;
                     e_teacher := t_teacher task;
                     e_groups := t_groups task;
                     e_subject := t_subject task; e_room := r;
                     e_type := t_type task |} :: os).
      csimpl. rewrite Hs, He, <- app_assoc.
      assert (entry_task
                {| e_slot := s; e_day := day info;
                   e_teacher := t_teacher task; e_groups := t_groups task;
                   e_subject := t_subject task; e_room := r;
                   e_type := t_type task |} = task) as Htask
        by by destruct task.
      split_and!; [by rewrite Hlen | done | done
                  | by rewrite Htask, Hperm |].
      intros [|i] t o Hi Ho; simpl in Hi, Ho; [|by apply Hlater].
      injection Hi as <-. injection Ho as <-.
      exists st0, (pre ++ s :: post). split_and!; [done..| | ].
      * simpl. apply elem_of_app. right. left.
      * simpl. intros (target & Ht & Hfalse). rewrite Hroom in Ht.
        injection Ht as <-. simpl in Hfalse.
        by rewrite bool_decide_false in Hfalse.
    + simpl in Hs, He.
      exists (inr (match cands with
                   | [] => "Нет общего свободного времени"
                   | _ :: _ => "Нет свободных кабинетов нужной вместимости"
                   end) :: os).
      csimpl. rewrite Hs, He, <- app_assoc.
      split_and!; [by rewrite Hlen | done | | |].
      * unfold error_message, reason_no_time, reason_no_room.
        by destruct cands.
      * rewrite <- Hperm at 2. symmetry. apply Permutation_middle.
      * intros [|i] t o Hi Ho; simpl in Hi, Ho; [|by apply Hlater].
        injection Hi as <-. injection Ho as <-.
        exists st0, cands. done.
Qed.

(** X9. Nothing is invented and nothing is lost: every task of the
    prioritized list has exactly one outcome, an entry or a diagnostic. The
    entries of the response are the entries of these outcomes, each reading
    back as its task; the diagnostics are, in the order of the task list,
    the messages "<subject> (<type>) для <teacher>. Причина: <reason>" of
    the tasks without an entry; entries and reported tasks together are a
    rearrangement of the task list. A task gets an entry when, in the state
    the loop has reached after the tasks before it, the entry's slot is a
    candidate slot with a room, and a diagnostic when none of its candidate
    slots has a room there; the reason is "Нет общего свободного времени"
    when the task had no candidate slot and "Нет свободных кабинетов нужной
    вместимости" otherwise. *)
Theorem task_accounting (data : SessionData) (resp : Response) :
  generate_schedule data = Some resp → slots data ≠ [] →
  ∃ outcomes : list (Entry + string),
    length outcomes = length (tasks data)
    ∧ resp_schedule resp
      ≡ₚ omap (λ o, match o with inl e => Some e | inr _ => None end)
           outcomes
    ∧ resp_errors resp
      = omap (λ p : Task * (Entry + string),
                match p.2 with
                | inl _ => None
                | inr reason =>
                    Some (t_subject p.1 +:+ " (" +:+ t_type p.1
                            +:+ ") для " +:+ t_teacher p.1
                            +:+ ". Причина: " +:+ reason)
                end) (zip (tasks data) outcomes)
    ∧ (entry_task <$> resp_schedule resp)
      ++ omap (λ p : Task * (Entry + string),
                 match p.2 with inl _ => None | inr _ => Some p.1 end)
           (zip (tasks data) outcomes)
      ≡ₚ tasks data
    ∧ ∀ i task o,
        tasks data !! i = Some task → outcomes !! i = Some o →
        ∃ st cands,
          run_tasks data (init_state data) (take i (tasks data)) = Some st
          ∧ candidates data st task = Some cands
          ∧ match o with
            | inl e =>
                entry_task e = task ∧ e_slot e ∈ cands
                ∧ ¬ no_room_in data st task (e_slot e)
            | inr reason =>
                Forall (no_room_in data st task) cands
                ∧ reason = match cands with
                           | [] => "Нет общего свободного времени"
                           | _ :: _ =>
                               "Нет свободных кабинетов нужной вместимости"
                           end
            end.
Proof.
  intros H Hne.
  destruct (generate_schedule_success _ _ H Hne)
    as (st & Hrun & _ & Hperm & _ & Herr).
  destruct (run_tasks_outcomes _ _ _ _ Hrun)
    as (os & Hlen & Hs & He & Hp & Hat).
  simpl in Hs, He. exists os.
  split_and!; [done | by rewrite Hperm, Hs | by rewrite Herr, He
              | by rewrite Hperm, Hs | done].
Qed.

Lemma task_accounting_witness :
  ∃ outcomes : list (Entry + string),
    resp_errors one_room_response
    = omap (λ p : Task * (Entry + string),
              match p.2 with
              | inl _ => None
              | inr reason =>
                  Some (t_subject p.1 +:+ " (" +:+ t_type p.1
                          +:+ ") для " +:+ t_teacher p.1
                          +:+ ". Причина: " +:+ reason)
              end) (zip (tasks one_room_data) outcomes)
    ∧ outcomes !! 1%nat
      = Some (inr "Нет свободных кабинетов нужной вместимости").
Proof.
  destruct (task_accounting one_room_data one_room_response
              one_room_response_eq)
    as (os & Hlen & _ & He & _ & Hat); [vm_compute; discriminate|].
  exists os. split; [exact He|].
  change (tasks one_room_data) with [lecture_U_G; seminar_T_H] in Hlen, Hat.
  destruct os as [|o0 [|o1 os]]; [discriminate..|].
  destruct (Hat 1%nat seminar_T_H o1 eq_refl eq_refl)
    as (st & cands & Hst & Hcands & Ho).
  change (Some one_room_state1 = Some st) in Hst. injection Hst as <-.
  change (Some ["Mon 1"] = Some cands) in Hcands. injection Hcands as <-.
  destruct o1 as [e|reason].
  - exfalso. destruct Ho as (_ & Hin & Hroom).
    apply list_elem_of_singleton in Hin. rewrite Hin in Hroom.
    apply Hroom. exists None. split; vm_compute; reflexivity.
  - destruct Ho as [_ ->]. reflexivity.
Defined.

(** ** Order of the returned schedule *)

Lemma index_of_spec (x : string) (l : list string) (k : Z) :
  index_of x l = Some k → 0 ≤ k ∧ first_position x l (Z.to_nat k).
Proof.
  revert k. induction l as [|y l IH]; simpl; intros k H; [done|].
  case_bool_decide as E.
  - injection H as <-. subst y. split; [done|]. split; [done|].
    intros j Hj. simpl in Hj. lia.
  - destruct (index_of x l) as [k'|]; [|done]. injection H as <-.
    destruct (IH k' eq_refl) as (Hk & Hlook & Hfirst).
    split; [lia|]. rewrite Z2Nat.inj_succ by done. split; [done|].
    intros [|j] Hj; simpl; [congruence|]. apply Hfirst. lia.
Qed.

Lemma first_position_inj (x y : string) (l : list string) (k : nat) :
  first_position x l k → first_position y l k → x = y.
Proof. intros [H1 _] [H2 _]. congruence. Qed.

Lemma filter_ext_Forall {A} (P Q : A → Prop)
    `{!∀ x, Decision (P x)} `{!∀ x, Decision (Q x)} (l : list A) :
  Forall (λ x, P x ↔ Q x) l → filter P l = filter Q l.
Proof.
  induction 1 as [|x l Hx _ IH]; [done|].
  rewrite !filter_cons, IH.
  destruct (decide (P x)), (decide (Q x)); tauto.
Qed.

(** X10. The returned schedule is in chronological order: of two entries
    the earlier one never has its slot later in the grid (slots compared by
    the position of the first occurrence of their name). The final sort is
    stable: the entries of one slot stand in the order in which the loop
    placed them, which is the priority order of their tasks. *)
Theorem chronological_order (data : SessionData) (resp : Response) :
  generate_schedule data = Some resp →
  (∀ i j e1 e2,
     (i < j)%nat →
     resp_schedule resp !! i = Some e1 →
     resp_schedule resp !! j = Some e2 →
     ∃ k1 k2,
       first_position (e_slot e1) (slots data) k1
       ∧ first_position (e_slot e2) (slots data) k2
       ∧ (k1 ≤ k2)%nat)
  ∧ (slots data ≠ [] →
     ∃ st,
       run_tasks data (init_state data) (tasks data) = Some st
       ∧ resp_schedule resp ≡ₚ schedule st
       ∧ ∀ s, filter (λ e, e_slot e = s) (resp_schedule resp)
              = filter (λ e, e_slot e = s) (schedule st))
  ∧ (∀ s, (entry_task <$> filter (λ e, e_slot e = s) (resp_schedule resp))
          `sublist_of` tasks data).
Proof.
  intros H. destruct (decide (slots data = [])) as [He|Hne].
  { rewrite (generate_schedule_empty _ He) in H. injection H as <-. simpl.
    split_and!; [by intros i j e1 e2 _ ? | done |].
    intros s. apply sublist_nil_l. }
  destruct (generate_schedule_success _ _ H Hne)
    as (st & Hrun & _ & Hperm & Hsort & _).
  apply sort_with_keys_Some in Hsort as [Hkeys Hsorted].
  set (key := λ x : Entry, default 0 (index_of (e_slot x) (slots data))) in *.
  assert (∀ e, e ∈ schedule st →
               0 ≤ key e
               ∧ first_position (e_slot e) (slots data) (Z.to_nat (key e)))
    as Hkey.
  { intros e He. rewrite Forall_forall in Hkeys.
    destruct (Hkeys e He) as [k Hk]. unfold key. rewrite Hk. simpl.
    by apply index_of_spec. }
  assert (∀ s, filter (λ e, e_slot e = s) (resp_schedule resp)
               = filter (λ e, e_slot e = s) (schedule st)) as Hstable.
  { intros s.
    destruct (filter (λ e, e_slot e = s) (schedule st)) as [|e0 l0] eqn:Ef.
    - apply Permutation_nil_r. rewrite <- Ef. by rewrite Hperm.
    - rewrite <- Ef.
      assert (e0 ∈ filter (λ e, e_slot e = s) (schedule st)) as Hin
        by (rewrite Ef; left).
      apply list_elem_of_filter in Hin as [Hs0 He0]. clear Ef l0.
      assert (∀ l : list Entry, (∀ e, e ∈ l → e ∈ schedule st) →
                   filter (λ e, e_slot e = s) l
                   = filter (λ e, key e = key e0) l) as Hfilter.
      { intros l Hl. apply filter_ext_Forall, Forall_forall. intros e He.
        destruct (Hkey e (Hl e He)) as [Hk Hf].
        destruct (Hkey e0 He0) as [Hk0 Hf0]. split.
        - intros Hes. unfold key. by rewrite Hes, <- Hs0.
        - intros Hek. rewrite Hek in Hf. rewrite <- Hs0.
          by eapply first_position_inj. }
      rewrite Hfilter by (intros e; by rewrite Hperm).
      rewrite Hsorted, (sort_by_stable Z.leb key Zleb_total).
      by rewrite <- Hfilter. }
  split_and!.
  - intros i j e1 e2 Hij H1 H2.
    pose proof (sort_by_sorted Z.leb key Zleb_total Zleb_trans (schedule st))
      as Hs.
    rewrite <- Hsorted in Hs.
    pose proof (StronglySorted_lookup _ _ _ _ _ _ Hs Hij H1 H2) as Hle.
    unfold before_rel in Hle.
    destruct (Hkey e1) as [Hk1 Hf1];
      [rewrite <- Hperm; by eapply list_elem_of_lookup_2|].
    destruct (Hkey e2) as [Hk2 Hf2];
      [rewrite <- Hperm; by eapply list_elem_of_lookup_2|].
    exists (Z.to_nat (key e1)), (Z.to_nat (key e2)).
    split_and!; [done..|lia].
  - intros _. by exists st.
  - intros s. rewrite Hstable.
    destruct (run_tasks_account _ _ _ _ Hrun)
      as (es & un & Hs & _ & _ & Hsub & _).
    simpl in Hs. subst es.
    etransitivity; [|exact Hsub].
    apply fmap_sublist, sublist_filter.
Qed.

Lemma chronological_order_witness :
  (∃ k1 k2,
     first_position (e_slot week_entry0) (slots week_data) k1
     ∧ first_position "Tue 9" (slots week_data) k2
     ∧ (k1 ≤ k2)%nat)
  ∧ ∃ st,
      run_tasks week_data (init_state week_data) (tasks week_data) = Some st
      ∧ filter (λ e, e_slot e = "Mon 9") (resp_schedule week_response)
        = filter (λ e, e_slot e = "Mon 9") (schedule st).
Proof.
  destruct (chronological_order week_data week_response week_response_eq)
    as (Horder & Hstable & _).
  split.
  - apply (Horder 0%nat 6%nat week_entry0
             {| e_slot := "Tue 9"; e_day := "Tue"; e_teacher := "U";
                e_groups := ["G"]; e_subject := "L"; e_room := "Q";
                e_type := "lecture" |}); [lia | reflexivity..].
  - destruct Hstable as (st & Hrun & _ & Hfilter);
      [vm_compute; discriminate|].
    exists st. split; [exact Hrun | apply Hfilter].
Defined.

(** ** The occupancy dictionaries mirror the schedule *)

#[local] Set Warnings "-clear-no-such-hyp".

Lemma marked_insert (m : gmap string (gset string)) (s : string)
    (old new : gset string) (s' x : string) :
  m !! s = Some old →
  marked (<[s := new ∪ old]> m) s' x ↔ marked m s' x ∨ (s' = s ∧ x ∈ new).
Proof.
  intros Hold. unfold marked. destruct (decide (s = s')) as [<-|Hne].
  - rewrite lookup_insert_eq. split.
    + intros (o & [= <-] & [Hx|Hx]%elem_of_union); [by right | left; eauto].
    + intros [(o & Ho & Hx)|[_ Hx]]; eexists; (split; [done|]).
      * rewrite Hold in Ho. injection Ho as <-. by apply elem_of_union_r.
      * by apply elem_of_union_l.
  - rewrite lookup_insert_ne by done. split; [by left|].
    intros [?|[? _]]; [done | congruence].
Qed.

Lemma marked_add_groups og slot gs og' s' x :
  add_groups og slot gs = Some og' →
  marked og' s' x ↔ marked og s' x ∨ (s' = slot ∧ x ∈ gs).
Proof.
  revert og. induction gs as [|g gs IH]; simpl; intros og H.
  - injection H as <-. split; [by left|].
    intros [?|[_ ?%elem_of_nil]]; done.
  - apply bind_Some in H as (o & Ho & H).
    rewrite (IH _ H), (marked_insert _ _ _ _ _ _ Ho).
    rewrite elem_of_singleton, elem_of_cons. naive_solver.
Qed.

Lemma marked_init (l : list string) (s x : string) :
  ¬ marked (dict_of ((λ s, (s, ∅)) <$> l)) s x.
Proof.
  intros (o & Ho & Hx). rewrite (dict_of_lookup (λ _, ∅)) in Ho.
  destruct (decide (s ∈ l)); [|done]. injection Ho as <-.
  by apply not_elem_of_empty in Hx.
Qed.

Lemma init_state_marks data : marks_exact data (init_state data).
Proof.
  unfold marks_exact, init_state; simpl. split_and!.
  - intros s x. split; [by intros ?%marked_init|].
    by intros (e & ?%elem_of_nil & _).
  - intros s x. split; [by intros ?%marked_init|].
    by intros (e & ?%elem_of_nil & _).
  - intros s x. split; [by intros ?%marked_init|].
    by intros (e & ?%elem_of_nil & _).
  - intros t d i. split; [|by intros (e & ? & ?%elem_of_nil & _)].
    intros (daily & used & Hd & Hu & Hi).
    rewrite (dict_of_lookup (λ _, dict_of ((λ d, (d, ∅)) <$> days data)))
      in Hd.
    destruct (decide (t ∈ teachers data)); [|done]. injection Hd as <-.
    rewrite (dict_of_lookup (λ _, ∅)) in Hu.
    destruct (decide (d ∈ days data)); [|done]. injection Hu as <-.
    by apply not_elem_of_empty in Hi.
Qed.

Lemma commit_marks data st task s r st' :
  commit data st task s r = Some st' →
  marks_exact data st → marks_exact data st'.
Proof.
  intros Hc (HT & HG & HR & HD).
  apply commit_spec in Hc
    as (info & ot & oroom & og' & daily & used
        & Hinfo & Hot & Horoom & Hog' & Hdaily & Hused & ->).
  unfold marks_exact; simpl.
  assert (∀ P : Entry → Prop,
            (∃ e, e ∈ schedule st ++
                    [{| e_slot := s; e_day := day info;
                        e_teacher := t_teacher task;
                        e_groups := t_groups task;
                        e_subject := t_subject task; e_room := r;
                        e_type := t_type task |}] ∧ P e)
            ↔ (∃ e, e ∈ schedule st ∧ P e)
              ∨ P {| e_slot := s; e_day := day info;
                     e_teacher := t_teacher task;
                     e_groups := t_groups task;
                     e_subject := t_subject task; e_room := r;
                     e_type := t_type task |}) as Hsnoc.
  { intros P. setoid_rewrite elem_of_app.
    setoid_rewrite list_elem_of_singleton. naive_solver. }
  split_and!.
  - intros s' x. rewrite (marked_insert _ _ _ _ _ _ Hot), HT, Hsnoc.
    simpl. rewrite elem_of_singleton. naive_solver.
  - intros s' x. rewrite (marked_add_groups _ _ _ _ _ _ Hog'), HG, Hsnoc.
    simpl. naive_solver.
  - intros s' x. rewrite (marked_insert _ _ _ _ _ _ Horoom), HR, Hsnoc.
    simpl. rewrite elem_of_singleton. naive_solver.
  - intros t d i.
    transitivity
      ((∃ daily0 used0, teacher_daily st !! t = Some daily0
                        ∧ daily0 !! d = Some used0 ∧ i ∈ used0)
       ∨ (t = t_teacher task ∧ d = day info ∧ i = time_idx info)).
    + destruct (decide (t_teacher task = t)) as [<-|Hnt].
      * rewrite lookup_insert_eq.
        destruct (decide (day info = d)) as [<-|Hnd].
        -- split.
           ++ intros (? & ? & [= <-] & Hu & Hi).
              rewrite lookup_insert_eq in Hu. injection Hu as <-.
              apply elem_of_union in Hi as [Hi%elem_of_singleton|Hi];
                [by right | left; eauto].
           ++ intros [(d0 & u0 & Hd0 & Hu0 & Hi)|(_ & _ & ->)];
                eexists _, _; (split_and!; [done|apply lookup_insert_eq|]).
              ** rewrite Hdaily in Hd0. injection Hd0 as <-.
                 rewrite Hused in Hu0. injection Hu0 as <-.
                 by apply elem_of_union_r.
              ** by apply elem_of_union_l, elem_of_singleton.
        -- split.
           ++ intros (? & ? & [= <-] & Hu & Hi).
              rewrite lookup_insert_ne in Hu by done. left. eauto.
           ++ intros [(d0 & u0 & Hd0 & Hu0 & Hi)|(_ & ? & _)]; [|congruence].
              rewrite Hdaily in Hd0. injection Hd0 as <-.
              eexists _, _. split_and!; [done| |done].
              by rewrite lookup_insert_ne.
      * rewrite lookup_insert_ne by done. split; [by left|].
        intros [?|(? & _)]; [done | congruence].
    + rewrite HD.
      transitivity
        ((∃ e, e ∈ schedule st ∧
               (e_teacher e = t
                ∧ ∃ info0, slot_map data !! e_slot e = Some info0
                           ∧ day info0 = d ∧ time_idx info0 = i))
         ∨ (t_teacher task = t
            ∧ ∃ info0, slot_map data !! s = Some info0
                       ∧ day info0 = d ∧ time_idx info0 = i)).
      * rewrite Hinfo. naive_solver.
      * rewrite <- (Hsnoc (λ e, e_teacher e = t
                  ∧ ∃ info0, slot_map data !! e_slot e = Some info0
                             ∧ day info0 = d ∧ time_idx info0 = i)).
        naive_solver.
Qed.

Lemma process_task_marks data st task st' :
  process_task data st task = Some st' →
  marks_exact data st → marks_exact data st'.
Proof.
  intros H Hm.
  apply process_task_cases in H
    as (cands & _ & [(pre & s & post & r & _ & _ & _ & _ & Hc)|[_ ->]]);
    [by eapply commit_marks | done].
Qed.

(** X11. At every point of the placement loop the occupancy dictionaries
    mirror the schedule built so far: nothing is marked occupied without
    an entry that occupies it, and every entry has its teacher, groups,
    room and time index marked. *)
Theorem occupancy_mirrors_schedule (data : SessionData) (ts : list Task)
    (st : State) :
  run_tasks data (init_state data) ts = Some st → marks_exact data st.
Proof.
  generalize (init_state_marks data). generalize (init_state data).
  induction ts as [|task ts IH]; simpl; intros st0 Hm H.
  - by injection H as <-.
  - apply bind_Some in H as (st1 & H1 & H).
    eapply IH; [|done]. by eapply process_task_marks.
Qed.

Lemma week_state1_eq :
  run_tasks week_data (init_state week_data) [lecture_U_H] = Some week_state1.
Proof. vm_compute; reflexivity. Qed.

Lemma occupancy_mirrors_schedule_witness :
  marked (occ_rooms week_state1) "Mon 9" "R".
Proof.
  destruct (occupancy_mirrors_schedule week_data [lecture_U_H] week_state1
              week_state1_eq) as (_ & _ & Hrooms & _).
  apply Hrooms. exists week_entry0.
  split_and!; [vm_compute; left | reflexivity | reflexivity].
Defined.

(** ** The greedy choice of a slot *)

(** What "no room" means in a slot when no configured room has an empty
    name. *)
Lemma no_room_in_named data st task s oroom :
  "" ∉ room_names data →
  no_room_in data st task s →
  occ_rooms st !! s = Some oroom →
  (∀ r, r ∈ room_names data → r ∉ oroom →
        fits data (total_size (group_sizes data) (t_groups task)) r = false)
  ∧ (∀ pref,
       t_type task ≠ "lecture" →
       teacher_prefs data !! t_teacher task = Some pref →
       pref ≠ "" → pref ∉ oroom →
       fits data (total_size (group_sizes data) (t_groups task)) pref
       = false).
Proof.
  intros Hnamed (target & Hc & Ht) Ho.
  set (n := total_size (group_sizes data) (t_groups task)) in *.
  unfold choose_room in Hc.
  apply bind_Some in Hc as (pt & Hpt & Hc).
  destruct (truthy pt) eqn:Hpt'; [injection Hc as <-; congruence|].
  rewrite (free_rooms_filter _ _ _ _ Ho) in Hc. simpl in Hc.
  injection Hc as Hc.
  destruct (find (fits data n)
              (sorted_asc (room_cap data)
                 (filter (λ r, r ∉ oroom) (room_names data))))
    as [r'|] eqn:Hfind.
  { subst target. exfalso. simpl in Ht.
    apply negb_false_iff, bool_decide_eq_true in Ht. subst r'.
    apply find_some in Hfind as [Hin _]. apply list_elem_of_In in Hin.
    unfold sorted_asc in Hin. rewrite sort_by_elem_of in Hin.
    apply list_elem_of_filter in Hin as [_ Hin]. done. }
  split.
  - intros r Hr Hfree.
    apply (find_none _ _ Hfind). apply list_elem_of_In.
    unfold sorted_asc. rewrite sort_by_elem_of.
    apply list_elem_of_filter. done.
  - intros pref Hty Hpref Hne Hfree.
    unfold preferred_target in Hpt.
    rewrite bool_decide_true in Hpt by done.
    rewrite Hpref, Ho in Hpt. simpl in Hpt.
    rewrite bool_decide_true in Hpt by done. simpl in Hpt.
    destruct (fits data n pref); [|done].
    injection Hpt as <-. simpl in Hpt'.
    by rewrite bool_decide_false in Hpt'.
Qed.

(** Conversely, these two conditions leave the slot without a room. *)
Lemma named_no_room_in data st task s oroom :
  "" ∉ room_names data →
  occ_rooms st !! s = Some oroom →
  (∀ r, r ∈ room_names data → r ∉ oroom →
        fits data (total_size (group_sizes data) (t_groups task)) r = false) →
  (∀ pref,
     t_type task ≠ "lecture" →
     teacher_prefs data !! t_teacher task = Some pref →
     pref ≠ "" → pref ∉ oroom →
     fits data (total_size (group_sizes data) (t_groups task)) pref
     = false) →
  no_room_in data st task s.
Proof.
  intros Hnamed Ho Hrooms Hpref. unfold no_room_in, choose_room.
  set (n := total_size (group_sizes data) (t_groups task)) in *.
  rewrite (free_rooms_filter _ _ _ _ Ho).
  assert (find (fits data n)
            (sorted_asc (room_cap data)
               (filter (λ r, r ∉ oroom) (room_names data))) = None) as Hfind.
  { destruct (find _ _) as [r|] eqn:Hfind; [|done]. exfalso.
    apply find_some in Hfind as [Hin Hfit]. apply list_elem_of_In in Hin.
    unfold sorted_asc in Hin. rewrite sort_by_elem_of in Hin.
    apply list_elem_of_filter in Hin as [Hfree Hin].
    rewrite (Hrooms r Hin Hfree) in Hfit. done. }
  assert (∃ pt, preferred_target data st task n s = Some pt
                ∧ truthy pt = false) as (pt & -> & Hpt).
  { unfold preferred_target. case_bool_decide as Hty; [|by exists None].
    destruct (teacher_prefs data !! t_teacher task) as [pref|] eqn:Hp;
      [|by exists None].
    rewrite Ho. simpl. eexists. split; [done|].
    case_bool_decide as Hfree; simpl; [|done].
    destruct (fits data n pref) eqn:Hfit; [|done]. simpl.
    destruct (decide (pref = "")) as [->|Hne]; [done|].
    rewrite (Hpref pref Hty eq_refl Hne Hfree) in Hfit. done. }
  simpl. rewrite Hpt, Hfind. simpl. by exists pt.
Qed.

(** X12. A task is placed in the first of its candidate slots, taken in
    score order, for which a room is found: the slots before the chosen one
    have no room, the chosen slot has the room of the entry, and that room
    has a name. A task is reported unplaced only when no candidate slot has
    a room. When no configured room has an empty name, a slot has no room
    exactly when no free configured room is large enough and the preferred
    room of a task that is not a lecture, if it has a name, is taken or too
    small. *)
Theorem greedy_choice (data : SessionData) (st : State) (task : Task)
    (st' : State) :
  process_task data st task = Some st' →
  (∃ cands,
     candidates data st task = Some cands
     ∧ ((∃ e pre post,
           schedule st' = schedule st ++ [e]
           ∧ entry_task e = task
           ∧ cands = pre ++ e_slot e :: post
           ∧ Forall (no_room_in data st task) pre
           ∧ choose_room data st task
               (total_size (group_sizes data) (t_groups task)) (e_slot e)
             = Some (Some (e_room e))
           ∧ e_room e ≠ ""
           ∧ ¬ no_room_in data st task (e_slot e))
        ∨ (schedule st' = schedule st
           ∧ Forall (no_room_in data st task) cands)))
  ∧ (∀ s oroom,
       "" ∉ room_names data →
       occ_rooms st !! s = Some oroom →
       no_room_in data st task s
       ↔ (∀ r, r ∈ room_names data → r ∉ oroom →
               fits data (total_size (group_sizes data) (t_groups task)) r
               = false)
         ∧ (∀ pref,
              t_type task ≠ "lecture" →
              teacher_prefs data !! t_teacher task = Some pref →
              pref ≠ "" → pref ∉ oroom →
              fits data (total_size (group_sizes data) (t_groups task))
                pref = false)).
Proof.
  intros H. split.
  - apply process_task_cases in H
      as (cands & Hcands
          & [(pre & s & post & r & -> & Hpre & Hroom & Hr & Hc)|[Hall ->]]).
    + exists (pre ++ s :: post). split; [done|]. left.
      apply commit_spec in Hc
        as (info & ? & ? & ? & ? & ? & _ & _ & _ & _ & _ & _ & ->).
      eexists _, pre, post. simpl.
      split_and!; [done | by destruct task | done..|].
      intros (target & Ht & Hfalse). simpl in Ht. rewrite Hroom in Ht.
      injection Ht as <-. simpl in Hfalse.
      by rewrite bool_decide_false in Hfalse.
    + exists cands. split; [done|]. by right.
  - intros s oroom Hnamed Ho. split.
    + intros Hno. by eapply no_room_in_named.
    + intros [Hrooms Hpref]. by eapply named_no_room_in.
Qed.

Lemma greedy_choice_witness :
  ∃ e,
    schedule two_slots_state2 = schedule two_slots_state1 ++ [e]
    ∧ e_slot e = "Mon 2"
    ∧ no_room_in two_slots_data two_slots_state1 seminar_T_H "Mon 1".
Proof.
  destruct (greedy_choice two_slots_data two_slots_state1 seminar_T_H
              two_slots_state2)
    as [(cands & Hcands & Hcase) _]; [vm_compute; reflexivity|].
  vm_compute in Hcands. injection Hcands as <-.
  destruct Hcase as [(e & pre & post & Hs & _ & Hsplit & Hpre & _)|[Hs _]].
  - exists e. split; [exact Hs|].
    change (schedule two_slots_state2)
      with (schedule two_slots_state1 ++ [two_slots_entry1]) in Hs.
    apply app_inv_head in Hs. injection Hs as <-.
    split; [reflexivity|].
    destruct pre as [|s0 pre]; [discriminate|].
    injection Hsplit as <- _. by apply Forall_cons in Hpre as [Hno _].
  - apply (f_equal length) in Hs. vm_compute in Hs. discriminate.
Defined.

(** ** The lookup tables *)

Lemma fold_insert_lookup_gen {V} (l : list (string * V)) (m : gmap string V)
    (k : string) :
  fold_left (λ m kv, <[kv.1 := kv.2]> m) l m !! k
  = match dict_of l !! k with
    | Some v => Some v
    | None => m !! k
    end.
Proof.
  unfold dict_of. revert m. induction l as [|[k' v] l IH]; intros m; simpl.
  - by rewrite lookup_empty.
  - rewrite (IH (<[k':=v]> m)), (IH (<[k':=v]> ∅)).
    destruct (fold_left _ l ∅ !! k); [done|].
    destruct (decide (k' = k)) as [->|Hne].
    + by rewrite !lookup_insert_eq.
    + by rewrite !lookup_insert_ne, lookup_empty by done.
Qed.

Lemma dict_of_None {V} (l : list (string * V)) (k : string) :
  k ∉ l.*1 → dict_of l !! k = None.
Proof.
  induction l as [|[k' v] l IH]; [intros _; apply lookup_empty|].
  csimpl. intros Hk. apply not_elem_of_cons in Hk as [Hne Hk].
  unfold dict_of. simpl. rewrite fold_insert_lookup_gen, (IH Hk).
  by rewrite lookup_insert_ne, lookup_empty.
Qed.

Lemma dict_of_last {V} (pre post : list (string * V)) (k : string) (v : V) :
  k ∉ post.*1 → dict_of (pre ++ (k, v) :: post) !! k = Some v.
Proof.
  intros Hk. unfold dict_of. rewrite fold_left_app. simpl.
  rewrite fold_insert_lookup_gen, (dict_of_None _ _ Hk).
  apply lookup_insert_eq.
Qed.

(** X13. Sizes and capacities are looked up by name and the last item of
    a name wins: a group counts the size of the last group item with its
    name and 0 when no item has the name; a room has the capacity of the
    last room item with its name and 9999 when no item has the name. *)
Theorem lookup_tables (data : SessionData) :
  (∀ pre g post,
     groups data = pre ++ g :: post →
     (∀ g', g' ∈ post → g_name g' ≠ g_name g) →
     group_size (group_sizes data) (g_name g) = g_size g)
  ∧ (∀ n, (∀ g, g ∈ groups data → g_name g ≠ n) →
          group_size (group_sizes data) n = 0)
  ∧ (∀ pre r post,
       rooms data = pre ++ r :: post →
       (∀ r', r' ∈ post → r_name r' ≠ r_name r) →
       room_cap data (r_name r) = r_capacity r)
  ∧ (∀ n, (∀ r, r ∈ rooms data → r_name r ≠ n) → room_cap data n = 9999).
Proof.
  unfold group_size, group_sizes, room_cap, room_caps. split_and!.
  - intros pre g post -> Hpost. rewrite fmap_app, fmap_cons.
    rewrite dict_of_last; [done|].
    rewrite <- list_fmap_compose.
    intros (g' & Hn & Hin)%list_elem_of_fmap. by eapply Hpost.
  - intros n Hn. rewrite dict_of_None; [done|].
    rewrite <- list_fmap_compose.
    intros (g' & Hn' & Hin)%list_elem_of_fmap. by eapply Hn.
  - intros pre r post -> Hpost. rewrite fmap_app, fmap_cons.
    rewrite dict_of_last; [done|].
    rewrite <- list_fmap_compose.
    intros (r' & Hn & Hin)%list_elem_of_fmap. by eapply Hpost.
  - intros n Hn. rewrite dict_of_None; [done|].
    rewrite <- list_fmap_compose.
    intros (r' & Hn' & Hin)%list_elem_of_fmap. by eapply Hn.
Qed.

Lemma lookup_tables_witness :
  group_size (group_sizes week_data) "H" = 7
  ∧ room_cap week_data "Lab" = 9999.
Proof.
  destruct (lookup_tables week_data) as (Hg & _ & _ & Hr). split.
  - apply (Hg [group_G5] group_H7 []); [reflexivity|].
    by intros g' ?%elem_of_nil.
  - apply Hr. intros r Hr'. simpl in Hr'.
    apply elem_of_cons in Hr' as [->|Hr'];
      [|apply elem_of_cons in Hr' as [->|Hr']];
      [discriminate | discriminate | by apply elem_of_nil in Hr'].
Defined.

(** ** The packer's bound and the capacity test *)

Lemma NoDup_fmap_split {A B} (f : A → B) (l : list A) (x : A) :
  NoDup (f <$> l) → x ∈ l →
  ∃ pre post, l = pre ++ x :: post ∧ ∀ y, y ∈ post → f y ≠ f x.
Proof.
  intros Hnd (pre & post & ->)%list_elem_of_split.
  exists pre, post. split; [done|]. intros y Hy Heq.
  rewrite fmap_app, fmap_cons in Hnd.
  apply NoDup_app in Hnd as (_ & _ & Hnd).
  apply NoDup_cons in Hnd as [Hnin _]. apply Hnin.
  rewrite <- Heq. by apply list_elem_of_fmap_2.
Qed.

Lemma largest_room data :
  NoDup (room_names data) → rooms data ≠ [] →
  ∃ r, r ∈ room_names data
       ∧ ∀ n, fits data n r = true ↔ n ≤ max_cap data.
Proof.
  intros Hnd Hne. unfold max_cap.
  destruct (rooms data) as [|r0 rs] eqn:Hrooms; [done|]. simpl.
  pose proof (foldl_max_spec (r_capacity r0) (r_capacity <$> rs)) as H.
  simpl in H. destruct H as (Hm & _ & _).
  set (m := foldl Z.max (r_capacity r0) (r_capacity <$> rs)) in *.
  assert (∃ r, r ∈ rooms data ∧ r_capacity r = m) as (r & Hr & Hcap).
  { rewrite Hrooms. destruct Hm as [Hm|Hm].
    - exists r0. split; [by left | done].
    - apply list_elem_of_fmap in Hm as (r' & Hr' & Hin).
      exists r'. split; [by right | done]. }
  destruct (NoDup_fmap_split r_name (rooms data) r Hnd Hr)
    as (pre & post & Hsplit & Hpost).
  exists (r_name r). split; [by apply list_elem_of_fmap_2|].
  intros n. unfold fits, room_cap, room_caps.
  rewrite Hsplit, fmap_app, fmap_cons, dict_of_last.
  - simpl. rewrite Hcap. destruct (m =? 0); lia.
  - rewrite <- list_fmap_compose.
    intros (r' & Hn & Hin)%list_elem_of_fmap. by eapply Hpost.
Qed.

(** X14. When the room names are distinct and there is at least one
    room, some configured room passes the capacity test exactly for the
    enrollments up to the packer's bound [max_cap]. Every stream of a
    lecture assignment therefore fits that room, unless it is a single
    group that alone exceeds the bound. *)
Theorem stream_fits_largest_room (data : SessionData) :
  NoDup (room_names data) → rooms data ≠ [] →
  ∃ r, r ∈ room_names data
       ∧ (∀ n, fits data n r = true ↔ n ≤ max_cap data)
       ∧ ∀ gs s,
           s ∈ pack_streams (group_sizes data) (max_cap data) gs →
           fits data (total_size (group_sizes data) s) r = true
           ∨ ∃ g, s = [g] ∧ group_size (group_sizes data) g > max_cap data.
Proof.
  intros Hnd Hne. destruct (largest_room data Hnd Hne) as (r & Hr & Hfits).
  exists r. split_and!; [done..|]. intros gs s Hs.
  destruct (pack_streams_inv (group_sizes data) (max_cap data) gs)
    as [Hall _].
  rewrite Forall_forall in Hall. destruct (Hall s Hs) as [_ [Hle|Hbig]].
  - left. by apply Hfits.
  - by right.
Qed.

Lemma stream_fits_largest_room_witness :
  ∃ r, r ∈ room_names week_data
       ∧ ∀ n, fits week_data n r = true ↔ n ≤ max_cap week_data.
Proof.
  destruct (stream_fits_largest_room week_data) as (r & Hr & Hfits & _).
  - apply (bool_decide_unpack _). vm_compute. exact I.
  - discriminate.
  - exists r. split; [exact Hr | exact Hfits].
Defined.

(** ** The room policy for named rooms *)

(** X15. In a slot whose occupied rooms are [oroom]: a task that is not a
    lecture gets its teacher's preferred room whenever that room has a
    non-empty name, is not occupied and passes the capacity test, whatever
    other rooms are free. When there is no such usable preference the
    choice is the first room passing the capacity test among the
    unoccupied configured rooms in ascending order of capacity, rooms of
    equal capacity in their configured order. A chosen room with a
    non-empty name is committed at once. *)
Theorem room_policy (data : SessionData) (st : State) (task : Task)
    (n : Z) (slot : string) (oroom : gset string) :
  occ_rooms st !! slot = Some oroom →
  let free := filter (λ r, r ∉ oroom) (room_names data) in
  let scanned := sorted_asc (room_cap data) free in
  (∀ pref,
     t_type task ≠ "lecture" →
     teacher_prefs data !! t_teacher task = Some pref →
     pref ∉ oroom → fits data n pref = true → pref ≠ "" →
     choose_room data st task n slot = Some (Some pref))
  ∧ (¬ (t_type task ≠ "lecture"
        ∧ ∃ pref, teacher_prefs data !! t_teacher task = Some pref
                  ∧ (pref ∉ oroom) ∧ fits data n pref = true) →
     choose_room data st task n slot = Some (find (fits data n) scanned))
  ∧ scanned ≡ₚ free
  ∧ StronglySorted (λ r1 r2, room_cap data r1 ≤ room_cap data r2) scanned
  ∧ (∀ k, filter (λ r, room_cap data r = k) scanned
          = filter (λ r, room_cap data r = k) free)
  ∧ (∀ r rest reason,
       choose_room data st task n slot = Some (Some r) → r ≠ "" →
       try_slots data st task n (slot :: rest) reason
       = Placed <$> commit data st task slot r).
Proof.
  intros Ho free scanned.
  destruct (room_choice_named data st task n slot oroom Ho)
    as (Hpref & Hscan & Hperm & Hsorted & Hcommit).
  split_and!; [done..| |done].
  intros k. apply sort_by_stable, Zleb_total.
Qed.

Lemma room_policy_witness :
  choose_room busy_pref_data (init_state busy_pref_data) seminar_T_G 5
    "Mon 10" = Some (Some "Lab").
Proof.
  destruct (room_policy busy_pref_data (init_state busy_pref_data)
              seminar_T_G 5 "Mon 10" ∅) as [Hpref _];
    [vm_compute; reflexivity|].
  apply Hpref; [discriminate | vm_compute; reflexivity
               | apply not_elem_of_empty
               | vm_compute; reflexivity | discriminate].
Defined.

(** ** Edge cases *)

Lemma sort_by_same_key {A} (before : Z → Z → bool) (key : A → Z) (k : Z)
    (l : list A) :
  (∀ a b, before a b = false → before b a = true) →
  Forall (λ x, key x = k) l → sort_by before key l = l.
Proof.
  intros Htotal Hall.
  pose proof (sort_by_stable before key Htotal k l) as Hst.
  assert (∀ l' : list A, Forall (λ x, key x = k) l' →
                         filter (λ x, key x = k) l' = l') as Hfull.
  { intros l'. induction 1 as [|x l' Hx _ IH]; [done|].
    by rewrite filter_cons_True, IH. }
  rewrite (Hfull l Hall) in Hst. rewrite <- Hst at 2. symmetry.
  apply Hfull. by rewrite (sort_by_perm before key l).
Qed.

(** X16. The first placement of a teacher: while the teacher has no used
    time index on any day, every slot scores the same and the candidates
    are simply the available slots in the chronological order of the
    grid. *)
Theorem first_lesson_candidates (data : SessionData) (st : State)
    (task : Task) (daily : gmap string (gset Z)) (cands : list string) :
  teacher_daily st !! t_teacher task = Some daily →
  (∀ d used, daily !! d = Some used → used = ∅) →
  candidates data st task = Some cands →
  cands = filter (λ s, slot_available data st task s = Some true)
            (slots data).
Proof.
  intros Hdaily Hempty (avail & _ & <- & Hall & ->)%candidates_spec.
  apply (sort_by_same_key _ _ 10); [apply Zgeb_total|].
  eapply Forall_impl; [exact Hall|]. intros s [v Hv].
  rewrite Hv. simpl. unfold score in Hv.
  apply bind_Some in Hv as (info & _ & Hv).
  apply bind_Some in Hv as (daily' & Hd & Hv).
  apply bind_Some in Hv as (exist & He & Hv).
  rewrite Hdaily in Hd. injection Hd as <-.
  rewrite (Hempty _ _ He), elements_empty in Hv. simpl in Hv.
  by injection Hv as <-.
Qed.

Lemma first_lesson_candidates_witness :
  ["Mon 9"; "Mon 10"; "Mon 11"; "Tue 9"; "Tue 10"; "Tue 11"]
  = filter (λ s, slot_available week_data (init_state week_data)
                   lecture_U_H s = Some true) (slots week_data).
Proof.
  apply (first_lesson_candidates week_data (init_state week_data)
           lecture_U_H {[ "Mon" := ∅; "Tue" := ∅ ]}).
  - vm_compute; reflexivity.
  - intros d used Hd.
    destruct (decide (d = "Mon")) as [->|Hn1];
      [rewrite lookup_insert_eq in Hd; by injection Hd|].
    rewrite lookup_insert_ne in Hd by done.
    destruct (decide (d = "Tue")) as [->|Hn2];
      [rewrite lookup_singleton_eq in Hd; by injection Hd|].
    by rewrite lookup_singleton_ne in Hd.
  - vm_compute; reflexivity.
Defined.

(** X17. Without configured rooms and without room preferences nothing is
    scheduled: the schedule is empty and, on a non-empty grid, every task
    is reported in the diagnostics. *)
Theorem no_rooms_no_schedule (data : SessionData) (resp : Response) :
  rooms data = [] → teacher_prefs data = ∅ →
  generate_schedule data = Some resp →
  resp_schedule resp = []
  ∧ (slots data ≠ [] → length (resp_errors resp) = length (tasks data)).
Proof.
  intros Hrooms Hprefs H.
  assert (resp_schedule resp = []) as Hempty.
  { pose proof (generate_schedule_entry_wf _ _ H) as Hall.
    destruct (resp_schedule resp) as [|e l]; [done|]. exfalso.
    apply Forall_cons in Hall as [(_ & _ & _ & _ & _ & Hprov) _].
    unfold room_names in Hprov. rewrite Hrooms, Hprefs in Hprov.
    destruct Hprov as [Hin|[_ Hp]]; [by apply elem_of_nil in Hin|].
    by rewrite lookup_empty in Hp. }
  split; [done|]. intros Hne.
  destruct (generate_schedule_success _ _ H Hne)
    as (st & Hrun & _ & Hperm & _ & ->).
  apply run_tasks_count in Hrun. simpl in Hrun.
  rewrite Hempty in Hperm. apply Permutation_nil_l in Hperm.
  rewrite <- Hperm in Hrun. simpl in Hrun. lia.
Qed.

Lemma no_rooms_no_schedule_witness :
  ∃ resp, generate_schedule no_rooms_data = Some resp
          ∧ resp_schedule resp = []
          ∧ length (resp_errors resp) = 2%nat.
Proof.
  eexists. split; [vm_compute; reflexivity|].
  destruct (no_rooms_no_schedule no_rooms_data _ eq_refl eq_refl
              ltac:(vm_compute; reflexivity)) as [H1 H2].
  split; [exact H1|]. apply H2. vm_compute. discriminate.
Defined.

Lemma tasks_nil data :
  (∀ a, a ∈ assignments data → a_count a ≤ 0 ∨ a_groups a = []) →
  tasks data = [].
Proof.
  intros Hall. apply length_zero_iff_nil. rewrite tasks_length.
  induction (assignments data) as [|a l IH]; [done|]. csimpl.
  rewrite IH by (intros a' Ha'; apply Hall; by right).
  unfold assignment_task_count.
  destruct (Hall a) as [Hc|Hg]; [by left| |].
  - replace (Z.to_nat (a_count a)) with 0%nat by lia. done.
  - rewrite Hg. simpl. case_bool_decide; simpl; lia.
Qed.

(** X18. Nothing to schedule: when every assignment has a non-positive
    [count] or no group, a non-empty grid gives status "success" with an
    empty schedule and no diagnostics. *)
Theorem nothing_to_schedule (data : SessionData) :
  (∀ a, a ∈ assignments data → a_count a ≤ 0 ∨ a_groups a = []) →
  slots data ≠ [] →
  generate_schedule data
  = Some {| status := "success"; message := None;
            resp_schedule := []; resp_errors := [] |}.
Proof.
  intros Hall Hne. unfold generate_schedule.
  rewrite (tasks_nil data Hall).
  destruct (slots data) as [|s sl]; [done|]. reflexivity.
Qed.

Lemma nothing_to_schedule_witness :
  generate_schedule
    {| teachers := ["T"]; subjects := []; groups := [group_G5];
       rooms := [room_R10];
       assignments :=
         [{| a_teacher := "T"; a_groups := ["G"]; a_subject := "S";
             a_count := -1; a_type := "lecture" |};
          {| a_teacher := "T"; a_groups := []; a_subject := "S";
             a_count := 3; a_type := "seminar" |}];
       teacher_prefs := ∅; teacher_busy := ∅;
       days := ["Mon"]; times := ["9"] |}
  = Some {| status := "success"; message := None;
            resp_schedule := []; resp_errors := [] |}.
Proof.
  apply nothing_to_schedule.
  - intros a Ha. simpl in Ha.
    apply elem_of_cons in Ha as [->|Ha];
      [left; simpl; lia|].
    apply elem_of_cons in Ha as [->|Ha];
      [by right | by apply elem_of_nil in Ha].
  - vm_compute. discriminate.
Defined.
